(** * Webscrapebot: fare parsing, extraction, rate limiting and the retry loop

    A shallow embedding of [src/Webscrapebot.py].

    Conventions of the model.
    - Python [str] values are [string]s of 8-bit characters; the character
      classes of [str.strip], [str.lower], [\s] and [\d] are their ASCII parts.
    - Python [int] is [Z].
    - A Python [float] is the rational [Q] that the double is worth. Reading a
      number and the arithmetic of the fare computations give the double
      nearest to the exact result ([Py.binary64]); the infinite floats have no
      value of their own, a magnitude of [2 ** 1024] or more tells that the
      code has one, and where the code turns one into an exception the model
      raises it. Clock readings and pauses are computed exactly. Equality of
      floats is [Qeq].
    - A raised exception is the [Raise] case of [result].
    - The clock ([time.time()]), the browser and the fetched page are inputs;
      so are the draws of [random], and what the file system and Chrome do
      when a browser is launched or released. *)

From Stdlib Require Import ZArith QArith Qround Qabs Qpower List String Ascii Bool Lia Lqa.
From Stdlib Require Import DecimalString.
Import ListNotations.

Local Open Scope Z_scope.

(** ** Exceptions and results *)

Inductive exn : Type :=
| ValueError
| ZeroDivisionError
| AttributeError
| OverflowError
| OSError
| TimeoutException
| WebDriverException.

Inductive result (A : Type) : Type :=
| Ok (a : A)
| Raise (e : exn).

Arguments Ok {A} a.
Arguments Raise {A} e.

Definition bind {A B : Type} (m : result A) (f : A -> result B) : result B :=
  match m with
  | Ok a => f a
  | Raise e => Raise e
  end.

Notation "x <- m ;; k" := (bind m (fun x => k))
  (at level 61, m at next level, right associativity).

(** ** The Python builtins the program uses *)

Module Py.

Definition is_space (c : ascii) : bool :=
  let n := nat_of_ascii c in
  ((9 <=? n) && (n <=? 13) || (28 <=? n) && (n <=? 32))%nat.

Definition is_digit (c : ascii) : bool :=
  let n := nat_of_ascii c in ((48 <=? n) && (n <=? 57))%nat.

Definition digit_value (c : ascii) : Z :=
  Z.of_nat (nat_of_ascii c) - 48.

Definition lower_char (c : ascii) : ascii :=
  let n := nat_of_ascii c in
  if ((65 <=? n) && (n <=? 90))%nat then ascii_of_nat (n + 32) else c.

(** [str.lower()] *)
Fixpoint lower (s : string) : string :=
  match s with
  | EmptyString => EmptyString
  | String c r => String (lower_char c) (lower r)
  end.

Fixpoint lstrip (s : string) : string :=
  match s with
  | EmptyString => EmptyString
  | String c r => if is_space c then lstrip r else s
  end.

Fixpoint rstrip (s : string) : string :=
  match s with
  | EmptyString => EmptyString
  | String c r =>
      match rstrip r with
      | EmptyString => if is_space c then EmptyString else String c EmptyString
      | r' => String c r'
      end
  end.

(** [str.strip()] *)
Definition strip (s : string) : string := rstrip (lstrip s).

(** [c in s] for a one-character string [c] *)
Fixpoint has_char (c : ascii) (s : string) : bool :=
  match s with
  | EmptyString => false
  | String d r => Ascii.eqb c d || has_char c r
  end.

(** [s.replace(c, empty)] for a one-character string [c] *)
Fixpoint remove_char (c : ascii) (s : string) : string :=
  match s with
  | EmptyString => EmptyString
  | String d r => if Ascii.eqb c d then remove_char c r else String d (remove_char c r)
  end.

(** [sub in s] *)
Fixpoint contains (sub s : string) : bool :=
  String.prefix sub s ||
  match s with
  | EmptyString => false
  | String _ r => contains sub r
  end.

(** [s[:n]] *)
Definition take (n : nat) (s : string) : string := String.substring 0 n s.

(** [str(i)] for a non-negative index, as an f-string prints it *)
Definition str_of_nat (i : nat) : string := NilZero.string_of_uint (Nat.to_uint i).

(** Truthiness of a float and of an int: non-zero. *)
Definition truthy_float (x : Q) : bool := negb (Qeq_bool x 0).
Definition truthy_int (n : Z) : bool := negb (n =? 0).

(** Rounding to the nearest integer, ties to even. *)
Definition round_half_even (x : Q) : Z :=
  let f := Qfloor x in
  match ((x - inject_Z f) ?= 1 # 2)%Q with
  | Lt => f
  | Gt => f + 1
  | Eq => if Z.even f then f else f + 1
  end.

(** [2 ** k] *)
Definition pow2 (k : Z) : Q := Qpower 2 k.

(** The binary exponent of [x]: the [k] with [2 ** k <= |x| < 2 ** (k + 1)]. *)
Definition ilog2 (x : Q) : Z :=
  let k := Z.log2 (Z.abs (Qnum x)) - Z.log2 (Z.pos (Qden x)) in
  if Qle_bool (pow2 k) (Qabs x) then k else k - 1.

(** The double nearest to [x], ties to the even mantissa: a mantissa of 53
    bits, the least exponent that of the subnormal numbers. The exponent has
    no upper end here: a result of magnitude [2 ** 1024] or more is where the
    code has an infinite float. *)
Definition binary64 (x : Q) : Q :=
  let e := Z.max (ilog2 x - 52) (-1074) in
  (inject_Z (round_half_even (x / pow2 e)) * pow2 e)%Q.

(** The doubles end below [2 ** 1024]. *)
Definition finite (x : Q) : bool := negb (Qle_bool (pow2 1024) (Qabs x)).

(** A run of decimal digits in which single underscores may separate digits:
    the value so far, the number of digits read, and what is left. *)
Fixpoint digitpart (s : string) (acc : Z) (cnt : nat) : Z * nat * string :=
  match s with
  | EmptyString => (acc, cnt, s)
  | String c r =>
      if is_digit c then digitpart r (10 * acc + digit_value c) (S cnt)
      else if Ascii.eqb c "_" then
        match cnt, r with
        | S _, String d _ => if is_digit d then digitpart r acc cnt else (acc, cnt, s)
        | _, _ => (acc, cnt, s)
        end
      else (acc, cnt, s)
  end.

(** An optional sign: [true] for a minus. *)
Definition sign (s : string) : bool * string :=
  match s with
  | String "-" r => (true, r)
  | String "+" r => (false, r)
  | _ => (false, s)
  end.

(** The exponent part of a float literal, [0] when there is none. The part is
    kept only when at least one digit follows the [e]. *)
Definition exponent (s : string) : Z * string :=
  match s with
  | String c r =>
      if Ascii.eqb c "e" || Ascii.eqb c "E" then
        let '(neg, r1) := sign r in
        let '(v, cnt, r2) := digitpart r1 0 0 in
        match cnt with
        | O => (0, s)
        | S _ => (if neg then - v else v, r2)
        end
      else (0, s)
  | EmptyString => (0, s)
  end.

(** [float(s)] on a decimal literal: surrounding white space, a sign, digits
    with an optional fraction and exponent; the value is the double nearest to
    the number written. The literals [inf] and [infinity] read as
    [2 ** 1024], the least magnitude beyond the doubles. Anything else raises
    ValueError; so does [nan] here, which is no number: the program only ever
    passes the float of a text that may be [nan] to [int], which raises
    ValueError on it. *)
Definition float (s : string) : result Q :=
  let '(neg, s1) := sign (strip s) in
  if String.eqb (lower s1) "inf" || String.eqb (lower s1) "infinity" then
    Ok (if neg then (- pow2 1024)%Q else pow2 1024)
  else
  let '(ip, icnt, s2) := digitpart s1 0 0 in
  let '(fp, fcnt, s3) :=
    match s2 with
    | String "." r => digitpart r 0 0
    | _ => (0, O, s2)
    end in
  let '(ex, s4) := exponent s3 in
  match (icnt + fcnt)%nat, s4 with
  | S _, EmptyString =>
      let m := ip * 10 ^ Z.of_nat fcnt + fp in
      let q := (inject_Z m * Qpower (10 # 1) (ex - Z.of_nat fcnt))%Q in
      Ok (binary64 (if neg then (- q)%Q else q))
  | _, _ => Raise ValueError
  end.

(** [int(s)] on a string: surrounding white space, a sign, decimal digits, of
    which there may be 4300 at most. *)
Definition int_of_str (s : string) : result Z :=
  let '(neg, s1) := sign (strip s) in
  match digitpart s1 0 0 with
  | (v, S n, EmptyString) =>
      if (4300 <? S n)%nat then Raise ValueError else Ok (if neg then - v else v)
  | _ => Raise ValueError
  end.

(** [int(x)]: truncation towards zero *)
Definition int (x : Q) : Z := Z.quot (Qnum x) (Z.pos (Qden x)).

(** [int(x)] on a float: an infinite one raises OverflowError. *)
Definition int_of_float (x : Q) : result Z :=
  if finite x then Ok (int x) else Raise OverflowError.

(** An int as the float that arithmetic with a float makes of it:
    OverflowError when it is beyond the doubles. *)
Definition float_of_int (n : Z) : result Q :=
  let x := binary64 (inject_Z n) in
  if finite x then Ok x else Raise OverflowError.

(** [round(x, 2)]: the exact value of [x] is rounded to the nearest hundredth,
    ties to even, and the double nearest to that decimal is returned. *)
Definition round2 (x : Q) : Q := binary64 (round_half_even (x * 100) # 100)%Q.

End Py.

(** ** Regular expressions, matched as [re] does: leftmost, greedy, backtracking *)

Module Re.

Inductive regex : Type :=
| Eps
| Cls (p : ascii -> bool)
| Seq (r1 r2 : regex)
| Opt (r : regex)
| Star (r : regex)
| Upto (n : nat) (r : regex)
| Times (n : nat) (r : regex).

Definition Plus (r : regex) : regex := Seq r (Star r).

Section Matcher.

Context {A : Type}.

(** [run r s k]: match [r] at the start of [s], hand the rest to the
    continuation [k]; the first alternative that lets [k] succeed wins. *)
Fixpoint run (r : regex) (s : string) (k : string -> option A) {struct r} : option A :=
  match r with
  | Eps => k s
  | Cls p =>
      match s with
      | String c s' => if p c then k s' else None
      | EmptyString => None
      end
  | Seq r1 r2 => run r1 s (fun s1 => run r2 s1 k)
  | Opt r1 =>
      match run r1 s k with
      | Some a => Some a
      | None => k s
      end
  | Star r1 =>
      (fix loop (fuel : nat) (s : string) {struct fuel} : option A :=
         match fuel with
         | O => k s
         | S fuel' =>
             match run r1 s (fun s1 =>
                     if (String.length s1 <? String.length s)%nat
                     then loop fuel' s1 else None) with
             | Some a => Some a
             | None => k s
             end
         end) (String.length s) s
  | Upto n r1 =>
      (fix loop (n : nat) (s : string) {struct n} : option A :=
         match n with
         | O => k s
         | S n' =>
             match run r1 s (loop n') with
             | Some a => Some a
             | None => k s
             end
         end) n s
  | Times n r1 =>
      (fix loop (n : nat) (s : string) {struct n} : option A :=
         match n with
         | O => k s
         | S n' => run r1 s (loop n')
         end) n s
  end.

End Matcher.

(** A pattern [pre(grp)]: the text of the group when the pattern matches at
    the start of [s]. *)
Definition match_here (pre grp : regex) (s : string) : option string :=
  run pre s (fun s1 =>
    run grp s1 (fun s2 =>
      Some (String.substring 0 (String.length s1 - String.length s2) s1))).

(** [re.search(pre(grp), s).group(1)], [None] when there is no match. *)
Fixpoint search (pre grp : regex) (s : string) : option string :=
  match match_here pre grp s with
  | Some g => Some g
  | None =>
      match s with
      | EmptyString => None
      | String _ s' => search pre grp s'
      end
  end.

End Re.

(** ** Helpers of the scraper *)

Definition is_digit_or_comma (c : ascii) : bool := Py.is_digit c || Ascii.eqb c ",".

(** The pattern of [parse_money]: an optional dollar sign, white space, then
    the group: digits and commas, with an optional fraction of one or two digits. *)
Definition money_prefix : Re.regex :=
  Re.Seq (Re.Opt (Re.Cls (Ascii.eqb "$"))) (Re.Star (Re.Cls Py.is_space)).

Definition money_group : Re.regex :=
  Re.Seq (Re.Plus (Re.Cls is_digit_or_comma))
         (Re.Opt (Re.Seq (Re.Cls (Ascii.eqb "."))
                         (Re.Seq (Re.Cls Py.is_digit) (Re.Upto 1 (Re.Cls Py.is_digit))))).

(** The pattern of [parse_points], one group: one to three digits, then any
    number of blocks of a comma and three digits. *)
Definition points_group : Re.regex :=
  Re.Seq (Re.Seq (Re.Cls Py.is_digit) (Re.Upto 2 (Re.Cls Py.is_digit)))
         (Re.Star (Re.Seq (Re.Cls (Ascii.eqb ",")) (Re.Times 3 (Re.Cls Py.is_digit)))).

Definition parse_money (text : option string) : result Q :=
  match text with
  | None => Ok 0%Q
  | Some EmptyString => Ok 0%Q
  | Some t =>
      match Re.search money_prefix money_group t with
      | Some g => Py.float (Py.remove_char "," g)
      | None => Ok 0%Q
      end
  end.

Definition parse_points (text : option string) : result Z :=
  match text with
  | None => Ok 0
  | Some EmptyString => Ok 0
  | Some t =>
      let t := Py.lower (Py.strip t) in
      if Py.has_char "k" t then
        x <- Py.float (Py.remove_char "," (Py.remove_char "k" t)) ;;
        Py.int_of_float (Py.binary64 (x * 1000))
      else
        match Re.search Re.Eps points_group t with
        | Some g => Py.int_of_str (Py.remove_char "," g)
        | None => Ok 0
        end
  end.

(** [((cash - taxes) / points) * 100] as the code computes it, each operation
    giving the double nearest to its exact result. *)
Definition ratio (cash : Q) (points : Z) (taxes : Q) : Q :=
  Py.binary64
    (Py.binary64 (Py.binary64 (cash - taxes) / Py.binary64 (inject_Z points)) * 100).

(** The value that [calculate_cpp] returns. *)
Definition calculate_cpp (cash : Q) (points : Z) (taxes : Q) : Q :=
  if 0 <? points then Py.round2 (ratio cash points taxes) else 0%Q.

(** The call of [calculate_cpp]: dividing a float by [points] makes a float of
    it, which raises OverflowError for an int beyond the doubles. *)
Definition calculate_cpp_call (cash : Q) (points : Z) (taxes : Q) : result Q :=
  if 0 <? points then
    _ <- Py.float_of_int points ;;
    Ok (calculate_cpp cash points taxes)
  else Ok (calculate_cpp cash points taxes).


(** ** Configuration and records *)

Record ScraperConfig : Type := {
  default_taxes : Q;
  max_retries : Z;
  requests_per_hour : Z
}.

Definition default_config : ScraperConfig :=
  {| default_taxes := Py.binary64 (56 # 10); max_retries := 5; requests_per_hour := 8 |}.

Record FlightData : Type := {
  flight_number : string;
  departure_time : string;
  arrival_time : string;
  points_required : Z;
  cash_price_usd : Q;
  taxes_fees_usd : Q;
  cpp : Q;
  raw_text : string
}.

(** ** The rate limiter of BrowserManager *)

Record BrowserManager : Type := {
  request_count : Z;
  last_request_time : Q;
  driver : bool          (* whether [self.driver] holds a browser *)
}.

(** [BrowserManager.__init__], at clock reading [now], before [create_driver]. *)
Definition new_browser (now : Q) : BrowserManager :=
  {| request_count := 0; last_request_time := now; driver := false |}.

Definition Qltb (x y : Q) : bool := negb (Qle_bool y x).

(** [time.sleep(secs)] refuses a negative length. *)
Definition time_sleep (secs : Q) : result Q :=
  if Qltb secs 0 then Raise ValueError else Ok secs.

(** [rate_limit] at clock reading [now]: the manager as the call leaves it, and
    the time slept, or the exception that left the call. *)
Definition rate_limit (config : ScraperConfig) (now : Q) (self : BrowserManager)
  : BrowserManager * result Q :=
  let count := request_count self + 1 in
  let counted := {| request_count := count;
                    last_request_time := last_request_time self;
                    driver := driver self |} in
  if requests_per_hour config <? count then
    let elapsed := (now - last_request_time self)%Q in
    let slept :=
      if Qltb elapsed 3600 then
        let divisor := requests_per_hour config - count + 1 in
        if divisor =? 0 then Raise ZeroDivisionError
        else time_sleep ((3600 - elapsed) / inject_Z divisor)%Q
      else Ok 0%Q in
    match slept with
    | Raise e => (counted, Raise e)
    | Ok secs =>
        ({| request_count := 1; last_request_time := now; driver := driver self |}, Ok secs)
    end
  else
    ({| request_count := count; last_request_time := now; driver := driver self |}, Ok 0%Q).

(** A caller that calls [rate_limit] once per clock reading, going on after an
    exception: the times at which the calls that returned did so. *)
Fixpoint admissions (config : ScraperConfig) (self : BrowserManager) (clock : list Q)
  : list Q :=
  match clock with
  | [] => []
  | now :: rest =>
      match rate_limit config now self with
      | (self', Ok secs) => (now + secs)%Q :: admissions config self' rest
      | (self', Raise _) => admissions config self' rest
      end
  end.

(** The admissions that fall in the window [t, t + 3600). *)
Definition in_window (t a : Q) : bool := Qle_bool t a && Qltb a (t + 3600).

Definition window_count (t : Q) (adm : list Q) : nat :=
  List.length (filter (in_window t) adm).

(** The same for the closed window [t, t + 3600]. *)
Definition in_closed_window (t a : Q) : bool := Qle_bool t a && Qle_bool a (t + 3600).

Definition closed_window_count (t : Q) (adm : list Q) : nat :=
  List.length (filter (in_closed_window t) adm).

Fixpoint increasing (prev : Q) (clock : list Q) : Prop :=
  match clock with
  | [] => True
  | now :: rest => (prev < now)%Q /\ increasing now rest
  end.

Fixpoint nondecreasing (prev : Q) (clock : list Q) : Prop :=
  match clock with
  | [] => True
  | now :: rest => (prev <= now)%Q /\ nondecreasing now rest
  end.

(** ** The extractor *)

(** A fare card as the selectors see it: for each selector the stripped text of
    the element it finds, [None] when [select_one] finds nothing. *)
Record button : Type := {
  date_elem : option string;
  points_elem : option string;
  cash_elem : option string;
  dep_elem : option string;
  arr_elem : option string;
  fn_elem : option string;
  button_text : string
}.

Definition text_or (default : string) (elem : option string) : string :=
  match elem with
  | Some t => t
  | None => default
  end.

(** The body of the loop over the flight buttons, for the button numbered [i]:
    [Ok None] when the button adds no flight. *)
Definition scrape_button (config : ScraperConfig) (i : nat) (b : button)
  : result (option FlightData) :=
  match date_elem b with
  | None => Ok None
  | Some _ =>
      let departure := text_or EmptyString (dep_elem b) in
      let arrival := text_or EmptyString (arr_elem b) in
      let number := text_or (String.append "AA_" (Py.str_of_nat i)) (fn_elem b) in
      points <- parse_points (Some (text_or EmptyString (points_elem b))) ;;
      cash <- parse_money (Some (text_or EmptyString (cash_elem b))) ;;
      ratio <- calculate_cpp_call cash points (default_taxes config) ;;
      if Py.truthy_float cash || Py.truthy_int points then
        Ok (Some {| flight_number := number;
                    departure_time := departure;
                    arrival_time := arrival;
                    points_required := points;
                    cash_price_usd := cash;
                    taxes_fees_usd := default_taxes config;
                    cpp := ratio;
                    raw_text := Py.take 200 (button_text b) |})
      else Ok None
  end.

(** [for i, button in enumerate(flight_buttons, i)], an exception of the body
    skipping the button. *)
Fixpoint scrape_buttons (config : ScraperConfig) (i : nat) (buttons : list button)
  (flights : list FlightData) : list FlightData :=
  match buttons with
  | [] => flights
  | b :: rest =>
      match scrape_button config i b with
      | Ok (Some f) => scrape_buttons config (S i) rest (flights ++ [f])
      | Ok None => scrape_buttons config (S i) rest flights
      | Raise _ => scrape_buttons config (S i) rest flights
      end
  end.

Definition extract (config : ScraperConfig) (buttons : list button) : list FlightData :=
  scrape_buttons config 1 buttons [].

(** What the browser shows after [driver.get]. *)
Record page : Type := {
  wait_ok : bool;                 (* the flight buttons appeared before the timeout *)
  page_source : string;
  flight_buttons : list button    (* [soup.select] on the page source *)
}.

Definition blocked (p : page) : bool :=
  let page_text := Py.lower (page_source p) in
  Py.contains "access denied" page_text || Py.contains "blocked" page_text.

Definition scrape_page (config : ScraperConfig) (p : page) : list FlightData :=
  if negb (wait_ok p) then []
  else if blocked p then []
  else extract config (flight_buttons p).

(** One call of [scrape_choose_flights]: the clock reading of its
    [rate_limit], and what the browser does. *)
Inductive navigation : Type :=
| NavRaises (e : exn)     (* a browser or file call raises [e] *)
| Loaded (p : page).

Record attempt_env : Type := {
  clock : Q;
  nav : navigation
}.

Definition scrape_choose_flights (config : ScraperConfig) (browser : BrowserManager)
  (env : attempt_env) : BrowserManager * result (list FlightData) :=
  match rate_limit config (clock env) browser with
  | (browser', Raise e) => (browser', Raise e)
  | (browser', Ok _) =>
      if negb (driver browser') then (browser', Raise AttributeError)
      else
        match nav env with
        | NavRaises e => (browser', Raise e)
        | Loaded p => (browser', Ok (scrape_page config p))
        end
  end.

(** ** Deduplication and the best value *)

Definition key : Type := Z * Q * string.

Definition flight_key (f : FlightData) : key :=
  (points_required f, cash_price_usd f, departure_time f).

Definition key_eqb (a b : key) : bool :=
  let '(p1, c1, d1) := a in
  let '(p2, c2, d2) := b in
  (p1 =? p2) && Qeq_bool c1 c2 && String.eqb d1 d2.

Definition seen_has (seen : list key) (k : key) : bool := existsb (key_eqb k) seen.

Fixpoint dedupe_loop (flights : list FlightData) (seen : list key)
  (unique_flights : list FlightData) : list FlightData :=
  match flights with
  | [] => unique_flights
  | flight :: rest =>
      let k := flight_key flight in
      if seen_has seen k then dedupe_loop rest seen unique_flights
      else dedupe_loop rest (k :: seen) (unique_flights ++ [flight])
  end.

Definition dedupe (flights : list FlightData) : list FlightData :=
  dedupe_loop flights [] [].

Definition valid_flights (unique_flights : list FlightData) : list FlightData :=
  filter (fun f => Qltb 0 (cpp f)) unique_flights.

(** [max(valid_flights, key=lambda x: x.cpp)]: the first flight of greatest
    ratio, [None] when no flight is valid. *)
Definition best_value (unique_flights : list FlightData) : option FlightData :=
  match valid_flights unique_flights with
  | [] => None
  | f :: rest =>
      Some (fold_left (fun best x => if Qltb (cpp best) (cpp x) then x else best) rest f)
  end.

(** ** The retry loop of main *)

Inductive outcome : Type :=
| SUCCESS (flights : list FlightData)
| EXHAUSTED
| FATAL (e : exn).

Record run : Type := {
  final : outcome;
  attempts : nat;                              (* the attempt index reached *)
  history : list (result (list FlightData));   (* what each call of
                                                  [scrape_choose_flights] gave, latest first *)
  backoff : list Z                             (* the retry delays slept, latest first *)
}.

(** What the world does around attempt [k]: the call itself and, should the
    browser be replaced after it, the clock at its creation and whether
    [create_driver] gives a driver. *)
Record attempt_world : Type := {
  fetch : attempt_env;
  created_at : Q;
  driver_created : bool
}.

Definition caught (e : exn) : bool :=
  match e with
  | TimeoutException | WebDriverException => true
  | _ => false
  end.

Definition nonempty {A : Type} (l : list A) : bool :=
  match l with
  | [] => false
  | _ :: _ => true
  end.

Definition retry_delay (attempt : nat) : Z := 2 ^ Z.of_nat attempt * 5.

(** [for attempt in range(max_retries)] with [todo] iterations left, the
    [else] of the loop when none is. *)
Fixpoint retry_loop (config : ScraperConfig) (world : nat -> attempt_world)
  (todo attempt : nat) (browser : BrowserManager) (flights : list FlightData)
  (log : list (result (list FlightData))) (slept : list Z) : run :=
  match todo with
  | O =>
      {| final := if nonempty flights then SUCCESS flights else EXHAUSTED;
         attempts := attempt; history := log; backoff := slept |}
  | S todo' =>
      let w := world attempt in
      let more := Z.of_nat attempt <? max_retries config - 1 in
      match scrape_choose_flights config browser (fetch w) with
      | (browser1, Ok flights1) =>
          let log1 := Ok flights1 :: log in
          if nonempty flights1 then
            {| final := SUCCESS flights1; attempts := S attempt;
               history := log1; backoff := slept |}
          else if more then
            let browser2 :=
              {| request_count := 0; last_request_time := created_at w;
                 driver := driver_created w |} in
            if driver_created w then
              retry_loop config world todo' (S attempt) browser2 flights1 log1
                (retry_delay attempt :: slept)
            else
              retry_loop config world todo' (S attempt) browser2 flights1 log1 slept
          else retry_loop config world todo' (S attempt) browser1 flights1 log1 slept
      | (browser1, Raise e) =>
          let log1 := Raise e :: log in
          if caught e then
            retry_loop config world todo' (S attempt) browser1 flights log1
              (if more then retry_delay attempt :: slept else slept)
          else
            {| final := FATAL e; attempts := S attempt;
               history := log1; backoff := slept |}
      end
  end.

(** The loop as [main] enters it, with the browser its [create_driver] made
    at clock reading [t0]. *)
Definition main_loop (config : ScraperConfig) (world : nat -> attempt_world) (t0 : Q) : run :=
  retry_loop config world (Z.to_nat (max_retries config)) 0
    {| request_count := 0; last_request_time := t0; driver := true |} [] [] [].





(** An attempt that neither succeeds nor ends the run: no flights, or an
    exception the loop catches. *)
Definition non_success (r : result (list FlightData)) : bool :=
  match r with
  | Ok flights => negb (nonempty flights)
  | Raise e => caught e
  end.

(** The flights [main] writes to the result file. *)
Definition persisted (r : run) : list FlightData :=
  match final r with
  | SUCCESS flights => dedupe flights
  | _ => []
  end.

Definition same_key (f g : FlightData) : bool := key_eqb (flight_key f) (flight_key g).

(** Deduplication in the words of the specification: in input order, a record
    is kept exactly when no record before it in the input has its key. *)
Fixpoint first_of_each_key (earlier flights : list FlightData) : list FlightData :=
  match flights with
  | [] => []
  | f :: rest =>
      if existsb (same_key f) earlier then first_of_each_key (f :: earlier) rest
      else f :: first_of_each_key (f :: earlier) rest
  end.

(** The loop of [dedupe], without the accumulator. *)
Fixpoint dedupe_from (seen : list key) (flights : list FlightData) : list FlightData :=
  match flights with
  | [] => []
  | flight :: rest =>
      if seen_has seen (flight_key flight) then dedupe_from seen rest
      else flight :: dedupe_from (flight_key flight :: seen) rest
  end.

(** Every character of [s] is in the class [P]. *)
Fixpoint all_chars (P : ascii -> bool) (s : string) : bool :=
  match s with
  | EmptyString => true
  | String c r => P c && all_chars P r
  end.

(** The characters outside the class [p]. *)
Definition not_in (p : ascii -> bool) (c : ascii) : bool := negb (p c).

(** Every character class of the pattern [r] lies within [P]. *)
Fixpoint classes_in (P : ascii -> bool) (r : Re.regex) : Prop :=
  match r with
  | Re.Eps => True
  | Re.Cls p => forall c, p c = true -> P c = true
  | Re.Seq r1 r2 => classes_in P r1 /\ classes_in P r2
  | Re.Opt r1 | Re.Star r1 | Re.Upto _ r1 | Re.Times _ r1 => classes_in P r1
  end.

Definition money_char (c : ascii) : bool := is_digit_or_comma c || Ascii.eqb c ".".

(** The flights that the button numbered [i] adds: one or none. *)
Definition emitted (config : ScraperConfig) (i : nat) (b : button) : list FlightData :=
  match scrape_button config i b with
  | Ok (Some f) => [f]
  | _ => []
  end.

(** Sample fare cards. *)
Definition card (points cash number : option string) : button :=
  {| date_elem := Some "Mon, Dec 15"%string;
     points_elem := points;
     cash_elem := cash;
     dep_elem := Some "08:00"%string;
     arr_elem := Some "16:30"%string;
     fn_elem := number;
     button_text := "Mon, Dec 15"%string |}.

Definition no_date_node : button :=
  {| date_elem := None; points_elem := None; cash_elem := None;
     dep_elem := None; arr_elem := None; fn_elem := None;
     button_text := "Next week"%string |}.

(** Sample pages and a sample world: attempt [k] is made at time 100 k on the
    [k]-th page of [navs], and the browser made after it has a driver when the
    [k]-th entry of [drivers] says so. *)
Definition fares_page (buttons : list button) : page :=
  {| wait_ok := true; page_source := "<html><body>Choose flights</body></html>"%string;
     flight_buttons := buttons |}.

Definition denied_page (buttons : list button) : page :=
  {| wait_ok := true; page_source := "<html><h1>Access Denied</h1></html>"%string;
     flight_buttons := buttons |}.

Definition sample_world (navs : list navigation) (drivers : list bool)
  : nat -> attempt_world :=
  fun k =>
    {| fetch := {| clock := inject_Z (100 * Z.of_nat k);
                   nav := nth k navs (NavRaises TimeoutException) |};
       created_at := inject_Z (100 * Z.of_nat k + 50);
       driver_created := nth k drivers true |}.

Definition scenario_buttons : list button :=
  [ card (Some "40,000"%string) (Some "$200"%string) None;
    card None None None;
    card (Some "40k"%string) (Some "$200.00"%string) (Some "AA 117"%string) ].

(** The manager after one call of [rate_limit] per clock reading. *)
Fixpoint calls (config : ScraperConfig) (self : BrowserManager) (clock : list Q)
  : BrowserManager :=
  match clock with
  | [] => self
  | now :: rest => calls config (fst (rate_limit config now self)) rest
  end.

(** The fare cards of a document with their numbers, from [i] on. *)
Definition numbered (i : nat) (buttons : list button) : list (nat * button) :=
  combine (seq i (List.length buttons)) buttons.

Definition has_date (b : button) : bool :=
  match date_elem b with
  | Some _ => true
  | None => false
  end.

(** The sum of a list of delays. *)
Definition total (delays : list Z) : Z := fold_right Z.add 0 delays.

(** ** Browser sessions: create_driver and quit *)

(** The machine a session runs on: the temporary directories that exist, the
    browsers that run, and the next unused identifier, for [tempfile.mkdtemp]
    and for [uc.Chrome]. *)
Record Machine : Type := {
  temp_dirs : list nat;
  browsers : list nat;
  fresh : nat
}.

(** The fields of BrowserManager that [create_driver] and [quit] use. *)
Record Session : Type := {
  use_proxy : bool;
  temp_dir : option nat;
  has_extension : bool;          (* [self.ext_path] names a file written *)
  session_driver : option nat
}.

(** The fields as [BrowserManager.__init__] sets them. *)
Definition new_session : Session :=
  {| use_proxy := true; temp_dir := None; has_extension := false;
     session_driver := None |}.

(** What one launch meets: whether the proxy extension gets written, whether
    [uc.Chrome] starts, and whether the calls on the new driver that follow
    (the page-load timeout, the version read) go through. *)
Record launch : Type := {
  zip_ok : bool;
  chrome_ok : bool;
  setup_ok : bool
}.

(** Whether [driver.quit()] and [shutil.rmtree] go through, by identifier;
    [quit] catches and logs their exceptions. *)
Record releases : Type := {
  quit_ok : nat -> bool;
  rmtree_ok : nat -> bool
}.

(** The launch brings up a browser and the calls on it go through. *)
Definition launch_succeeds (launches : nat -> launch) (n : nat) : bool :=
  chrome_ok (launches n) && setup_ok (launches n).

Definition mem (i : nat) (l : list nat) : bool := existsb (Nat.eqb i) l.

Definition quit (rel : releases) (m : Machine) (s : Session) : Machine :=
  let m1 :=
    match session_driver s with
    | Some d =>
        if quit_ok rel d
        then {| temp_dirs := temp_dirs m; browsers := remove Nat.eq_dec d (browsers m);
                fresh := fresh m |}
        else m
    | None => m
    end in
  match temp_dir s with
  | Some t =>
      if mem t (temp_dirs m1) && rmtree_ok rel t
      then {| temp_dirs := remove Nat.eq_dec t (temp_dirs m1); browsers := browsers m1;
              fresh := fresh m1 |}
      else m1
  | None => m1
  end.

(** [create_driver(retry_count)], the [n]-th launch on being the next; [None]
    when [fuel] calls do not suffice. The result is the machine, the session,
    the number of the next launch and the driver returned. *)
Fixpoint create_driver_fuel (fuel : nat) (rel : releases) (launches : nat -> launch)
  (retry_count : nat) (m : Machine) (s : Session) (n : nat)
  : option (Machine * Session * nat * option nat) :=
  match fuel with
  | O => None
  | S fuel' =>
      let s1 :=
        if (2 <=? retry_count)%nat
        then {| use_proxy := false; temp_dir := temp_dir s;
                has_extension := has_extension s; session_driver := session_driver s |}
        else s in
      let '(m2, s2) :=
        if use_proxy s1 then
          let t := fresh m in
          let m' := {| temp_dirs := t :: temp_dirs m; browsers := browsers m;
                       fresh := S t |} in
          if zip_ok (launches n)
          then (m', {| use_proxy := true; temp_dir := Some t; has_extension := true;
                       session_driver := session_driver s1 |})
          else (m', {| use_proxy := false; temp_dir := Some t; has_extension := false;
                       session_driver := session_driver s1 |})
        else (m, s1) in
      let failed (m3 : Machine) (s3 : Session) :=
        if use_proxy s3 && (retry_count <? 2)%nat
        then create_driver_fuel fuel' rel launches (S retry_count) (quit rel m3 s3) s3 (S n)
        else Some (m3, s3, S n, None) in
      if chrome_ok (launches n) then
        let d := fresh m2 in
        let m3 := {| temp_dirs := temp_dirs m2; browsers := d :: browsers m2;
                     fresh := S d |} in
        let s3 := {| use_proxy := use_proxy s2; temp_dir := temp_dir s2;
                     has_extension := has_extension s2; session_driver := Some d |} in
        if setup_ok (launches n) then Some (m3, s3, S n, Some d)
        else failed m3 s3
      else failed m2 s2
  end.

(** Three calls always suffice ([create_driver_enough_fuel]). *)
Definition create_driver (rel : releases) (launches : nat -> launch)
  (retry_count : nat) (m : Machine) (s : Session) (n : nat)
  : Machine * Session * nat * option nat :=
  match create_driver_fuel 3 rel launches retry_count m s n with
  | Some r => r
  | None => (m, s, n, None)
  end.

Definition is_some {A : Type} (o : option A) : bool :=
  match o with
  | Some _ => true
  | None => false
  end.

(** How [main] ends: without a browser, or as its retry loop does. *)
Inductive ending : Type :=
| NoBrowser
| Ended (o : outcome).

(** The retry loop of [main] with its sessions: as [retry_loop], and with the
    machine, the session of the current browser and the number of the next
    launch. *)
Fixpoint session_loop (config : ScraperConfig) (world : nat -> attempt_world)
  (rel : releases) (launches : nat -> launch)
  (todo attempt : nat) (browser : BrowserManager) (s : Session) (m : Machine)
  (n : nat) (flights : list FlightData) : Machine * Session * outcome * nat :=
  match todo with
  | O => (m, s, if nonempty flights then SUCCESS flights else EXHAUSTED, attempt)
  | S todo' =>
      let w := world attempt in
      let more := Z.of_nat attempt <? max_retries config - 1 in
      match scrape_choose_flights config browser (fetch w) with
      | (browser1, Ok flights1) =>
          if nonempty flights1 then (m, s, SUCCESS flights1, S attempt)
          else if more then
            let m1 := quit rel m s in
            let '(m2, s2, n2, _) := create_driver rel launches attempt m1 new_session n in
            let browser2 :=
              {| request_count := 0; last_request_time := created_at w;
                 driver := is_some (session_driver s2) |} in
            session_loop config world rel launches todo' (S attempt) browser2 s2 m2 n2
              flights1
          else
            session_loop config world rel launches todo' (S attempt) browser1 s m n
              flights1
      | (browser1, Raise e) =>
          if caught e then
            session_loop config world rel launches todo' (S attempt) browser1 s m n flights
          else (m, s, FATAL e, S attempt)
      end
  end.

(** [main] from its first [create_driver] to the [quit] of its [finally]: the
    machine it leaves and how it ended. *)
Definition main_sessions (config : ScraperConfig) (world : nat -> attempt_world)
  (rel : releases) (launches : nat -> launch) (t0 : Q) (m : Machine)
  : Machine * ending :=
  let '(m1, s1, n1, r) := create_driver rel launches 0 m new_session 0 in
  match r with
  | None => (quit rel m1 s1, NoBrowser)
  | Some _ =>
      let '(m2, s2, o, _) :=
        session_loop config world rel launches (Z.to_nat (max_retries config)) 0
          {| request_count := 0; last_request_time := t0; driver := true |}
          s1 m1 n1 [] in
      (quit rel m2 s2, Ended o)
  end.

(** Every identifier of the machine is below the next unused one. *)
Definition well_formed (m : Machine) : Prop :=
  Forall (fun i => (i < fresh m)%nat) (temp_dirs m) /\
  Forall (fun i => (i < fresh m)%nat) (browsers m).

(** The session owns at most one directory and one browser beyond those of
    the machine [m0] it started on, and they are the ones it names. *)
Definition owns (m0 m : Machine) (s : Session) : Prop :=
  (fresh m0 <= fresh m)%nat /\
  (temp_dirs m = temp_dirs m0 \/
   exists t, temp_dir s = Some t /\ temp_dirs m = t :: temp_dirs m0) /\
  (browsers m = browsers m0 \/
   exists d, session_driver s = Some d /\ browsers m = d :: browsers m0) /\
  (forall t, temp_dir s = Some t -> (fresh m0 <= t < fresh m)%nat) /\
  (forall d, session_driver s = Some d -> (fresh m0 <= d < fresh m)%nat).

(** A session that holds nothing of its own on a machine that holds nothing
    of its: the state before [create_driver] and after [quit]. *)
Definition clean (m0 m : Machine) (s : Session) : Prop :=
  temp_dirs m = temp_dirs m0 /\ browsers m = browsers m0 /\
  (fresh m0 <= fresh m)%nat /\
  (forall t, temp_dir s = Some t -> (fresh m0 <= t < fresh m)%nat) /\
  (forall d, session_driver s = Some d -> (fresh m0 <= d < fresh m)%nat).

Definition all_released (rel : releases) : Prop :=
  forall i, quit_ok rel i = true /\ rmtree_ok rel i = true.

(** ** Grouped numbers *)

(** The number a text of digits writes. *)
Fixpoint decimal_from (acc : Z) (s : string) : Z :=
  match s with
  | EmptyString => acc
  | String c r => decimal_from (10 * acc + Py.digit_value c) r
  end.

Definition decimal (s : string) : Z := decimal_from 0 s.

(** A block of a grouped number is a comma and three digits. *)
Definition three_digits (b : string) : bool :=
  (String.length b =? 3)%nat && all_chars Py.is_digit b.

Fixpoint blocks_text (blocks : list string) : string :=
  match blocks with
  | [] => EmptyString
  | b :: rest => String "," (b ++ blocks_text rest)
  end.

Fixpoint blocks_digits (blocks : list string) : string :=
  match blocks with
  | [] => EmptyString
  | b :: rest => (b ++ blocks_digits rest)%string
  end.

Definition starts_digit (s : string) : bool :=
  match s with
  | String c _ => Py.is_digit c
  | EmptyString => false
  end.

Definition starts_block (s : string) : bool :=
  match s with
  | String c0 (String c1 (String c2 (String c3 _))) =>
      Ascii.eqb c0 "," && Py.is_digit c1 && Py.is_digit c2 && Py.is_digit c3
  | _ => false
  end.

(** The fraction of a price: a point and the digits [f], or nothing. *)
Definition fraction_text (f : string) : string :=
  match f with
  | EmptyString => EmptyString
  | _ => String "." f
  end.

(** The price that the digits [digits] and the fraction digits [f] write. *)
Definition price_value (digits f : string) : Q :=
  (inject_Z (decimal digits)
   + inject_Z (decimal f) / inject_Z (10 ^ Z.of_nat (String.length f)))%Q.

Definition starts_with (p : ascii -> bool) (s : string) : bool :=
  match s with
  | String c _ => p c
  | EmptyString => false
  end.

Definition starts_fraction (s : string) : bool :=
  match s with
  | String c (String d _) => Ascii.eqb c "." && Py.is_digit d
  | _ => false
  end.

(** The number of a price with the fraction digits [f] ends before [rest]:
    nothing of [rest] could still belong to it. *)
Definition price_ends (f rest : string) : bool :=
  match String.length f with
  | O => negb (starts_with is_digit_or_comma rest) && negb (starts_fraction rest)
  | 1%nat => negb (starts_digit rest)
  | _ => true
  end.

(** ** Pauses: rand_sleep, human_typing and simulate_human_behavior *)

(** The pacing fields of [ScraperConfig]. *)
Record Pacing : Type := {
  min_sleep : Q;
  max_sleep : Q;
  typing_min : Q;
  typing_max : Q
}.

Definition default_pacing : Pacing :=
  {| min_sleep := 15 # 10; max_sleep := 7; typing_min := 5 # 100; typing_max := 2 # 10 |}.

(** [random.uniform(a, b)], which is [a + (b - a) * random()]; [u] is the draw
    of [random()]. *)
Definition uniform (a b u : Q) : Q := (a + (b - a) * u)%Q.

(** [a or d] for an optional float: [None] and zero are falsy. *)
Definition or_default (a : option Q) (d : Q) : Q :=
  match a with
  | Some x => if Py.truthy_float x then x else d
  | None => d
  end.

(** [rand_sleep(a, b, config)] with the draw [u]: the seconds slept. *)
Definition rand_sleep (a b : option Q) (config : option Pacing) (u : Q) : result Q :=
  let a' := or_default a (match config with Some c => min_sleep c | None => 15 # 10 end) in
  let b' := or_default b (match config with Some c => max_sleep c | None => 7 end) in
  time_sleep (uniform a' b' u).

(** [human_typing(element, text, config)]: the keys the element has received,
    the seconds slept, and how the call ended. The [k]-th [send_keys] returns
    when [keys_ok k]; [draws k] is the [k]-th draw of [random()]. *)
Fixpoint human_typing (config : Pacing) (keys_ok : nat -> bool) (draws : nat -> Q)
  (k : nat) (element text : string) (slept : Q) : string * Q * result unit :=
  match text with
  | EmptyString => (element, slept, Ok tt)
  | String char rest =>
      if keys_ok k then
        match time_sleep (uniform (typing_min config) (typing_max config) (draws k)) with
        | Ok t =>
            human_typing config keys_ok draws (S k)
              (element ++ String char EmptyString)%string rest (slept + t)%Q
        | Raise e => ((element ++ String char EmptyString)%string, slept, Raise e)
        end
      else (element, slept, Raise WebDriverException)
  end.

(** What [simulate_human_behavior] does to the browser, in order. *)
Inductive action : Type :=
| ScrollBy (dy : Z)
| Sleep (t : Q)
| MoveTo (element : nat)
| Click (element : nat).

(** What one call of [simulate_human_behavior] draws and meets. *)
Record gesture : Type := {
  scroll_y : Z;                      (* [random.randint(100, 700)] *)
  scroll_down_ok : bool;             (* the first [execute_script] returns *)
  scroll_up_ok : bool;               (* the second one returns *)
  elements : option (list nat);      (* [find_elements], [None] when it raises *)
  choice : nat;                      (* the index [random.choice] draws *)
  move_ok : bool;                    (* [move_to_element(target).perform()] returns *)
  click_draw : Q;                    (* [random.random()] *)
  click_ok : bool                    (* [click().perform()] returns *)
}.

(** [simulate_human_behavior]: the actions done, and the number of the next
    draw. An exception ends the call, which swallows it. *)
Definition simulate_human_behavior (driver : bool) (config : Pacing) (g : gesture)
  (draws : nat -> Q) (k : nat) : list action * nat :=
  if negb driver then ([], k)
  else if negb (scroll_down_ok g) then ([], k)
  else
    let acts1 := [ScrollBy (scroll_y g)] in
    match rand_sleep (Some (7 # 10)) (Some 2%Q) (Some config) (draws k) with
    | Raise _ => (acts1, S k)
    | Ok t1 =>
        let acts2 := (acts1 ++ [Sleep t1])%list in
        if negb (scroll_up_ok g) then (acts2, S k)
        else
          let acts3 := (acts2 ++ [ScrollBy (- (scroll_y g / 2))])%list in
          match rand_sleep (Some (5 # 10)) (Some (15 # 10)) (Some config) (draws (S k)) with
          | Raise _ => (acts3, S (S k))
          | Ok t2 =>
              let acts4 := (acts3 ++ [Sleep t2])%list in
              match elements g with
              | None => (acts4, S (S k))
              | Some found =>
                  match firstn 15 found with
                  | [] => (acts4, S (S k))
                  | (e :: _) as some =>
                      let target := nth (choice g mod List.length some) some e in
                      if negb (move_ok g) then (acts4, S (S k))
                      else
                        let acts5 := (acts4 ++ [MoveTo target])%list in
                        let pause (acts : list action) :=
                          match rand_sleep (Some (3 # 10)) (Some (12 # 10)) (Some config)
                                  (draws (S (S k))) with
                          | Raise _ => (acts, S (S (S k)))
                          | Ok t3 => ((acts ++ [Sleep t3])%list, S (S (S k)))
                          end in
                        if Qltb (6 # 10) (click_draw g) then
                          if click_ok g then pause (acts5 ++ [Click target])%list
                          else (acts5, S (S k))
                        else pause acts5
                  end
              end
          end
    end.

(** The seconds the actions sleep, and the pixels they scroll down. *)
Fixpoint slept_in (acts : list action) : Q :=
  match acts with
  | [] => 0%Q
  | Sleep t :: rest => (t + slept_in rest)%Q
  | _ :: rest => slept_in rest
  end.

Fixpoint scrolled (acts : list action) : Z :=
  match acts with
  | [] => 0
  | ScrollBy dy :: rest => dy + scrolled rest
  | _ :: rest => scrolled rest
  end.

(** The loop over the flight buttons with its pause after each record: as
    [scrape_buttons], and with the seconds slept. *)
Fixpoint scrape_buttons_paced (config : ScraperConfig) (pacing : Pacing)
  (draws : nat -> Q) (k i : nat) (buttons : list button) (flights : list FlightData)
  (slept : Q) : list FlightData * Q :=
  match buttons with
  | [] => (flights, slept)
  | b :: rest =>
      match scrape_button config i b with
      | Ok (Some f) =>
          match rand_sleep (Some (7 # 10)) (Some 2%Q) (Some pacing) (draws k) with
          | Ok t =>
              scrape_buttons_paced config pacing draws (S k) (S i) rest
                (flights ++ [f])%list (slept + t)%Q
          | Raise _ =>
              scrape_buttons_paced config pacing draws (S k) (S i) rest
                (flights ++ [f])%list slept
          end
      | Ok None => scrape_buttons_paced config pacing draws k (S i) rest flights slept
      | Raise _ => scrape_buttons_paced config pacing draws k (S i) rest flights slept
      end
  end.

(** [scrape_choose_flights] on a loaded page, from the wait for the flight
    buttons on, with its pauses: the seconds slept and the flights. *)
Definition scrape_page_paced (config : ScraperConfig) (pacing : Pacing) (p : page)
  (g : gesture) (draws : nat -> Q) : Q * result (list FlightData) :=
  if negb (wait_ok p) then (0%Q, Ok [])
  else
    match rand_sleep (Some 3%Q) (Some 8%Q) (Some pacing) (draws 0%nat) with
    | Raise e => (0%Q, Raise e)
    | Ok t0 =>
        let '(acts, k) := simulate_human_behavior true pacing g draws 1 in
        let slept := (t0 + slept_in acts)%Q in
        if blocked p then (slept, Ok [])
        else
          let '(flights, slept') :=
            scrape_buttons_paced config pacing draws k 1 (flight_buttons p) [] slept in
          (slept', Ok flights)
    end.

(** Draws of [random()] lie between 0 and 1. *)
Definition unit_draws (draws : nat -> Q) : Prop :=
  forall k, (0 <= draws k <= 1)%Q.

(** A sample of draws and of what a gesture meets. *)
Definition half_draws : nat -> Q := fun _ => 1 # 2.

Definition sample_gesture : gesture :=
  {| scroll_y := 301; scroll_down_ok := true; scroll_up_ok := true;
     elements := Some (seq 0 40); choice := 22; move_ok := true;
     click_draw := 7 # 10; click_ok := true |}.

(** Sample sessions: releases that always go through, a machine that holds a
    directory and a browser of others, and launches that fail until the
    [k]-th. *)
Definition releases_ok : releases :=
  {| quit_ok := fun _ => true; rmtree_ok := fun _ => true |}.

Definition busy_machine : Machine :=
  {| temp_dirs := [0%nat]; browsers := [1%nat]; fresh := 2%nat |}.

Definition launches_until (k : nat) : nat -> launch :=
  fun n => {| zip_ok := true; chrome_ok := true; setup_ok := (k <=? n)%nat |}.

(** ** Notions the proofs use *)

(** The exponent of the last place of [x]. *)
Definition ulp_exp (x : Q) : Z := Z.max (Py.ilog2 x - 52) (-1074).

(** The set of seen keys stands for the records met so far. *)
Definition stands_for (seen : list key) (earlier : list FlightData) : Prop :=
  forall k, seen_has seen k = existsb (fun g => key_eqb k (flight_key g)) earlier.

(** Where [Re.run r s k] gives [a], the match took off [s] a text made of
    characters of [P], and the continuation gave [a] on the rest. *)
Definition consumed (P : ascii -> bool) {A : Type} (s : string)
  (k : string -> option A) (a : A) : Prop :=
  exists m s', s = (m ++ s')%string /\ all_chars P m = true /\ k s' = Some a.

(** What a run of the retry loop says of itself, when it started at attempt
    index [first] and may go up to [last]. *)
Definition run_sound (config : ScraperConfig) (world : nat -> attempt_world)
  (first last : nat) (r : run) : Prop :=
  List.length (history r) = attempts r /\
  (first <= attempts r <= last)%nat /\
  match final r with
  | EXHAUSTED =>
      attempts r = last /\ forallb non_success (history r) = true
  | SUCCESS flights =>
      exists earlier,
        history r = Ok flights :: earlier /\
        forallb non_success earlier = true /\
        flights <> [] /\
        dedupe flights <> [] /\
        exists p,
          nav (fetch (world (Nat.pred (attempts r)))) = Loaded p /\
          wait_ok p = true /\ blocked p = false /\
          flights = extract config (flight_buttons p)
  | FATAL e =>
      exists earlier,
        history r = Raise e :: earlier /\
        caught e = false /\
        forallb non_success earlier = true
  end.

(** How many later admissions the window from [t] can still hold, given the
    cap, the counter and the time of the last request. *)
Definition room (cap count : Z) (last t : Q) : Z :=
  if Qle_bool (t + 3600) last then 0
  else if Qle_bool t last then Z.max 0 (cap - count)
  else cap.

(** The same for the closed window, when the clock readings increase. *)
Definition closed_room (cap count : Z) (last t : Q) : Z :=
  if Qle_bool (t + 3600) last then 0
  else if Qltb t last then Z.max 0 (cap - count)
  else if Qle_bool t last then Z.max 1 (cap - count)
  else cap.

(** * Properties *)

(** ** Arithmetic of the model *)

Lemma Qltb_lt (x y : Q) : Qltb x y = true <-> (x < y)%Q.
Proof.
  unfold Qltb. rewrite negb_true_iff. split; intro H.
  - apply Qnot_le_lt. intro L. apply Qle_bool_iff in L. congruence.
  - destruct (Qle_bool y x) eqn:E; [|reflexivity].
    apply Qle_bool_iff in E. exfalso. apply (Qlt_not_le _ _ H E).
Qed.

Lemma Qltb_ge (x y : Q) : Qltb x y = false <-> (y <= x)%Q.
Proof.
  unfold Qltb. rewrite negb_false_iff. apply Qle_bool_iff.
Qed.

Lemma round_half_even_near (x : Q) :
  (Qabs (inject_Z (Py.round_half_even x) - x) <= 1 # 2)%Q.
Proof.
  unfold Py.round_half_even.
  pose proof (Qfloor_le x) as Hlo.
  pose proof (Qlt_floor x) as Hhi.
  set (f := Qfloor x) in *.
  assert (Hf1 : (inject_Z (f + 1) == inject_Z f + 1)%Q) by (rewrite inject_Z_plus; reflexivity).
  rewrite Hf1 in Hhi.
  apply Qabs_Qle_condition.
  destruct (Qcompare_spec (x - inject_Z f) (1 # 2)) as [E|L|G].
  - destruct (Z.even f); [|rewrite Hf1]; split; lra.
  - split; lra.
  - rewrite Hf1. split; lra.
Qed.

Lemma round_half_even_comp (x y : Q) :
  (x == y)%Q -> Py.round_half_even x = Py.round_half_even y.
Proof.
  intro E. unfold Py.round_half_even.
  rewrite (Qfloor_comp x y E).
  assert (C : ((x - inject_Z (Qfloor y)) ?= 1 # 2)%Q = ((y - inject_Z (Qfloor y)) ?= 1 # 2)%Q).
  { apply Qcompare_comp; [|reflexivity]. rewrite E. reflexivity. }
  now rewrite C.
Qed.

Lemma round_half_even_mono (x y : Q) :
  (x <= y)%Q -> Py.round_half_even x <= Py.round_half_even y.
Proof.
  intro L.
  destruct (Z_le_gt_dec (Py.round_half_even x) (Py.round_half_even y)) as [H|H];
    [exact H|exfalso].
  pose proof (round_half_even_near x) as Hx.
  pose proof (round_half_even_near y) as Hy.
  apply Qabs_Qle_condition in Hx. apply Qabs_Qle_condition in Hy.
  assert (G : (inject_Z (Py.round_half_even y) + 1 <= inject_Z (Py.round_half_even x))%Q).
  { rewrite <- (inject_Z_plus _ 1). rewrite <- Zle_Qle. lia. }
  assert (E : (x == y)%Q) by lra.
  rewrite (round_half_even_comp x y E) in H. lia.
Qed.

(** ** Binary floating point *)

Lemma round_half_even_int (z : Z) : Py.round_half_even (inject_Z z) = z.
Proof.
  unfold Py.round_half_even. rewrite Qfloor_Z.
  destruct (Qcompare_spec (inject_Z z - inject_Z z) (1 # 2)) as [E|L|G].
  - exfalso. lra.
  - reflexivity.
  - exfalso. lra.
Qed.

Lemma inject_Z_sub (a b : Z) : (inject_Z (a - b) == inject_Z a - inject_Z b)%Q.
Proof. unfold Z.sub. rewrite inject_Z_plus, inject_Z_opp. reflexivity. Qed.

Lemma Qfloor_unique (x : Q) (z : Z) :
  (inject_Z z <= x)%Q -> (x < inject_Z z + 1)%Q -> Qfloor x = z.
Proof.
  intros H1 H2.
  pose proof (Qfloor_le x) as Hlo. pose proof (Qlt_floor x) as Hhi.
  rewrite inject_Z_plus in Hhi. change (inject_Z 1) with 1%Q in Hhi.
  assert (A : (inject_Z (Qfloor x) < inject_Z (z + 1))%Q)
    by (rewrite inject_Z_plus; change (inject_Z 1) with 1%Q; lra).
  assert (B : (inject_Z z < inject_Z (Qfloor x + 1))%Q)
    by (rewrite inject_Z_plus; change (inject_Z 1) with 1%Q; lra).
  rewrite <- Zlt_Qlt in A, B. lia.
Qed.

Lemma round_half_even_opp (x : Q) :
  Py.round_half_even (- x) = - Py.round_half_even x.
Proof.
  pose proof (Qfloor_le x) as Hlo. pose proof (Qlt_floor x) as Hhi.
  rewrite inject_Z_plus in Hhi. change (inject_Z 1) with 1%Q in Hhi.
  destruct (Qeq_dec x (inject_Z (Qfloor x))) as [E|N].
  - rewrite (round_half_even_comp (- x) (inject_Z (- Qfloor x)))
      by (rewrite inject_Z_opp, <- E; reflexivity).
    rewrite (round_half_even_comp x (inject_Z (Qfloor x)) E).
    now rewrite !round_half_even_int.
  - assert (Hf : Qfloor (- x) = - Qfloor x - 1).
    { apply Qfloor_unique.
      - rewrite inject_Z_sub, inject_Z_opp. change (inject_Z 1) with 1%Q. lra.
      - rewrite inject_Z_sub, inject_Z_opp.
        change (inject_Z 1) with 1%Q.
        assert (inject_Z (Qfloor x) < x)%Q.
        { apply Qle_lteq in Hlo. destruct Hlo as [H|H]; [exact H|].
          contradiction N. symmetry. exact H. }
        lra. }
    unfold Py.round_half_even. rewrite Hf.
    set (f := Qfloor x) in *.
    rewrite inject_Z_sub, inject_Z_opp. change (inject_Z 1) with 1%Q.
    destruct (Qcompare_spec (x - inject_Z f) (1 # 2)) as [E|L|G];
      destruct (Qcompare_spec (- x - (- inject_Z f - 1)) (1 # 2)) as [E'|L'|G'];
      try (exfalso; lra); try lia.
    replace (- f - 1) with (- (f + 1)) by lia.
    rewrite Z.even_opp, Z.even_add. change (Z.even 1) with false.
    destruct (Z.even f); cbn; lia.
Qed.

Lemma pow2_pos (k : Z) : (0 < Py.pow2 k)%Q.
Proof. apply Qpower_0_lt. reflexivity. Qed.

Lemma pow2_add (a b : Z) : (Py.pow2 (a + b) == Py.pow2 a * Py.pow2 b)%Q.
Proof. apply Qpower_plus. discriminate. Qed.

Lemma pow2_succ (a : Z) : (Py.pow2 (a + 1) == 2 * Py.pow2 a)%Q.
Proof. rewrite pow2_add. change (Py.pow2 1) with 2%Q. ring. Qed.

Lemma pow2_opp (a : Z) : (Py.pow2 (- a) == / Py.pow2 a)%Q.
Proof. apply Qpower_opp. Qed.

Lemma pow2_sub (a b : Z) : (Py.pow2 (a - b) == Py.pow2 a / Py.pow2 b)%Q.
Proof. unfold Z.sub. rewrite pow2_add, pow2_opp. reflexivity. Qed.

Lemma pow2_le (a b : Z) : a <= b -> (Py.pow2 a <= Py.pow2 b)%Q.
Proof. intro H. apply Qpower_le_compat_l; [exact H | discriminate]. Qed.

Lemma pow2_lt (a b : Z) : a < b -> (Py.pow2 a < Py.pow2 b)%Q.
Proof. intro H. apply Qpower_lt_compat_l; [exact H | reflexivity]. Qed.

Lemma pow2_lt_inv (a b : Z) : (Py.pow2 a < Py.pow2 b)%Q -> a < b.
Proof. intro H. apply (Qpower_lt_compat_l_inv 2); [exact H | reflexivity]. Qed.

Lemma pow2_Z (k : Z) : 0 <= k -> (Py.pow2 k == inject_Z (2 ^ k))%Q.
Proof. intro H. unfold Py.pow2. rewrite Zpower_Qpower by exact H. reflexivity. Qed.

Lemma pow2_mul_inv (a : Z) : (Py.pow2 a * Py.pow2 (- a) == 1)%Q.
Proof. rewrite <- pow2_add, Z.add_opp_diag_r. reflexivity. Qed.

(** The exponent of a number that is not zero. *)
Lemma ilog2_spec (x : Q) :
  ~ (x == 0)%Q ->
  (Py.pow2 (Py.ilog2 x) <= Qabs x)%Q /\ (Qabs x < Py.pow2 (Py.ilog2 x + 1))%Q.
Proof.
  intro Hx. unfold Py.ilog2.
  destruct x as [n d]. cbn [Qnum Qden].
  assert (Hn : 0 < Z.abs n).
  { assert (n <> 0) by (intro E; apply Hx; subst n; reflexivity). lia. }
  set (a := Z.log2 (Z.abs n)). set (b := Z.log2 (Z.pos d)).
  destruct (Z.log2_spec (Z.abs n) Hn) as [A1 A2]. fold a in A1, A2.
  destruct (Z.log2_spec (Z.pos d) ltac:(lia)) as [B1 B2]. fold b in B1, B2.
  assert (Ha : 0 <= a) by apply Z.log2_nonneg.
  assert (Hb : 0 <= b) by apply Z.log2_nonneg.
  assert (Eabs : (Qabs (n # d) == inject_Z (Z.abs n) / inject_Z (Z.pos d))%Q).
  { unfold Qabs. rewrite (Qmake_Qdiv (Z.abs n) d). reflexivity. }
  assert (Ek : (Py.pow2 (a - b) == inject_Z (2 ^ a) / inject_Z (2 ^ b))%Q).
  { rewrite pow2_sub, !pow2_Z by assumption. reflexivity. }
  assert (Pa : 0 < 2 ^ a) by (apply Z.pow_pos_nonneg; lia).
  assert (Pb : 0 < 2 ^ b) by (apply Z.pow_pos_nonneg; lia).
  rewrite Z.pow_succ_r in A2, B2 by assumption.
  assert (QA1 : (inject_Z (2 ^ a) <= inject_Z (Z.abs n))%Q) by (rewrite <- Zle_Qle; exact A1).
  assert (QA2 : (inject_Z (Z.abs n) < 2 * inject_Z (2 ^ a))%Q).
  { change 2%Q with (inject_Z 2). rewrite <- inject_Z_mult, <- Zlt_Qlt. exact A2. }
  assert (QB1 : (inject_Z (2 ^ b) <= inject_Z (Z.pos d))%Q) by (rewrite <- Zle_Qle; exact B1).
  assert (QB2 : (inject_Z (Z.pos d) < 2 * inject_Z (2 ^ b))%Q).
  { change 2%Q with (inject_Z 2). rewrite <- inject_Z_mult, <- Zlt_Qlt. exact B2. }
  assert (QPa : (0 < inject_Z (2 ^ a))%Q) by (change 0%Q with (inject_Z 0); rewrite <- Zlt_Qlt; exact Pa).
  assert (QPb : (0 < inject_Z (2 ^ b))%Q) by (change 0%Q with (inject_Z 0); rewrite <- Zlt_Qlt; exact Pb).
  revert Eabs Ek QA1 QA2 QB1 QB2 QPa QPb.
  generalize (inject_Z (Z.abs n)) (inject_Z (Z.pos d)) (inject_Z (2 ^ a)) (inject_Z (2 ^ b)).
  intros N D A B Eabs Ek QA1 QA2 QB1 QB2 QPa QPb.
  assert (PD : (0 < D)%Q) by lra.
  destruct (Qle_bool (Py.pow2 (a - b)) (Qabs (n # d))) eqn:E.
  - apply Qle_bool_iff in E. split; [exact E|].
    rewrite pow2_succ, Ek, Eabs.
    apply Qlt_shift_div_r; [exact PD|].
    setoid_replace (2 * (A / B) * D)%Q with ((2 * A * D) / B)%Q by (field; lra).
    apply Qlt_shift_div_l; [exact QPb|]. nra.
  - assert (L : (Qabs (n # d) < Py.pow2 (a - b))%Q).
    { apply Qnot_le_lt. intro H. apply Qle_bool_iff in H. congruence. }
    replace (a - b - 1 + 1) with (a - b) by lia.
    split; [|exact L].
    assert (Ek' : (Py.pow2 (a - b - 1) == Py.pow2 (a - b) / 2)%Q).
    { rewrite (pow2_sub (a - b) 1). reflexivity. }
    rewrite Ek', Ek, Eabs.
    apply Qle_shift_div_l; [exact PD|].
    setoid_replace (A / B / 2 * D)%Q with ((A * D) / (2 * B))%Q by (field; lra).
    apply Qle_shift_div_r; [lra|]. nra.
Qed.

Lemma ilog2_unique (x : Q) (k : Z) :
  (Py.pow2 k <= Qabs x)%Q -> (Qabs x < Py.pow2 (k + 1))%Q -> Py.ilog2 x = k.
Proof.
  intros H1 H2.
  assert (Hx : ~ (x == 0)%Q).
  { intro E. rewrite E in H1. pose proof (pow2_pos k). change (Qabs 0) with 0%Q in H1. lra. }
  destruct (ilog2_spec x Hx) as [S1 S2].
  assert (A : Py.ilog2 x < k + 1) by (apply pow2_lt_inv; lra).
  assert (B : k < Py.ilog2 x + 1) by (apply pow2_lt_inv; lra).
  lia.
Qed.

Lemma ilog2_comp (x y : Q) : (x == y)%Q -> ~ (x == 0)%Q -> Py.ilog2 x = Py.ilog2 y.
Proof.
  intros E Hx. symmetry. destruct (ilog2_spec x Hx) as [S1 S2].
  apply ilog2_unique; rewrite <- E; assumption.
Qed.

Lemma ilog2_mono (x y : Q) :
  ~ (x == 0)%Q -> (Qabs x <= Qabs y)%Q -> Py.ilog2 x <= Py.ilog2 y.
Proof.
  intros Hx L.
  assert (Hy : ~ (y == 0)%Q).
  { intro E. rewrite E in L. change (Qabs 0) with 0%Q in L.
    apply Qabs_Qle_condition in L. apply Hx. lra. }
  destruct (ilog2_spec x Hx) as [X1 X2]. destruct (ilog2_spec y Hy) as [Y1 Y2].
  assert (A : Py.ilog2 x < Py.ilog2 y + 1) by (apply pow2_lt_inv; lra).
  lia.
Qed.

Lemma binary64_unfold (x : Q) :
  Py.binary64 x
  = (inject_Z (Py.round_half_even (x / Py.pow2 (ulp_exp x))) * Py.pow2 (ulp_exp x))%Q.
Proof. reflexivity. Qed.

Lemma binary64_zero (x : Q) : (x == 0)%Q -> (Py.binary64 x == 0)%Q.
Proof.
  intro E. rewrite binary64_unfold.
  rewrite (round_half_even_comp _ (inject_Z 0)).
  - rewrite round_half_even_int. change (inject_Z 0) with 0%Q. ring.
  - generalize (Py.pow2 (ulp_exp x)). intro p.
    rewrite E. change (inject_Z 0) with 0%Q. unfold Qdiv. ring.
Qed.

Lemma binary64_comp (x y : Q) : (x == y)%Q -> (Py.binary64 x == Py.binary64 y)%Q.
Proof.
  intro E. destruct (Qeq_dec x 0) as [Z|N].
  - rewrite (binary64_zero x Z), (binary64_zero y) by (rewrite <- E; exact Z). reflexivity.
  - rewrite !binary64_unfold. unfold ulp_exp. rewrite (ilog2_comp x y E N).
    rewrite (round_half_even_comp (x / _) (y / Py.pow2 (Z.max (Py.ilog2 y - 52) (-1074)))).
    + reflexivity.
    + rewrite E. reflexivity.
Qed.

Lemma binary64_proper : Proper (Qeq ==> Qeq) Py.binary64.
Proof. intros x y E. apply binary64_comp. exact E. Qed.

#[global] Existing Instance binary64_proper.

Lemma ilog2_opp (x : Q) : Py.ilog2 (- x) = Py.ilog2 x.
Proof.
  unfold Py.ilog2. destruct x as [n d]. cbn [Qopp Qnum Qden Qabs].
  now rewrite Z.abs_opp.
Qed.

Lemma binary64_opp (x : Q) : (Py.binary64 (- x) == - Py.binary64 x)%Q.
Proof.
  rewrite !binary64_unfold. unfold ulp_exp. rewrite ilog2_opp.
  set (e := Z.max (Py.ilog2 x - 52) (-1074)).
  rewrite (round_half_even_comp (- x / Py.pow2 e) (- (x / Py.pow2 e)))
    by (unfold Qdiv; ring).
  rewrite round_half_even_opp, inject_Z_opp. ring.
Qed.

Lemma binary64_nonneg (x : Q) : (0 <= x)%Q -> (0 <= Py.binary64 x)%Q.
Proof.
  intro H. rewrite binary64_unfold.
  pose proof (pow2_pos (ulp_exp x)) as P.
  apply Qmult_le_0_compat; [|lra].
  change 0%Q with (inject_Z 0). rewrite <- Zle_Qle.
  rewrite <- (round_half_even_int 0). apply round_half_even_mono.
  change (inject_Z 0) with 0%Q. apply Qle_shift_div_l; [exact P | lra].
Qed.

Lemma binary64_nonpos (x : Q) : (x <= 0)%Q -> (Py.binary64 x <= 0)%Q.
Proof.
  intro H. pose proof (binary64_nonneg (- x) ltac:(lra)) as N.
  rewrite binary64_opp in N. lra.
Qed.

Lemma ulp_exp_ge (x : Q) : -1074 <= ulp_exp x /\ Py.ilog2 x - 52 <= ulp_exp x.
Proof. unfold ulp_exp. lia. Qed.

(** The numbers [m * 2 ** e] with a mantissa of 53 bits are doubles. *)
Lemma binary64_fixed (m e : Z) :
  -1074 <= e -> Z.abs m < 2 ^ 53 ->
  (Py.binary64 (inject_Z m * Py.pow2 e) == inject_Z m * Py.pow2 e)%Q.
Proof.
  intros He Hm.
  set (x := (inject_Z m * Py.pow2 e)%Q).
  destruct (Z.eq_dec m 0) as [->|Nm].
  { assert (E0 : (x == 0)%Q) by (unfold x; change (inject_Z 0) with 0%Q; ring).
    rewrite (binary64_zero x E0). symmetry. exact E0. }
  pose proof (pow2_pos e) as Pe.
  assert (Eabs : (Qabs x == inject_Z (Z.abs m) * Py.pow2 e)%Q).
  { unfold x. rewrite Qabs_Qmult, (Qabs_pos (Py.pow2 e)) by lra.
    reflexivity. }
  assert (Hx : ~ (x == 0)%Q).
  { intro E. rewrite E in Eabs. change (Qabs 0) with 0%Q in Eabs.
    assert (1 <= Z.abs m) by lia.
    assert (inject_Z 1 <= inject_Z (Z.abs m))%Q by (rewrite <- Zle_Qle; assumption).
    change (inject_Z 1) with 1%Q in *. nra. }
  destruct (ilog2_spec x Hx) as [S1 S2].
  assert (Hk : Py.ilog2 x < 53 + e).
  { apply pow2_lt_inv. rewrite pow2_add, (pow2_Z 53) by lia.
    assert (inject_Z (Z.abs m) < inject_Z (2 ^ 53))%Q by (rewrite <- Zlt_Qlt; exact Hm).
    nra. }
  rewrite binary64_unfold.
  set (e' := ulp_exp x).
  assert (He' : e' <= e) by (unfold e', ulp_exp; lia).
  assert (Eq : (x / Py.pow2 e' == inject_Z (m * 2 ^ (e - e')))%Q).
  { unfold x. rewrite inject_Z_mult, <- pow2_Z by lia.
    rewrite pow2_sub. pose proof (pow2_pos e'). field. lra. }
  rewrite (round_half_even_comp _ _ Eq), round_half_even_int.
  rewrite inject_Z_mult, <- pow2_Z by lia. unfold x.
  rewrite pow2_sub. pose proof (pow2_pos e'). field. lra.
Qed.

Lemma binary64_pow2 (k : Z) : -1074 <= k -> (Py.binary64 (Py.pow2 k) == Py.pow2 k)%Q.
Proof.
  intro H. pose proof (binary64_fixed 1 k H ltac:(reflexivity)) as F.
  change (inject_Z 1) with 1%Q in F. rewrite !Qmult_1_l in F. exact F.
Qed.

Lemma binary64_int (z : Z) :
  Z.abs z <= 2 ^ 53 -> (Py.binary64 (inject_Z z) == inject_Z z)%Q.
Proof.
  intro H. destruct (Z.eq_dec (Z.abs z) (2 ^ 53)) as [E|N].
  - assert (Hz : z = 2 ^ 53 \/ z = - 2 ^ 53) by lia.
    destruct Hz as [-> | ->].
    + rewrite <- (pow2_Z 53) by lia. apply binary64_pow2. lia.
    + rewrite inject_Z_opp, binary64_opp, <- (pow2_Z 53) by lia.
      rewrite binary64_pow2 by lia. reflexivity.
  - pose proof (binary64_fixed z 0 ltac:(lia) ltac:(lia)) as F.
    change (Py.pow2 0) with 1%Q in F. rewrite !Qmult_1_r in F. exact F.
Qed.

(** Rounding stays within half a unit of the last place. *)
Lemma binary64_near (x : Q) :
  (Qabs (Py.binary64 x - x) <= Py.pow2 (ulp_exp x - 1))%Q.
Proof.
  rewrite binary64_unfold.
  set (e := ulp_exp x). pose proof (pow2_pos e) as P.
  pose proof (round_half_even_near (x / Py.pow2 e)) as H.
  set (r := inject_Z (Py.round_half_even (x / Py.pow2 e))) in *.
  setoid_replace (r * Py.pow2 e - x)%Q with ((r - x / Py.pow2 e) * Py.pow2 e)%Q
    by (field; lra).
  rewrite Qabs_Qmult, (Qabs_pos (Py.pow2 e)) by lra.
  rewrite (pow2_sub e 1). change (Py.pow2 1) with 2%Q.
  setoid_replace (Py.pow2 e / 2)%Q with ((1 # 2) * Py.pow2 e)%Q by field.
  apply Qmult_le_compat_r; [exact H | lra].
Qed.

(** Above the subnormal numbers the error is at most [2 ** -53] of the
    number. *)
Lemma binary64_relative (x : Q) :
  (Py.pow2 (-1022) <= Qabs x)%Q ->
  (Qabs (Py.binary64 x - x) <= Qabs x * Py.pow2 (-53))%Q.
Proof.
  intro H.
  assert (Hx : ~ (x == 0)%Q).
  { intro E. rewrite E in H. change (Qabs 0) with 0%Q in H.
    pose proof (pow2_pos (-1022)). lra. }
  destruct (ilog2_spec x Hx) as [S1 S2].
  assert (Hk : -1022 <= Py.ilog2 x).
  { assert (-1022 < Py.ilog2 x + 1) by (apply pow2_lt_inv; lra). lia. }
  pose proof (binary64_near x) as N.
  assert (E : ulp_exp x - 1 = Py.ilog2 x + (-53)) by (unfold ulp_exp; lia).
  rewrite E, pow2_add in N.
  pose proof (pow2_pos (-53)).
  assert (Py.pow2 (Py.ilog2 x) * Py.pow2 (-53) <= Qabs x * Py.pow2 (-53))%Q
    by (apply Qmult_le_compat_r; lra).
  lra.
Qed.

(** A positive number rounds to at least the power of two below it, and to at
    most 2 ** 53 units of its last place. *)
Lemma binary64_above (y : Q) :
  (0 < y)%Q -> -1074 <= Py.ilog2 y - 52 ->
  (Py.pow2 (Py.ilog2 y) <= Py.binary64 y)%Q.
Proof.
  intros Hy Hk.
  assert (Ny : ~ (y == 0)%Q) by (intro E; rewrite E in Hy; discriminate).
  destruct (ilog2_spec y Ny) as [S1 _]. rewrite Qabs_pos in S1 by lra.
  rewrite binary64_unfold.
  assert (E : ulp_exp y = Py.ilog2 y - 52) by (unfold ulp_exp; lia).
  rewrite E. set (e := Py.ilog2 y - 52). pose proof (pow2_pos e) as P.
  assert (Ek : (Py.pow2 (Py.ilog2 y) == inject_Z (2 ^ 52) * Py.pow2 e)%Q).
  { rewrite <- (pow2_Z 52), <- pow2_add by lia. unfold e.
    replace (52 + (Py.ilog2 y - 52)) with (Py.ilog2 y) by lia. reflexivity. }
  rewrite Ek. apply Qmult_le_compat_r; [|lra].
  rewrite <- Zle_Qle, <- (round_half_even_int (2 ^ 52)).
  apply round_half_even_mono. apply Qle_shift_div_l; [exact P|].
  rewrite <- Ek. exact S1.
Qed.

Lemma binary64_below (x : Q) :
  (0 < x)%Q -> (Py.binary64 x <= Py.pow2 (ulp_exp x + 53))%Q.
Proof.
  intro Hx.
  assert (Nx : ~ (x == 0)%Q) by (intro E; rewrite E in Hx; discriminate).
  destruct (ilog2_spec x Nx) as [_ S2]. rewrite Qabs_pos in S2 by lra.
  rewrite binary64_unfold.
  set (e := ulp_exp x). pose proof (pow2_pos e) as P.
  assert (He : Py.ilog2 x + 1 <= e + 53) by (unfold e, ulp_exp; lia).
  rewrite (Z.add_comm e 53), pow2_add, (pow2_Z 53) by lia.
  apply Qmult_le_compat_r; [|lra].
  rewrite <- Zle_Qle, <- (round_half_even_int (2 ^ 53)).
  apply round_half_even_mono. apply Qle_shift_div_r; [exact P|].
  rewrite <- (pow2_Z 53), <- pow2_add by lia.
  pose proof (pow2_le _ _ He) as L. rewrite (Z.add_comm 53 e). lra.
Qed.

Lemma binary64_mono_pos (x y : Q) :
  (0 < x)%Q -> (x <= y)%Q -> (Py.binary64 x <= Py.binary64 y)%Q.
Proof.
  intros Hx L.
  assert (Nx : ~ (x == 0)%Q) by (intro E; rewrite E in Hx; discriminate).
  assert (Hk : Py.ilog2 x <= Py.ilog2 y).
  { apply ilog2_mono; [exact Nx|]. rewrite !Qabs_pos by lra. exact L. }
  destruct (Z.eq_dec (ulp_exp x) (ulp_exp y)) as [E|N].
  - rewrite !binary64_unfold, E.
    pose proof (pow2_pos (ulp_exp y)) as P.
    apply Qmult_le_compat_r; [|lra].
    rewrite <- Zle_Qle. apply round_half_even_mono.
    apply Qmult_le_compat_r; [exact L|]. apply Qlt_le_weak, Qinv_lt_0_compat, P.
  - assert (Hlt : ulp_exp x + 1 <= ulp_exp y /\ ulp_exp y = Py.ilog2 y - 52)
      by (unfold ulp_exp in *; lia).
    destruct Hlt as [H1 H2].
    pose proof (binary64_below x Hx) as B.
    pose proof (binary64_above y ltac:(lra) ltac:(unfold ulp_exp in *; lia)) as A.
    assert (P : (Py.pow2 (ulp_exp x + 53) <= Py.pow2 (Py.ilog2 y))%Q)
      by (apply pow2_le; lia).
    lra.
Qed.

(** Rounding keeps the order. *)
Lemma binary64_mono (x y : Q) : (x <= y)%Q -> (Py.binary64 x <= Py.binary64 y)%Q.
Proof.
  intro L.
  destruct (Qlt_le_dec 0 x) as [Px|Nx].
  - apply binary64_mono_pos; assumption.
  - destruct (Qlt_le_dec y 0) as [Ny|Py0].
    + pose proof (binary64_mono_pos (- y) (- x) ltac:(lra) ltac:(lra)) as H.
      rewrite !binary64_opp in H. lra.
    + pose proof (binary64_nonpos x Nx). pose proof (binary64_nonneg y Py0). lra.
Qed.


Lemma hundredths_mono (a b : Z) : a <= b -> (a # 100 <= b # 100)%Q.
Proof. intro H. unfold Qle. cbn [Qnum Qden]. lia. Qed.

Lemma round2_mono (x y : Q) : (x <= y)%Q -> (Py.round2 x <= Py.round2 y)%Q.
Proof.
  intro L. unfold Py.round2. apply binary64_mono, hundredths_mono.
  apply round_half_even_mono. lra.
Qed.

Lemma round2_zero : (Py.round2 0 == 0)%Q.
Proof. vm_compute. reflexivity. Qed.

Lemma round2_nonneg (x : Q) : (0 <= x)%Q -> (0 <= Py.round2 x)%Q.
Proof. intro H. rewrite <- round2_zero. apply round2_mono. exact H. Qed.

Lemma round2_nonpos_le (x : Q) : (x <= 0)%Q -> (Py.round2 x <= 0)%Q.
Proof. intro H. rewrite <- round2_zero. apply round2_mono. exact H. Qed.

(** ** The ratio in double arithmetic *)

Lemma binary64_points_pos (points : Z) :
  0 < points -> (1 <= Py.binary64 (inject_Z points))%Q.
Proof.
  intro H.
  assert (E : (Py.binary64 (inject_Z 1) == 1)%Q) by (apply (binary64_int 1); lia).
  rewrite <- E. apply binary64_mono. rewrite <- Zle_Qle. lia.
Qed.

Lemma ratio_mono (cash1 cash2 taxes : Q) (points : Z) :
  0 < points -> (cash1 <= cash2)%Q ->
  (ratio cash1 points taxes <= ratio cash2 points taxes)%Q.
Proof.
  intros Hp L. unfold ratio.
  pose proof (binary64_points_pos points Hp) as P.
  apply binary64_mono. apply Qmult_le_compat_r; [|discriminate].
  apply binary64_mono. apply Qmult_le_compat_r.
  - apply binary64_mono. lra.
  - apply Qlt_le_weak, Qinv_lt_0_compat. lra.
Qed.

Lemma ratio_level (cash taxes : Q) (points : Z) :
  (cash == taxes)%Q -> (ratio cash points taxes == 0)%Q.
Proof.
  intro E. unfold ratio.
  assert (E1 : (Py.binary64 (cash - taxes) == 0)%Q) by (apply binary64_zero; lra).
  rewrite E1.
  assert (E2 : (Py.binary64 (0 / Py.binary64 (inject_Z points)) == 0)%Q)
    by (apply binary64_zero; unfold Qdiv; ring).
  rewrite E2. apply binary64_zero. ring.
Qed.

Lemma ratio_nonpos (cash taxes : Q) (points : Z) :
  0 < points -> (cash <= taxes)%Q -> (ratio cash points taxes <= 0)%Q.
Proof.
  intros Hp L. rewrite <- (ratio_level taxes taxes points) by reflexivity.
  apply ratio_mono; assumption.
Qed.

Lemma ratio_nonneg (cash taxes : Q) (points : Z) :
  0 < points -> (taxes <= cash)%Q -> (0 <= ratio cash points taxes)%Q.
Proof.
  intros Hp L. rewrite <- (ratio_level taxes taxes points) by reflexivity.
  apply ratio_mono; assumption.
Qed.

Lemma ratio_opp (cash taxes : Q) (points : Z) :
  (ratio taxes points cash == - ratio cash points taxes)%Q.
Proof.
  unfold ratio.
  setoid_replace (taxes - cash)%Q with (- (cash - taxes))%Q by ring.
  rewrite binary64_opp.
  set (d := Py.binary64 (cash - taxes)). set (p := Py.binary64 (inject_Z points)).
  setoid_replace (- d / p)%Q with (- (d / p))%Q by (unfold Qdiv; ring).
  rewrite binary64_opp.
  set (q := Py.binary64 (d / p)).
  setoid_replace (- q * 100)%Q with (- (q * 100))%Q by ring.
  apply binary64_opp.
Qed.

(** A number of at least a power of two rounds to at least that power, and
    within [2 ** -53] of itself. *)
Lemma binary64_window (x : Q) (k : Z) :
  -1022 <= k -> (Py.pow2 k <= x)%Q ->
  (Py.pow2 k <= Py.binary64 x)%Q /\
  (x * (1 - Py.pow2 (-53)) <= Py.binary64 x <= x * (1 + Py.pow2 (-53)))%Q.
Proof.
  intros Hk Hx. pose proof (pow2_pos k) as Pk.
  split.
  - rewrite <- (binary64_pow2 k) by lia. apply binary64_mono. exact Hx.
  - assert (Habs : (Py.pow2 (-1022) <= Qabs x)%Q).
    { rewrite Qabs_pos by lra. pose proof (pow2_le (-1022) k Hk). lra. }
    pose proof (binary64_relative x Habs) as R.
    rewrite (Qabs_pos x) in R by lra.
    apply Qabs_Qle_condition in R. lra.
Qed.

(** The three roundings of the ratio of a positive difference lose at most
    [2 ** -51] of its exact value. *)
Lemma ratio_error_pos (cash taxes : Q) (points : Z) :
  0 < points <= 2 ^ 53 ->
  (Py.pow2 (-900) <= cash - taxes)%Q ->
  let exact := ((cash - taxes) / inject_Z points * 100)%Q in
  (exact * (1 - Py.pow2 (-51)) <= ratio cash points taxes <= exact * (1 + Py.pow2 (-51)))%Q.
Proof.
  intros [Hp Hmax] Hd exact. unfold ratio.
  rewrite (binary64_int points) by lia.
  set (p := inject_Z points).
  assert (P1 : (1 <= p)%Q) by (unfold p; rewrite <- (Zle_Qle 1); lia).
  assert (P2 : (p <= Py.pow2 53)%Q)
    by (unfold p; rewrite (pow2_Z 53) by lia; rewrite <- Zle_Qle; lia).
  set (d := (cash - taxes)%Q) in *.
  assert (D0 : (0 < d)%Q) by (pose proof (pow2_pos (-900)); lra).
  destruct (binary64_window d (-900) ltac:(lia) Hd) as [D1 [D2 D3]].
  set (d' := Py.binary64 d) in *.
  (* the quotient *)
  assert (Q0 : (Py.pow2 (-953) <= d' / p)%Q).
  { apply Qle_shift_div_l; [lra|].
    assert (Py.pow2 (-953) * Py.pow2 53 == Py.pow2 (-900))%Q
      by (rewrite <- pow2_add; reflexivity).
    pose proof (pow2_pos (-953)). nra. }
  destruct (binary64_window (d' / p) (-953) ltac:(lia) Q0) as [Q1 [Q2 Q3]].
  set (q := (d' / p)%Q) in *. set (q' := Py.binary64 q) in *.
  (* the product *)
  assert (Z0 : (Py.pow2 (-953) <= q' * 100)%Q).
  { pose proof (pow2_pos (-953)) as P. clearbody q'. revert P Q1. generalize (Py.pow2 (-953)). clear. intros c P Q1.  lra. }
  destruct (binary64_window (q' * 100) (-953) ltac:(lia) Z0) as [_ [Z2 Z3]].
  set (z' := Py.binary64 (q' * 100)) in *.
  assert (Eq : (q * p == d')%Q) by (unfold q; field; lra).
  assert (Ee : (exact * p == d * 100)%Q) by (unfold exact; fold p; field; lra).
  assert (E51 : (Py.pow2 (-51) == 4 * Py.pow2 (-53))%Q) by (vm_compute; reflexivity).
  rewrite E51.
  assert (Hu : (0 < Py.pow2 (-53))%Q /\ (Py.pow2 (-53) <= 1 # 1000)%Q).
  { split; [apply pow2_pos|]. vm_compute. discriminate. }
  set (u := Py.pow2 (-53)) in *.
  assert (Pq : (0 < q)%Q) by (pose proof (pow2_pos (-953)); lra).
  assert (Pq' : (0 < q')%Q) by (pose proof (pow2_pos (-953)); lra).
  clearbody u p d d' q q' z' exact. clear - Hu P1 D0 D2 D3 Q2 Q3 Z2 Z3 Eq Ee Pq Pq'.
  assert (Pe : (0 < exact)%Q).
  { destruct (Qlt_le_dec 0 exact) as [H|H]; [exact H | exfalso; nra]. }
  assert (A1 : (q <= exact / 100 * (1 + u))%Q).
  { apply (Qmult_le_r _ _ p); [lra|].
    setoid_replace (exact / 100 * (1 + u) * p)%Q with (exact * p * (1 + u) / 100)%Q by field.
    rewrite Eq, Ee.
    setoid_replace (d * 100 * (1 + u) / 100)%Q with (d * (1 + u))%Q by field. exact D3. }
  assert (A2 : (exact / 100 * (1 - u) <= q)%Q).
  { apply (Qmult_le_r _ _ p); [lra|].
    setoid_replace (exact / 100 * (1 - u) * p)%Q with (exact * p * (1 - u) / 100)%Q by field.
    rewrite Eq, Ee.
    setoid_replace (d * 100 * (1 - u) / 100)%Q with (d * (1 - u))%Q by field. exact D2. }
  assert (A3 : (exact / 100 == exact * (1 # 100))%Q) by field.
  rewrite A3 in A1, A2. clear A3.
  split; nra.
Qed.

Lemma ratio_error (cash taxes : Q) (points : Z) :
  0 < points <= 2 ^ 53 ->
  (cash == taxes)%Q \/ (Py.pow2 (-900) <= Qabs (cash - taxes))%Q ->
  let exact := ((cash - taxes) / inject_Z points * 100)%Q in
  (Qabs (ratio cash points taxes - exact) <= Qabs exact * Py.pow2 (-51))%Q.
Proof.
  intros Hp Hd exact.
  pose proof (pow2_pos (-51)) as P51.
  assert (Pp : (0 < inject_Z points)%Q) by (rewrite <- (Zlt_Qlt 0); lia).
  destruct Hd as [E|Hd].
  - rewrite (ratio_level cash taxes points E).
    assert (E0 : (exact == 0)%Q) by (unfold exact; rewrite E; field; lra).
    rewrite E0. change (Qabs (0 - 0)) with 0%Q. change (Qabs 0) with 0%Q. lra.
  - destruct (Qlt_le_dec (cash - taxes) 0) as [N|P].
    + rewrite Qabs_neg in Hd by lra.
      pose proof (ratio_error_pos taxes cash points Hp ltac:(lra)) as H.
      cbv zeta in H. rewrite ratio_opp in H.
      assert (Eo : ((taxes - cash) / inject_Z points * 100 == - exact)%Q)
        by (unfold exact; field; lra).
      rewrite Eo in H.
      assert (Ne : (exact < 0)%Q).
      { unfold exact.
        assert ((cash - taxes) / inject_Z points < 0)%Q
          by (apply Qlt_shift_div_r; [exact Pp | lra]).
        lra. }
      rewrite (Qabs_neg exact) by lra.
      apply Qabs_Qle_condition. clearbody exact.
      revert H P51. generalize (Py.pow2 (-51)) (ratio cash points taxes). intros e r H P51.
      split; nra.
    + rewrite Qabs_pos in Hd by lra.
      pose proof (ratio_error_pos cash taxes points Hp Hd) as H.
      cbv zeta in H. fold exact in H.
      assert (Pe : (0 <= exact)%Q).
      { unfold exact.
        assert (0 <= (cash - taxes) / inject_Z points)%Q
          by (apply Qle_shift_div_l; [exact Pp | lra]).
        lra. }
      rewrite (Qabs_pos exact) by lra.
      apply Qabs_Qle_condition. clearbody exact.
      revert H P51. generalize (Py.pow2 (-51)) (ratio cash points taxes). intros e r H P51.
      split; nra.
Qed.



(** An int below 2 ** 1023 makes a float. *)
Lemma float_of_int_ok (n : Z) :
  0 <= n < 2 ^ 1023 -> Py.float_of_int n = Ok (Py.binary64 (inject_Z n)).
Proof.
  intros [H0 H1]. unfold Py.float_of_int, Py.finite.
  assert (L : (Py.binary64 (inject_Z n) <= Py.pow2 1023)%Q).
  { rewrite <- (binary64_pow2 1023) by lia. apply binary64_mono.
    rewrite (pow2_Z 1023), <- Zle_Qle by lia. lia. }
  assert (N : (0 <= Py.binary64 (inject_Z n))%Q).
  { apply binary64_nonneg. rewrite <- (Zle_Qle 0). exact H0. }
  pose proof (pow2_lt 1023 1024 ltac:(lia)) as P.
  destruct (Qle_bool (Py.pow2 1024) (Qabs (Py.binary64 (inject_Z n)))) eqn:E;
    [|reflexivity].
  apply Qle_bool_iff in E. rewrite Qabs_pos in E by exact N. lra.
Qed.


(** ** C4: the value ratio *)


(** ** C1: the rate limiter raises at the cap *)

(** Whenever the call that passes the cap comes less than an hour after the
    last one, the divisor is zero. *)
Lemma rate_limit_zero_divisor (config : ScraperConfig) (now : Q) (self : BrowserManager) :
  request_count self = requests_per_hour config ->
  (now - last_request_time self < 3600)%Q ->
  snd (rate_limit config now self) = Raise ZeroDivisionError.
Proof.
  intros Hc He. unfold rate_limit.
  replace (requests_per_hour config <? request_count self + 1) with true
    by (symmetry; apply Z.ltb_lt; lia).
  apply Qltb_lt in He. cbv zeta. rewrite He.
  replace (requests_per_hour config - (request_count self + 1) + 1 =? 0) with true
    by (symmetry; apply Z.eqb_eq; lia).
  reflexivity.
Qed.

(** C1. [rate_limit] is not total: with the default cap of 8 requests per hour,
    a manager created at time 0 lets the calls at times 1 to 8 return, and the
    ninth call, at time 9, takes the sleep branch with the divisor
    (cap - counter + 1) = 8 - 9 + 1 = 0 and raises ZeroDivisionError. *)
Theorem rate_limit_ninth_call_raises :
  let clock8 := [1; 2; 3; 4; 5; 6; 7; 8]%Q in
  List.length (admissions default_config (new_browser 0) clock8) = 8%nat /\
  request_count (calls default_config (new_browser 0) clock8) = 8 /\
  requests_per_hour default_config
    - (request_count (calls default_config (new_browser 0) clock8) + 1) + 1 = 0 /\
  snd (rate_limit default_config 9 (calls default_config (new_browser 0) clock8))
    = Raise ZeroDivisionError.
Proof.
  vm_compute. repeat split; reflexivity.
Qed.

(** ** C5 and C6: the parsers *)

Local Open Scope string_scope.

(** C5. [parse_points] reads 45k as 45000 and 12,345 as 12345 and gives 0 on an
    empty or digit-free text without a k; but it raises ValueError on a text
    with a k that is not a number besides (k alone, or 45k points), and of an
    integer token without separators it reads the first three digits only
    (12345 gives 123). *)
Theorem parse_points_fails :
  parse_points (Some "45k") = Ok 45000 /\
  parse_points (Some "12,345") = Ok 12345 /\
  parse_points (Some "") = Ok 0 /\
  parse_points None = Ok 0 /\
  parse_points (Some "abc") = Ok 0 /\
  parse_points (Some "k") = Raise ValueError /\
  parse_points (Some "45k points") = Raise ValueError /\
  parse_points (Some "12345") = Ok 123.
Proof.
  vm_compute. repeat split; reflexivity.
Qed.

(** C6. [parse_money] reads $1,234.50 as 1234.50 and gives 0.0 on an absent or
    empty text and on a text without digit or comma; but when the first
    character that is a digit or a comma starts a run of commas only, the token
    is that run and [float] of the empty string raises ValueError. *)
Theorem parse_money_fails :
  (exists q, parse_money (Some "$1,234.50") = Ok q /\ (q == 123450 # 100)%Q) /\
  parse_money None = Ok 0%Q /\
  parse_money (Some "") = Ok 0%Q /\
  parse_money (Some "n/a") = Ok 0%Q /\
  Re.search money_prefix money_group "," = Some "," /\
  parse_money (Some ",") = Raise ValueError /\
  parse_money (Some "Sold out, $120") = Raise ValueError.
Proof.
  split.
  - eexists. split; [vm_compute; reflexivity | reflexivity].
  - vm_compute. repeat split; reflexivity.
Qed.

Local Close Scope string_scope.

(** ** C8: deduplication *)

Section Dedupe.

Lemma key_eqb_refl (k : key) : key_eqb k k = true.
Proof.
  destruct k as [[p c] d]. unfold key_eqb.
  rewrite Z.eqb_refl, String.eqb_refl.
  replace (Qeq_bool c c) with true; [reflexivity|].
  symmetry. apply Qeq_bool_iff. reflexivity.
Qed.

Lemma key_eqb_true (a b : key) :
  key_eqb a b = true <->
  fst (fst a) = fst (fst b) /\ (snd (fst a) == snd (fst b))%Q /\ snd a = snd b.
Proof.
  destruct a as [[p1 c1] d1], b as [[p2 c2] d2]. unfold key_eqb. simpl.
  rewrite !andb_true_iff, Z.eqb_eq, Qeq_bool_iff, String.eqb_eq. tauto.
Qed.

Lemma key_eqb_sym (a b : key) : key_eqb a b = key_eqb b a.
Proof.
  destruct (key_eqb a b) eqn:E1, (key_eqb b a) eqn:E2; try reflexivity.
  - apply key_eqb_true in E1. destruct E1 as (H1 & H2 & H3).
    assert (key_eqb b a = true) as F; [|congruence].
    apply key_eqb_true. repeat split; auto. symmetry; exact H2.
  - apply key_eqb_true in E2. destruct E2 as (H1 & H2 & H3).
    assert (key_eqb a b = true) as F; [|congruence].
    apply key_eqb_true. repeat split; auto. symmetry; exact H2.
Qed.

Lemma key_eqb_trans (a b c : key) :
  key_eqb a b = true -> key_eqb b c = true -> key_eqb a c = true.
Proof.
  rewrite !key_eqb_true. intros (H1 & H2 & H3) (G1 & G2 & G3).
  repeat split; try congruence. rewrite H2. exact G2.
Qed.

(** Keys that are equal are looked up alike. *)
Lemma key_eqb_compat (a b c : key) :
  key_eqb a b = true -> key_eqb a c = key_eqb b c.
Proof.
  intro H. destruct (key_eqb b c) eqn:E.
  - eapply key_eqb_trans; eauto.
  - destruct (key_eqb a c) eqn:F; [|reflexivity].
    rewrite key_eqb_sym in H. rewrite <- E. symmetry.
    eapply key_eqb_trans; eauto.
Qed.

Lemma seen_has_compat (seen : list key) (a b : key) :
  key_eqb a b = true -> seen_has seen a = seen_has seen b.
Proof.
  intro H. unfold seen_has. induction seen as [|k seen IH]; simpl; [reflexivity|].
  rewrite IH. f_equal. apply key_eqb_compat. exact H.
Qed.

Lemma dedupe_loop_from (flights : list FlightData) :
  forall seen unique,
    dedupe_loop flights seen unique = unique ++ dedupe_from seen flights.
Proof.
  induction flights as [|f rest IH]; intros seen unique; simpl.
  - now rewrite app_nil_r.
  - destruct (seen_has seen (flight_key f)).
    + apply IH.
    + rewrite IH, <- app_assoc. reflexivity.
Qed.

Lemma dedupe_is_from (flights : list FlightData) : dedupe flights = dedupe_from [] flights.
Proof. unfold dedupe. now rewrite dedupe_loop_from. Qed.

Lemma dedupe_from_first (flights : list FlightData) :
  forall seen earlier,
    stands_for seen earlier ->
    dedupe_from seen flights = first_of_each_key earlier flights.
Proof.
  induction flights as [|f rest IH]; intros seen earlier Hs; simpl; [reflexivity|].
  rewrite (Hs (flight_key f)). fold (same_key f).
  change (fun g => key_eqb (flight_key f) (flight_key g)) with (same_key f).
  destruct (existsb (same_key f) earlier) eqn:E.
  - apply IH. intro k. simpl.
    destruct (key_eqb k (flight_key f)) eqn:K; simpl; [|apply Hs].
    rewrite (seen_has_compat seen _ _ K), (Hs (flight_key f)). exact E.
  - f_equal. apply IH. intro k. simpl. now rewrite Hs.
Qed.

Lemma dedupe_from_idem (flights : list FlightData) :
  forall seen, dedupe_from seen (dedupe_from seen flights) = dedupe_from seen flights.
Proof.
  induction flights as [|f rest IH]; intro seen; simpl; [reflexivity|].
  destruct (seen_has seen (flight_key f)) eqn:E.
  - apply IH.
  - simpl. rewrite E. f_equal. apply IH.
Qed.

End Dedupe.

(** The loop equals the filter of the specification. *)
Lemma dedupe_first (X : list FlightData) : dedupe X = first_of_each_key [] X.
Proof.
  rewrite dedupe_is_from. apply dedupe_from_first. intro k. reflexivity.
Qed.

(** Deduplication keeps a record of every key of its input. *)
Lemma dedupe_from_keeps (flights : list FlightData) (f : FlightData) :
  forall seen,
    In f flights ->
    seen_has seen (flight_key f) = true \/
    exists g, In g (dedupe_from seen flights) /\ same_key f g = true.
Proof.
  induction flights as [|x rest IH]; intros seen H; [contradiction|].
  simpl. destruct H as [->|H].
  - destruct (seen_has seen (flight_key f)) eqn:E; [left; reflexivity|].
    right. exists f. split; [left; reflexivity|]. apply key_eqb_refl.
  - destruct (seen_has seen (flight_key x)) eqn:E.
    + apply IH. exact H.
    + destruct (IH (flight_key x :: seen) H) as [S|(g & Hg & Hk)].
      * simpl in S. apply orb_true_iff in S. destruct S as [S|S]; [|left; exact S].
        right. exists x. split; [left; reflexivity|exact S].
      * right. exists g. split; [right; exact Hg|exact Hk].
Qed.

Lemma dedupe_from_subset (flights : list FlightData) (g : FlightData) :
  forall seen, In g (dedupe_from seen flights) -> In g flights.
Proof.
  induction flights as [|f rest IH]; intros seen H; [contradiction|].
  simpl in H. destruct (seen_has seen (flight_key f)).
  - right. exact (IH _ H).
  - destruct H as [H|H]; [left; exact H | right; exact (IH _ H)].
Qed.

(** The records kept have keys that were not seen, and no two share a key. *)
Lemma dedupe_from_distinct (flights : list FlightData) :
  forall seen,
    Forall (fun g => seen_has seen (flight_key g) = false) (dedupe_from seen flights) /\
    ForallOrdPairs (fun f g => same_key f g = false) (dedupe_from seen flights).
Proof.
  induction flights as [|f rest IH]; intro seen; simpl.
  - split; constructor.
  - destruct (seen_has seen (flight_key f)) eqn:E; [apply IH|].
    destruct (IH (flight_key f :: seen)) as [Hfree Hpairs].
    assert (Hboth : Forall (fun g => key_eqb (flight_key g) (flight_key f) = false
                                     /\ seen_has seen (flight_key g) = false)
                           (dedupe_from (flight_key f :: seen) rest)).
    { eapply Forall_impl; [|exact Hfree]. intros g Hg. simpl in Hg.
      apply orb_false_iff in Hg. exact Hg. }
    split.
    + constructor; [exact E|].
      eapply Forall_impl; [|exact Hboth]. intros g [_ Hg]. exact Hg.
    + constructor; [|exact Hpairs].
      eapply Forall_impl; [|exact Hboth]. intros g [Hg _].
      unfold same_key. rewrite key_eqb_sym. exact Hg.
Qed.

(** C8. For every list of records X, deduplication by the key (points
    required, cash price, departure time) keeps exactly the first record of
    each key, in the order of X: a record is kept exactly when no record before
    it in X has its key. So the records kept are records of X, no two of them
    share a key, and every record of X has its key among them. And
    deduplication is idempotent. *)
Theorem dedupe_first_seen_idempotent (X : list FlightData) :
  dedupe X = first_of_each_key [] X /\
  (forall g, In g (dedupe X) -> In g X) /\
  ForallOrdPairs (fun f g => same_key f g = false) (dedupe X) /\
  (forall f, In f X -> exists g, In g (dedupe X) /\ same_key f g = true) /\
  dedupe (dedupe X) = dedupe X.
Proof.
  split; [apply dedupe_first|].
  rewrite !dedupe_is_from.
  split; [intro g; apply dedupe_from_subset|].
  split; [apply dedupe_from_distinct|].
  split; [|apply dedupe_from_idem].
  intros f Hf.
  destruct (dedupe_from_keeps X f [] Hf) as [S|H]; [discriminate S|exact H].
Qed.

(** ** What a match consumes *)

Section RegexSound.

Variable P : ascii -> bool.
Variable A : Type.

Lemma all_chars_app (m1 m2 : string) :
  all_chars P (m1 ++ m2) = all_chars P m1 && all_chars P m2.
Proof.
  induction m1 as [|c m1 IH]; simpl; [reflexivity|].
  now rewrite IH, andb_assoc.
Qed.

Lemma append_assoc (a b c : string) : ((a ++ b) ++ c = a ++ (b ++ c))%string.
Proof. induction a as [|x a IH]; simpl; [reflexivity|]. now rewrite IH. Qed.

Lemma consumed_nothing (s : string) (k : string -> option A) (a : A) :
  k s = Some a -> consumed P s k a.
Proof. intro H. exists EmptyString, s. repeat split; auto. Qed.

Lemma consumed_then (s : string) (k k' : string -> option A) (a : A) :
  consumed P s k' a ->
  (forall s1, k' s1 = Some a -> consumed P s1 k a) ->
  consumed P s k a.
Proof.
  intros (m1 & s1 & -> & H1 & K1) Hk.
  destruct (Hk s1 K1) as (m2 & s2 & -> & H2 & K2).
  exists (m1 ++ m2)%string, s2. repeat split; auto.
  - now rewrite append_assoc.
  - rewrite all_chars_app, H1, H2. reflexivity.
Qed.

Lemma run_consumed (r : Re.regex) :
  classes_in P r ->
  forall s (k : string -> option A) a, Re.run r s k = Some a -> consumed P s k a.
Proof.
  induction r as [|p|r1 IH1 r2 IH2|r1 IH1|r1 IH1|n r1 IH1|n r1 IH1]; intros Hc s k a; simpl.
  - apply consumed_nothing.
  - destruct s as [|c s']; [discriminate|].
    destruct (p c) eqn:E; [|discriminate]. intro H.
    exists (String c EmptyString), s'. simpl in Hc.
    repeat split; auto. simpl. now rewrite (Hc c E).
  - destruct Hc as [Hc1 Hc2]. intro H.
    apply (consumed_then s k _ a (IH1 Hc1 _ _ _ H)).
    intros s1 H1. exact (IH2 Hc2 _ _ _ H1).
  - simpl in Hc. destruct (Re.run r1 s k) eqn:E.
    + intro H. inversion H; subst. exact (IH1 Hc _ _ _ E).
    + apply consumed_nothing.
  - simpl in Hc. generalize (String.length s) as fuel. intro fuel. revert s.
    induction fuel as [|fuel IHf]; intro s.
    + apply consumed_nothing.
    + match goal with
      | |- match ?x with _ => _ end = _ -> _ => destruct x eqn:E
      end.
      * intro H. inversion H; subst.
        apply (consumed_then s k _ a (IH1 Hc _ _ _ E)).
        intros s1 H1.
        destruct (String.length s1 <? String.length s)%nat; [|discriminate].
        exact (IHf s1 H1).
      * apply consumed_nothing.
  - simpl in Hc. revert s.
    induction n as [|n IHn]; intro s.
    + apply consumed_nothing.
    + match goal with
      | |- match ?x with _ => _ end = _ -> _ => destruct x eqn:E
      end.
      * intro H. inversion H; subst.
        apply (consumed_then s k _ a (IH1 Hc _ _ _ E)).
        intros s1 H1. exact (IHn s1 H1).
      * apply consumed_nothing.
  - simpl in Hc. revert s.
    induction n as [|n IHn]; intro s.
    + apply consumed_nothing.
    + intro H.
      apply (consumed_then s k _ a (IH1 Hc _ _ _ H)).
      intros s1 H1. exact (IHn s1 H1).
Qed.

End RegexSound.

(** ** The money token and its value *)

Lemma length_append (a b : string) :
  String.length (a ++ b) = (String.length a + String.length b)%nat.
Proof. induction a as [|c a IH]; simpl; [reflexivity|]. now rewrite IH. Qed.

Lemma substring_prefix (m s : string) :
  String.substring 0 (String.length m) (m ++ s) = m.
Proof.
  induction m as [|c m IH]; simpl.
  - destruct s; reflexivity.
  - now rewrite IH.
Qed.

(** The group of a match is made of the classes of the group's pattern. *)
Lemma match_here_group (P : ascii -> bool) (pre grp : Re.regex) (s g : string) :
  classes_in P grp ->
  Re.match_here pre grp s = Some g ->
  all_chars P g = true.
Proof.
  intros Hc H. unfold Re.match_here in H.
  apply (run_consumed (fun _ => true) string pre) in H.
  2:{ clear. induction pre; simpl; auto. }
  destruct H as (m0 & s1 & _ & _ & H).
  apply (run_consumed P string grp Hc) in H.
  destruct H as (m & s2 & -> & Hm & H).
  inversion H; subst.
  rewrite length_append.
  replace (String.length m + String.length s2 - String.length s2)%nat
    with (String.length m) by lia.
  now rewrite substring_prefix.
Qed.

Lemma search_group (P : ascii -> bool) (pre grp : Re.regex) (s g : string) :
  classes_in P grp ->
  Re.search pre grp s = Some g ->
  all_chars P g = true.
Proof.
  intros Hc. induction s as [|c s IH]; simpl.
  - destruct (Re.match_here pre grp EmptyString) eqn:E; [|discriminate].
    intro H. inversion H; subst. exact (match_here_group P pre grp _ _ Hc E).
  - destruct (Re.match_here pre grp (String c s)) eqn:E; [|exact IH].
    intro H. inversion H; subst. exact (match_here_group P pre grp _ _ Hc E).
Qed.

Lemma money_group_classes : classes_in money_char money_group.
Proof.
  unfold money_group, Re.Plus. cbn [classes_in].
  repeat split; intros c H; unfold money_char, is_digit_or_comma in *;
    rewrite ?(Ascii.eqb_sym c "."), ?H, ?orb_true_r; reflexivity.
Qed.

Lemma has_char_lstrip (c : ascii) (s : string) :
  Py.has_char c s = false -> Py.has_char c (Py.lstrip s) = false.
Proof.
  induction s as [|d s IH]; simpl; [auto|].
  intro H. apply orb_false_iff in H. destruct H as [H1 H2].
  destruct (Py.is_space d); [auto|]. simpl. now rewrite H1, H2.
Qed.

Lemma has_char_rstrip (c : ascii) (s : string) :
  Py.has_char c s = false -> Py.has_char c (Py.rstrip s) = false.
Proof.
  induction s as [|d s IH]; simpl; [auto|].
  intro H. apply orb_false_iff in H. destruct H as [H1 H2].
  specialize (IH H2).
  destruct (Py.rstrip s) as [|e r].
  - destruct (Py.is_space d); simpl; [reflexivity|]. now rewrite H1.
  - simpl in *. now rewrite H1, IH.
Qed.

Lemma has_char_remove (c d : ascii) (s : string) :
  Py.has_char c s = false -> Py.has_char c (Py.remove_char d s) = false.
Proof.
  induction s as [|e s IH]; simpl; [auto|].
  intro H. apply orb_false_iff in H. destruct H as [H1 H2].
  destruct (Ascii.eqb d e); simpl; [auto|]. now rewrite H1, IH.
Qed.

Lemma money_chars_no_minus (s : string) :
  all_chars money_char s = true -> Py.has_char "-" s = false.
Proof.
  induction s as [|c s IH]; cbn [all_chars Py.has_char]; [reflexivity|].
  intro H. apply andb_true_iff in H. destruct H as [H1 H2].
  rewrite (IH H2), orb_false_r.
  destruct (Ascii.eqb "-" c) eqn:E; [|reflexivity].
  apply Ascii.eqb_eq in E. subst c. discriminate H1.
Qed.

Lemma digit_value_nonneg (c : ascii) : Py.is_digit c = true -> 0 <= Py.digit_value c.
Proof.
  unfold Py.is_digit, Py.digit_value. intro H.
  apply andb_true_iff in H. destruct H as [H _].
  apply Nat.leb_le in H. lia.
Qed.

Lemma digitpart_nonneg (s : string) :
  forall acc cnt, 0 <= acc -> 0 <= fst (fst (Py.digitpart s acc cnt)).
Proof.
  induction s as [|c s IH]; intros acc cnt Ha; cbn [Py.digitpart]; [exact Ha|].
  destruct (Py.is_digit c) eqn:D.
  - apply IH. pose proof (digit_value_nonneg c D). lia.
  - destruct (Ascii.eqb c "_"); [|exact Ha].
    destruct cnt as [|cnt]; [exact Ha|].
    destruct s as [|d s']; [exact Ha|].
    destruct (Py.is_digit d) eqn:D'; [|exact Ha].
    apply IH. exact Ha.
Qed.

(** [float] of a text without a minus sign is not negative. *)
Lemma float_nonneg (s : string) (q : Q) :
  Py.has_char "-" s = false -> Py.float s = Ok q -> (0 <= q)%Q.
Proof.
  intros Hs. unfold Py.float.
  assert (Hm : Py.has_char "-" (Py.strip s) = false)
    by (apply has_char_rstrip, has_char_lstrip, Hs).
  assert (Hn : Py.sign (Py.strip s) = (false, snd (Py.sign (Py.strip s)))).
  { destruct (Py.strip s) as [|c r]; [reflexivity|].
    simpl in Hm. apply orb_false_iff in Hm. destruct Hm as [Hm _].
    unfold Py.sign.
    destruct c as [[] [] [] [] [] [] [] []]; try reflexivity.
    discriminate Hm. }
  rewrite Hn. set (s1 := snd (Py.sign (Py.strip s))).
  destruct (String.eqb (Py.lower s1) "inf" || String.eqb (Py.lower s1) "infinity").
  { intro H. assert (E : q = Py.pow2 1024) by congruence.
    rewrite E. apply Qlt_le_weak, pow2_pos. }
  pose proof (digitpart_nonneg s1 0 0 (Z.le_refl 0)) as Hip.
  destruct (Py.digitpart s1 0 0) as [[ip icnt] s2]. simpl in Hip.
  assert (Hfp : forall r, 0 <= fst (fst (Py.digitpart r 0 0)))
    by (intro r; apply digitpart_nonneg; lia).
  set (frac := match s2 with
               | String "." r => Py.digitpart r 0 0
               | _ => (0, 0%nat, s2)
               end).
  assert (Hf : 0 <= fst (fst frac)).
  { unfold frac. destruct s2 as [|c r]; simpl; [lia|].
    destruct c as [[] [] [] [] [] [] [] []]; simpl; try lia. apply Hfp. }
  destruct frac as [[fp fcnt] s3]. simpl in Hf.
  destruct (Py.exponent s3) as [ex s4].
  destruct (icnt + fcnt)%nat; [discriminate|].
  destruct s4; [|discriminate].
  intro H. inversion H; subst.
  apply binary64_nonneg, Qmult_le_0_compat.
  - change 0%Q with (inject_Z 0). rewrite <- Zle_Qle.
    assert (0 <= 10 ^ Z.of_nat fcnt) by (apply Z.pow_nonneg; lia). nia.
  - apply Qpower_0_le. discriminate.
Qed.

(** The cash price that [parse_money] reads is never negative. *)
Lemma parse_money_nonneg (text : option string) (q : Q) :
  parse_money text = Ok q -> (0 <= q)%Q.
Proof.
  unfold parse_money.
  destruct text as [t|]; [|intro H; inversion H; apply Qle_refl].
  destruct t as [|c t]; [intro H; inversion H; apply Qle_refl|].
  destruct (Re.search money_prefix money_group (String c t)) as [g|] eqn:E;
    [|intro H; inversion H; apply Qle_refl].
  apply float_nonneg.
  apply has_char_remove, money_chars_no_minus.
  exact (search_group money_char _ _ _ _ money_group_classes E).
Qed.

(** ** The extractor *)

Section Extractor.

Variable config : ScraperConfig.

Lemma scrape_buttons_acc (buttons : list button) :
  forall i flights,
    scrape_buttons config i buttons flights
    = flights ++ scrape_buttons config i buttons [].
Proof.
  induction buttons as [|b rest IH]; intros i flights; simpl.
  - now rewrite app_nil_r.
  - destruct (scrape_button config i b) as [[f|]|e]; try apply IH.
    rewrite IH, (IH _ [f]), <- app_assoc. reflexivity.
Qed.

Lemma scrape_buttons_cons (i : nat) (b : button) (rest : list button) :
  scrape_buttons config i (b :: rest) []
  = emitted config i b ++ scrape_buttons config (S i) rest [].
Proof.
  unfold emitted. simpl.
  destruct (scrape_button config i b) as [[f|]|e]; try reflexivity.
  now rewrite scrape_buttons_acc.
Qed.

Lemma scrape_buttons_app (pre post : list button) :
  forall i,
    scrape_buttons config i (pre ++ post) []
    = scrape_buttons config i pre []
      ++ scrape_buttons config (i + List.length pre) post [].
Proof.
  induction pre as [|b pre IH]; intro i.
  - simpl. now rewrite Nat.add_0_r.
  - rewrite <- app_comm_cons, !scrape_buttons_cons, IH, <- app_assoc.
    simpl List.length. now rewrite Nat.add_succ_r.
Qed.

(** When the call of [calculate_cpp] returns, it returns its value. *)
Lemma calculate_cpp_call_ok (cash taxes r : Q) (points : Z) :
  calculate_cpp_call cash points taxes = Ok r -> r = calculate_cpp cash points taxes.
Proof.
  unfold calculate_cpp_call.
  destruct (0 <? points); [|intro H; now injection H].
  destruct (Py.float_of_int points); [|discriminate].
  cbn [bind]. intro H. now injection H.
Qed.

(** What holds of a flight that a button adds. *)
Lemma scrape_button_some (i : nat) (b : button) (f : FlightData) :
  scrape_button config i b = Ok (Some f) ->
  date_elem b <> None /\
  parse_points (Some (text_or EmptyString (points_elem b))) = Ok (points_required f) /\
  parse_money (Some (text_or EmptyString (cash_elem b))) = Ok (cash_price_usd f) /\
  Py.truthy_float (cash_price_usd f) || Py.truthy_int (points_required f) = true /\
  taxes_fees_usd f = default_taxes config /\
  cpp f = calculate_cpp (cash_price_usd f) (points_required f) (default_taxes config) /\
  flight_number f = text_or (String.append "AA_" (Py.str_of_nat i)) (fn_elem b).
Proof.
  unfold scrape_button.
  destruct (date_elem b) as [d|]; [|discriminate].
  destruct (parse_points _) as [pts|e]; [|discriminate].
  destruct (parse_money _) as [cash|e]; [|discriminate].
  cbn [bind].
  destruct (calculate_cpp_call cash pts (default_taxes config)) as [r|e] eqn:Ec;
    [|discriminate].
  apply calculate_cpp_call_ok in Ec. subst r. cbn [bind].
  destruct (Py.truthy_float cash || Py.truthy_int pts) eqn:T; [|discriminate].
  intro H. inversion H; subst; clear H. cbn.
  repeat split; auto. discriminate.
Qed.

Lemma in_scrape_buttons (buttons : list button) (f : FlightData) :
  forall i,
    In f (scrape_buttons config i buttons []) ->
    exists k b, nth_error buttons k = Some b
                /\ scrape_button config (i + k) b = Ok (Some f).
Proof.
  induction buttons as [|b rest IH]; intros i H; [contradiction|].
  rewrite scrape_buttons_cons in H. apply in_app_or in H. destruct H as [H|H].
  - exists 0%nat, b. rewrite Nat.add_0_r. split; [reflexivity|].
    unfold emitted in H.
    destruct (scrape_button config i b) as [[g|]|e]; try contradiction.
    destruct H as [->|[]]. reflexivity.
  - destruct (IH _ H) as (k & b' & Hk & Hb).
    exists (S k), b'. split; [exact Hk|].
    now rewrite Nat.add_succ_r.
Qed.

Lemma in_extract (buttons : list button) (f : FlightData) :
  In f (extract config buttons) ->
  exists k b, nth_error buttons k = Some b
              /\ scrape_button config (S k) b = Ok (Some f).
Proof. apply in_scrape_buttons. Qed.

End Extractor.

Lemma truthy_float_true (x : Q) : Py.truthy_float x = true <-> ~ (x == 0)%Q.
Proof.
  unfold Py.truthy_float. rewrite negb_true_iff.
  split; intro H.
  - intro E. apply Qeq_bool_iff in E. congruence.
  - destruct (Qeq_bool x 0) eqn:E; [|reflexivity].
    apply Qeq_bool_iff in E. contradiction.
Qed.

Lemma truthy_int_true (n : Z) : Py.truthy_int n = true <-> n <> 0.
Proof.
  unfold Py.truthy_int. rewrite negb_true_iff. apply Z.eqb_neq.
Qed.

(** ** C7: no record without price and points *)

(** C7. The extractor keeps a record that has neither a cash price nor points
    greater than 0: a card whose points text is -1k and that shows no cash
    price gives a record with cash price 0 and points required -1000. The
    branch of [parse_points] for a text with a k lets the minus sign through
    to [float]; the branch without k reads -12 as 12. *)
Theorem extract_keeps_negative_points :
  parse_points (Some "-1k"%string) = Ok (-1000) /\
  parse_points (Some "-12"%string) = Ok 12 /\
  exists f,
    extract default_config [card (Some "-1k"%string) None None] = [f] /\
    (cash_price_usd f == 0)%Q /\ points_required f = -1000 /\
    ~ ((0 < cash_price_usd f)%Q \/ 0 < points_required f).
Proof.
  split; [vm_compute; reflexivity|]. split; [vm_compute; reflexivity|].
  eexists. split; [vm_compute; reflexivity|].
  cbn [cash_price_usd points_required].
  split; [reflexivity|]. split; [reflexivity|].
  intros [H|H]; [|lia]. revert H. apply Qlt_irrefl.
Qed.

(** X23. For every input document, no record of the extractor's output has
    cash price = 0 and points required = 0: a record is emitted only if its
    cash price is greater than 0 or its points required are not 0. *)
Theorem extract_never_zero_zero (config : ScraperConfig) (buttons : list button)
  (f : FlightData) :
  In f (extract config buttons) ->
  ~ ((cash_price_usd f == 0)%Q /\ points_required f = 0) /\
  ((0 < cash_price_usd f)%Q \/ points_required f <> 0).
Proof.
  intro H. apply in_extract in H. destruct H as (k & b & _ & H).
  apply scrape_button_some in H.
  destruct H as (_ & _ & Hm & Ht & _).
  apply parse_money_nonneg in Hm.
  apply orb_true_iff in Ht.
  rewrite truthy_float_true, truthy_int_true in Ht.
  split.
  - intros [Hc Hp]. destruct Ht as [Ht|Ht]; contradiction.
  - destruct Ht as [Ht|Ht]; [left|right; exact Ht].
    apply Qle_lteq in Hm. destruct Hm as [Hm|Hm]; [exact Hm|].
    exfalso. apply Ht. symmetry. exact Hm.
Qed.

Lemma extract_never_zero_zero_witness :
  exists f,
    In f (extract default_config [card (Some "45k"%string) None None]) /\
    points_required f = 45000 /\
    (~ ((cash_price_usd f == 0)%Q /\ points_required f = 0) /\
     ((0 < cash_price_usd f)%Q \/ points_required f <> 0)).
Proof.
  destruct (extract default_config [card (Some "45k"%string) None None])
    as [|f rest] eqn:E; [vm_compute in E; discriminate E|].
  exists f.
  assert (H : In f (extract default_config [card (Some "45k"%string) None None]))
    by (rewrite E; left; reflexivity).
  split; [rewrite <- E; exact H|].
  split; [vm_compute in E; injection E as <- _; reflexivity|].
  exact (extract_never_zero_zero default_config _ f H).
Defined.

(** ** C9: the fallback flight number *)

Local Open Scope string_scope.

(** C9 as stated fails: in a document of a node without a date followed by a
    card without a flight number, the card is the first processed node, and
    its flight number is AA_2, not UNKNOWN_1. *)
Lemma fallback_is_not_unknown :
  map flight_number
      (extract default_config [no_date_node; card (Some "45k") None None])
  = ["AA_2"] /\
  ~ In "UNKNOWN_1"
       (map flight_number
            (extract default_config [no_date_node; card (Some "45k") None None])).
Proof.
  assert (E : map flight_number
                (extract default_config [no_date_node; card (Some "45k") None None])
              = ["AA_2"]) by (vm_compute; reflexivity).
  split; [exact E|]. rewrite E. intros [H|[]]. discriminate H.
Qed.

(** C9, amended. For every fare-card node whose flight-number field is absent,
    the extractor assigns the fallback flight number AA_{index}, where index is
    the 1-based position of the node among all fare-card nodes of the document,
    those skipped for a missing date included. *)
Theorem fallback_flight_number (config : ScraperConfig) (pre post : list button)
  (b : button) :
  fn_elem b = None ->
  let index := S (List.length pre) in
  extract config (pre ++ b :: post)%list
  = (extract config pre ++ emitted config index b
     ++ scrape_buttons config (S index) post [])%list /\
  forall f, In f (emitted config index b) ->
            flight_number f = "AA_" ++ Py.str_of_nat index.
Proof.
  intros Hfn index. split.
  - unfold extract. rewrite scrape_buttons_app, scrape_buttons_cons. reflexivity.
  - intros f H. unfold emitted in H.
    destruct (scrape_button config index b) as [[g|]|e] eqn:E; try contradiction.
    destruct H as [->|[]].
    apply scrape_button_some in E.
    destruct E as (_ & _ & _ & _ & _ & _ & E).
    rewrite E, Hfn. reflexivity.
Qed.

Lemma fallback_flight_number_witness :
  fn_elem (card (Some "45k") None None) = None /\
  (extract default_config ([no_date_node] ++ card (Some "45k") None None :: [])%list
   = (extract default_config [no_date_node]
      ++ emitted default_config 2 (card (Some "45k") None None)
      ++ scrape_buttons default_config 3 [] [])%list /\
   forall f, In f (emitted default_config 2 (card (Some "45k") None None)) ->
             flight_number f = "AA_" ++ Py.str_of_nat 2).
Proof.
  split; [reflexivity|].
  exact (fallback_flight_number default_config [no_date_node] []
           (card (Some "45k") None None) eq_refl).
Defined.

Local Close Scope string_scope.

(** ** C10: records whose value ratio is not positive *)

Lemma round_half_even_below (x : Q) : (x < - (1 # 2))%Q -> Py.round_half_even x <= -1.
Proof.
  intro Hx. pose proof (round_half_even_near x) as H.
  apply Qabs_Qle_condition in H. destruct H as [_ H].
  assert (L : (inject_Z (Py.round_half_even x) < inject_Z 0)%Q).
  { change (inject_Z 0) with 0%Q. lra. }
  rewrite <- Zlt_Qlt in L. lia.
Qed.

Lemma round_half_even_none (x : Q) :
  (- (1 # 2) <= x)%Q -> (x <= 1 # 2)%Q -> Py.round_half_even x = 0.
Proof.
  intros H1 H2.
  pose proof (round_half_even_mono _ _ H1) as L.
  pose proof (round_half_even_mono _ _ H2) as U.
  change (Py.round_half_even (- (1 # 2))) with 0 in L.
  change (Py.round_half_even (1 # 2)) with 0 in U. lia.
Qed.

(** [round(x, 2)] is negative exactly below minus half a hundredth. *)
Lemma round2_negative (x : Q) :
  ((x < - (1 # 200))%Q -> (Py.round2 x < 0)%Q) /\
  ((- (1 # 200) <= x)%Q -> (x <= 0)%Q -> (Py.round2 x == 0)%Q).
Proof.
  unfold Py.round2. split.
  - intro H.
    assert (L : Py.round_half_even (x * 100) <= -1) by (apply round_half_even_below; lra).
    assert (B : (Py.binary64 (-1 # 100) < 0)%Q) by (vm_compute; reflexivity).
    pose proof (binary64_mono _ _ (hundredths_mono _ _ L)). lra.
  - intros H1 H2.
    rewrite (round_half_even_none (x * 100)) by lra.
    apply binary64_zero. reflexivity.
Qed.

(** With points and a cash price below the taxes the ratio is never positive;
    it is negative exactly when the ratio computed before the rounding to 2
    decimals is below minus half a hundredth, and 0 otherwise. *)
Lemma calculate_cpp_nonpos (cash taxes : Q) (points : Z) :
  0 < points -> (cash < taxes)%Q ->
  (calculate_cpp cash points taxes <= 0)%Q /\
  ((ratio cash points taxes < - (1 # 200))%Q -> (calculate_cpp cash points taxes < 0)%Q) /\
  ((- (1 # 200) <= ratio cash points taxes)%Q -> (calculate_cpp cash points taxes == 0)%Q).
Proof.
  intros Hp Hc. unfold calculate_cpp.
  replace (0 <? points) with true by (symmetry; apply Z.ltb_lt; exact Hp).
  pose proof (ratio_nonpos cash taxes points Hp ltac:(lra)) as R.
  destruct (round2_negative (ratio cash points taxes)) as [N Z0].
  split; [apply round2_nonpos_le; exact R|].
  split; [exact N | intro H; apply Z0; assumption].
Qed.

(** An exact ratio of minus a hundredth or less gives a negative value. *)
Lemma calculate_cpp_negative (cash taxes : Q) (points : Z) :
  0 < points <= 2 ^ 53 ->
  (Py.pow2 (-900) <= taxes - cash)%Q ->
  ((cash - taxes) / inject_Z points * 100 <= - (1 # 100))%Q ->
  (calculate_cpp cash points taxes < 0)%Q.
Proof.
  intros Hp Hd He.
  pose proof (pow2_pos (-900)) as P.
  destruct (calculate_cpp_nonpos cash taxes points ltac:(lia) ltac:(lra)) as (_ & N & _).
  apply N.
  pose proof (ratio_error cash taxes points Hp) as R. cbv zeta in R.
  specialize (R ltac:(right; rewrite Qabs_neg by lra; lra)).
  set (exact := ((cash - taxes) / inject_Z points * 100)%Q) in *.
  rewrite (Qabs_neg exact) in R by lra.
  apply Qabs_Qle_condition in R.
  assert (U : (Py.pow2 (-51) <= 1 # 4)%Q) by (vm_compute; discriminate).
  pose proof (pow2_pos (-51)) as P51.
  revert R U P51. generalize (Py.pow2 (-51)) (ratio cash points taxes).
  clearbody exact. intros u r R U P51. nra.
Qed.

Lemma fold_pick_in (A : Type) (pick : A -> A -> bool) (rest : list A) :
  forall first,
    In (fold_left (fun best x => if pick best x then x else best) rest first)
       (first :: rest).
Proof.
  induction rest as [|x rest IH]; intro first; simpl; [auto|].
  destruct (pick first x).
  - right. apply IH.
  - destruct (IH first) as [H|H]; [left; exact H | right; right; exact H].
Qed.

(** The best value is a flight of the list, of positive ratio. *)
Lemma best_value_positive (unique_flights : list FlightData) (best : FlightData) :
  best_value unique_flights = Some best ->
  In best unique_flights /\ (0 < cpp best)%Q.
Proof.
  unfold best_value.
  destruct (valid_flights unique_flights) as [|f rest] eqn:E; [discriminate|].
  intro H. injection H as Hb. subst best.
  pose proof (fold_pick_in _ (fun best x => Qltb (cpp best) (cpp x)) rest f) as Hin.
  cbv beta in Hin. rewrite <- E in Hin.
  unfold valid_flights in Hin. apply filter_In in Hin.
  destruct Hin as [Hin Hpos]. split; [exact Hin|].
  apply Qltb_lt. exact Hpos.
Qed.

(** A record is kept when no record before it has its key. *)
Lemma first_of_each_key_first (f : FlightData) (before after : list FlightData) :
  forall earlier,
    existsb (same_key f) earlier = false ->
    existsb (same_key f) before = false ->
    In f (first_of_each_key earlier (before ++ f :: after)).
Proof.
  induction before as [|x before IH]; intros earlier He Hb; simpl.
  - rewrite He. left. reflexivity.
  - simpl in Hb. apply orb_false_iff in Hb. destruct Hb as [Hx Hb].
    assert (H : In f (first_of_each_key (x :: earlier) (before ++ f :: after))).
    { apply IH; [|exact Hb]. simpl. now rewrite Hx, He. }
    destruct (existsb (same_key x) earlier); [exact H | right; exact H].
Qed.

(** C10 as stated fails: a card of 200k points without a cash price has
    points > 0 and cash price 0 below the taxes of 5.60, and its value ratio,
    -0.0028 before rounding, is 0 and not strictly negative. *)
Lemma rounded_ratio_is_not_negative :
  exists f,
    extract default_config [card (Some "200k"%string) None None] = [f] /\
    0 < points_required f /\
    (cash_price_usd f < taxes_fees_usd f)%Q /\
    (cpp f == 0)%Q /\
    ~ (cpp f < 0)%Q.
Proof.
  destruct (extract default_config [card (Some "200k"%string) None None])
    as [|f rest] eqn:E; [vm_compute in E; discriminate E|].
  exists f.
  assert (F : rest = [] /\ points_required f = 200000 /\ (cash_price_usd f == 0)%Q /\
              (0 < taxes_fees_usd f)%Q /\ (cpp f == 0)%Q).
  { vm_compute in E. injection E as <- <-. vm_compute. repeat split; discriminate. }
  destruct F as (-> & F1 & F2 & F3 & F4).
  split; [reflexivity|]. split; [lia|]. split; [lra|]. split; [exact F4 | lra].
Qed.

(** C10, amended. For every fare card with a date whose points text parses to
    points > 0 (that make a float, as the division needs) and whose cash
    text parses to a cash price below the taxes (cash = 0 with points
    present, say), the value ratio is never positive: it is strictly negative
    when the ratio computed before the rounding to 2 decimals is below -0.005,
    as it is when the exact ratio is -0.01 or less, and it is 0 otherwise.
    The record passes the retention filter, is in the extractor's output, and
    the persisted, deduplicated output holds a record of its key (the record
    itself when no earlier record has its key); and the best value, which is
    taken among the records of ratio > 0, is never such a record. *)
Theorem below_taxes_records (config : ScraperConfig) (pre post : list button)
  (b : button) (points : Z) (cash : Q) :
  date_elem b <> None ->
  parse_points (Some (text_or EmptyString (points_elem b))) = Ok points ->
  parse_money (Some (text_or EmptyString (cash_elem b))) = Ok cash ->
  0 < points ->
  Py.float_of_int points = Ok (Py.binary64 (inject_Z points)) ->
  (cash < default_taxes config)%Q ->
  let flights := extract config (pre ++ b :: post) in
  exists f,
    emitted config (S (List.length pre)) b = [f] /\
    points_required f = points /\
    cash_price_usd f = cash /\
    taxes_fees_usd f = default_taxes config /\
    cpp f = calculate_cpp cash points (default_taxes config) /\
    (cpp f <= 0)%Q /\
    ((ratio cash points (default_taxes config) < - (1 # 200))%Q -> (cpp f < 0)%Q) /\
    ((- (1 # 200) <= ratio cash points (default_taxes config))%Q -> (cpp f == 0)%Q) /\
    (points <= 2 ^ 53 ->
     (Py.pow2 (-900) <= default_taxes config - cash)%Q ->
     ((cash - default_taxes config) / inject_Z points * 100 <= - (1 # 100))%Q ->
     (cpp f < 0)%Q) /\
    In f flights /\
    (exists g, In g (dedupe flights) /\ same_key f g = true) /\
    (existsb (same_key f) (extract config pre) = false -> In f (dedupe flights)) /\
    (forall best, best_value (dedupe flights) = Some best ->
                  (0 < cpp best)%Q /\ best <> f).
Proof.
  intros Hd Hp Hm Hpos Hfloat Hlow flights.
  destruct (calculate_cpp_nonpos cash (default_taxes config) points
              ltac:(lia) Hlow) as (Hle & Hlt & Hz).
  assert (E : exists f,
             emitted config (S (List.length pre)) b = [f] /\
             points_required f = points /\ cash_price_usd f = cash /\
             taxes_fees_usd f = default_taxes config /\
             cpp f = calculate_cpp cash points (default_taxes config)).
  { unfold emitted, scrape_button.
    destruct (date_elem b) as [d|]; [|contradiction].
    rewrite Hp, Hm. cbn [bind]. unfold calculate_cpp_call.
    replace (0 <? points) with true by (symmetry; apply Z.ltb_lt; lia).
    rewrite Hfloat. cbn [bind].
    replace (Py.truthy_int points) with true
      by (symmetry; apply truthy_int_true; lia).
    rewrite orb_true_r. eexists. split; [reflexivity|]. cbn. auto. }
  destruct E as (f & Ef & Hfp & Hfc & Hft & Hfr).
  assert (Hfl : flights
                = (extract config pre ++ f :: scrape_buttons config
                                                (S (S (List.length pre))) post [])%list).
  { unfold flights, extract.
    rewrite scrape_buttons_app, scrape_buttons_cons. cbn [Nat.add]. rewrite Ef.
    reflexivity. }
  assert (Hin : In f flights).
  { rewrite Hfl. apply in_or_app. right. left. reflexivity. }
  exists f.
  do 5 (split; [assumption|]).
  rewrite Hfr. do 3 (split; [assumption|]).
  split.
  { intros Hb Hdiff Hex.
    apply calculate_cpp_negative; [lia | exact Hdiff | exact Hex]. }
  split; [exact Hin|]. split; [|split].
  - rewrite dedupe_is_from.
    destruct (dedupe_from_keeps flights f [] Hin) as [S|H]; [discriminate S|exact H].
  - intro Hfirst.
    rewrite dedupe_first.
    rewrite Hfl. apply first_of_each_key_first; [reflexivity|exact Hfirst].
  - intros best Hb. apply best_value_positive in Hb. destruct Hb as [_ Hb].
    split; [exact Hb|]. intros ->. rewrite Hfr in Hb. lra.
Qed.

Lemma below_taxes_records_witness :
  let b := card (Some "45k"%string) None None in
  date_elem b <> None /\
  parse_points (Some (text_or EmptyString (points_elem b))) = Ok 45000 /\
  parse_money (Some (text_or EmptyString (cash_elem b))) = Ok 0%Q /\
  0 < 45000 /\
  Py.float_of_int 45000 = Ok (Py.binary64 (inject_Z 45000)) /\
  (0 < default_taxes default_config)%Q /\
  exists f,
    emitted default_config 1 b = [f] /\
    (cpp f < 0)%Q /\
    In f (dedupe (extract default_config [b])) /\
    (forall best, best_value (dedupe (extract default_config [b])) = Some best ->
                  best <> f).
Proof.
  intro b.
  assert (H1 : date_elem b <> None) by discriminate.
  assert (H2 : parse_points (Some (text_or EmptyString (points_elem b))) = Ok 45000)
    by (vm_compute; reflexivity).
  assert (H3 : parse_money (Some (text_or EmptyString (cash_elem b))) = Ok 0%Q)
    by reflexivity.
  assert (H4 : 0 < 45000) by reflexivity.
  assert (H4' : Py.float_of_int 45000 = Ok (Py.binary64 (inject_Z 45000)))
    by (apply float_of_int_ok; split; [discriminate | reflexivity]).
  assert (H5 : (0 < default_taxes default_config)%Q) by (vm_compute; reflexivity).
  do 6 (split; [assumption|]).
  destruct (below_taxes_records default_config [] [] b 45000 0 H1 H2 H3 H4 H4' H5)
    as (f & E & _ & _ & _ & _ & _ & Hlt & _ & _ & _ & _ & Hfirst & Hbest).
  exists f. split; [exact E|]. split.
  - apply Hlt. vm_compute. reflexivity.
  - split; [apply Hfirst; reflexivity|].
    intros best Hb. exact (proj2 (Hbest best Hb)).
Defined.

(** X24. A card whose points are 2 ** 1024 or more adds no record, whatever
    its cash price: making a float of the points for the division raises
    OverflowError, and the loop goes on to the next card. *)
Theorem points_beyond_doubles (config : ScraperConfig) (i : nat) (b : button)
  (points : Z) (cash : Q) :
  parse_points (Some (text_or EmptyString (points_elem b))) = Ok points ->
  parse_money (Some (text_or EmptyString (cash_elem b))) = Ok cash ->
  2 ^ 1024 <= points ->
  calculate_cpp_call cash points (default_taxes config) = Raise OverflowError /\
  emitted config i b = [].
Proof.
  intros Hp Hm Hbig.
  assert (P0 : 0 < 2 ^ 1024) by (apply Z.pow_pos_nonneg; lia).
  assert (C : calculate_cpp_call cash points (default_taxes config) = Raise OverflowError).
  { unfold calculate_cpp_call.
    replace (0 <? points) with true by (symmetry; apply Z.ltb_lt; lia).
    unfold Py.float_of_int, Py.finite.
    assert (L : (Py.pow2 1024 <= Py.binary64 (inject_Z points))%Q).
    { rewrite <- (binary64_pow2 1024) by lia. apply binary64_mono.
      rewrite (pow2_Z 1024), <- Zle_Qle by lia. exact Hbig. }
    pose proof (pow2_pos 1024) as P.
    replace (Qle_bool (Py.pow2 1024) (Qabs (Py.binary64 (inject_Z points)))) with true;
      [reflexivity|].
    symmetry. apply Qle_bool_iff. rewrite Qabs_pos; [exact L|].
    apply Qle_trans with (Py.pow2 1024); [apply Qlt_le_weak; exact P | exact L]. }
  split; [exact C|].
  unfold emitted, scrape_button.
  destruct (date_elem b) as [d|]; [|reflexivity].
  rewrite Hp, Hm. cbn [bind]. rewrite C. reflexivity.
Qed.

Lemma points_beyond_doubles_witness :
  let b := card (Some ("1" ++ blocks_text (List.repeat "000" 103))%string) None None in
  emitted default_config 1 b = [].
Proof.
  intro b.
  apply (points_beyond_doubles default_config 1 b (10 ^ 309) 0);
    [vm_compute; reflexivity | reflexivity | vm_compute; discriminate].
Defined.

(** ** C2: the retry loop *)

Section Retry.

Variable config : ScraperConfig.
Variable world : nat -> attempt_world.

Lemma scrape_choose_flights_ok (browser browser' : BrowserManager)
  (env : attempt_env) (flights : list FlightData) :
  scrape_choose_flights config browser env = (browser', Ok flights) ->
  exists p, nav env = Loaded p /\ flights = scrape_page config p.
Proof.
  unfold scrape_choose_flights.
  destruct (rate_limit config (clock env) browser) as [b1 [secs|e]];
    [|intro H; discriminate H].
  destruct (negb (driver b1)); [intro H; discriminate H|].
  destruct (nav env) as [e|p]; [intro H; discriminate H|].
  intro H. inversion H; subst. exists p. auto.
Qed.

Lemma scrape_page_nonempty (p : page) :
  nonempty (scrape_page config p) = true ->
  wait_ok p = true /\ blocked p = false /\
  scrape_page config p = extract config (flight_buttons p).
Proof.
  unfold scrape_page.
  destruct (wait_ok p); [|discriminate].
  destruct (blocked p); [discriminate|]. auto.
Qed.

Lemma dedupe_nonempty (flights : list FlightData) :
  nonempty flights = true -> dedupe flights <> [].
Proof.
  destruct flights as [|f rest]; [discriminate|].
  intros _. rewrite dedupe_is_from. simpl. discriminate.
Qed.

Lemma retry_loop_sound (todo : nat) :
  forall attempt browser log slept,
    List.length log = attempt ->
    forallb non_success log = true ->
    run_sound config world attempt (attempt + todo)
      (retry_loop config world todo attempt browser [] log slept).
Proof.
  induction todo as [|todo IH]; intros attempt browser log slept Hlen Hlog.
  - simpl. unfold run_sound. simpl. rewrite Nat.add_0_r. auto with arith.
  - assert (Step : forall browser' flights1 log1 slept',
               List.length log1 = S attempt ->
               forallb non_success log1 = true ->
               flights1 = [] ->
               run_sound config world attempt (attempt + S todo)
                 (retry_loop config world todo (S attempt) browser' flights1
                    log1 slept')).
    { intros browser' flights1 log1 slept' Hl Hn ->.
      specialize (IH (S attempt) browser' log1 slept' Hl Hn).
      rewrite Nat.add_succ_r. unfold run_sound in *.
      destruct IH as (H1 & H2 & H3). repeat split; auto; lia. }
    cbn [retry_loop].
    destruct (scrape_choose_flights config browser (fetch (world attempt)))
      as [browser1 [flights1|e]] eqn:E.
    + destruct (nonempty flights1) eqn:N.
      * apply scrape_choose_flights_ok in E. destruct E as (p & Hnav & ->).
        destruct (scrape_page_nonempty p N) as (Hw & Hb & Hx).
        unfold run_sound. cbn [final attempts history List.length Nat.pred].
        repeat split; try lia.
        exists log. repeat split; auto.
        -- intro Z. rewrite Z in N. discriminate N.
        -- apply dedupe_nonempty. exact N.
        -- exists p. auto.
      * assert (F : flights1 = []) by (destruct flights1; [reflexivity|discriminate]).
        assert (L : forallb non_success (Ok flights1 :: log) = true).
        { cbn [forallb non_success]. now rewrite N, Hlog. }
        destruct (Z.of_nat attempt <? max_retries config - 1);
          [destruct (driver_created (world attempt))|];
          apply Step; auto; simpl; lia.
    + destruct (caught e) eqn:C.
      * apply Step; auto; [simpl; lia|].
        cbn [forallb non_success]. now rewrite C, Hlog.
      * unfold run_sound. cbn [final attempts history List.length].
        repeat split; try lia.
        exists log. auto.
Qed.

Variable t0 : Q.










End Retry.


(** ** C3: admissions in a rolling window *)

Section RateLimiter.

Variable config : ScraperConfig.

Let cap : Z := requests_per_hour config.

Lemma Qle_bool_spec (x y : Q) : BoolSpec (x <= y)%Q (y < x)%Q (Qle_bool x y).
Proof.
  destruct (Qle_bool x y) eqn:E; constructor.
  - apply Qle_bool_iff. exact E.
  - apply Qnot_le_lt. intro L. apply Qle_bool_iff in L. congruence.
Qed.

(** Decide every comparison of the goal, then close it by integer arithmetic,
    or by rational arithmetic when the comparisons contradict each other. *)
Ltac by_comparisons :=
  repeat match goal with
         | |- context [Qle_bool ?x ?y] => destruct (Qle_bool_spec x y)
         end;
  cbn [andb negb]; intros; first [lia | exfalso; lra].

Lemma Qdiv_neg (a : Q) (d : Z) : (0 < a)%Q -> d < 0 -> (a / inject_Z d < 0)%Q.
Proof.
  intros Ha Hd.
  assert (Hp : (0 < inject_Z (- d))%Q).
  { change 0%Q with (inject_Z 0). rewrite <- Zlt_Qlt. lia. }
  assert (Hn : ~ (inject_Z d == 0)%Q).
  { change 0%Q with (inject_Z 0). rewrite inject_Z_injective. lia. }
  assert (E : (a / inject_Z d == - (a / inject_Z (- d)))%Q).
  { rewrite inject_Z_opp. field. exact Hn. }
  assert (H : (0 < a / inject_Z (- d))%Q).
  { apply Qlt_shift_div_l; [exact Hp|]. lra. }
  rewrite E. lra.
Qed.

(** Past the cap and within the hour, the call raises: the divisor is zero or
    the sleep length is negative. *)
Lemma rate_limit_over_cap (now : Q) (self : BrowserManager) :
  cap <= request_count self ->
  (now - last_request_time self < 3600)%Q ->
  exists e,
    rate_limit config now self
    = ({| request_count := request_count self + 1;
          last_request_time := last_request_time self;
          driver := driver self |}, Raise e).
Proof.
  intros Hc He. unfold rate_limit. fold cap.
  replace (cap <? request_count self + 1) with true
    by (symmetry; apply Z.ltb_lt; lia).
  apply Qltb_lt in He. cbv zeta. rewrite He.
  destruct (cap - (request_count self + 1) + 1 =? 0) eqn:D.
  - eexists. reflexivity.
  - apply Z.eqb_neq in D. unfold time_sleep.
    replace (Qltb _ 0) with true; [eexists; reflexivity|].
    symmetry. apply Qltb_lt. apply Qdiv_neg; [|lia].
    apply Qltb_lt in He. lra.
Qed.

Lemma rate_limit_over_cap_late (now : Q) (self : BrowserManager) :
  cap <= request_count self ->
  (3600 <= now - last_request_time self)%Q ->
  rate_limit config now self
  = ({| request_count := 1; last_request_time := now; driver := driver self |},
     Ok 0%Q).
Proof.
  intros Hc He. unfold rate_limit. fold cap.
  replace (cap <? request_count self + 1) with true
    by (symmetry; apply Z.ltb_lt; lia).
  apply Qltb_ge in He. cbv zeta. rewrite He. reflexivity.
Qed.

Lemma rate_limit_under_cap (now : Q) (self : BrowserManager) :
  request_count self < cap ->
  rate_limit config now self
  = ({| request_count := request_count self + 1; last_request_time := now;
        driver := driver self |}, Ok 0%Q).
Proof.
  intros Hc. unfold rate_limit. fold cap.
  replace (cap <? request_count self + 1) with false
    by (symmetry; apply Z.ltb_ge; lia).
  reflexivity.
Qed.

Lemma nondecreasing_from (p q : Q) (clock : list Q) :
  (p <= q)%Q -> nondecreasing q clock -> nondecreasing p clock.
Proof.
  destruct clock as [|now rest]; simpl; [auto|].
  intros Hpq [H1 H2]. split; [lra|exact H2].
Qed.

Lemma window_count_cons (t a : Q) (adm : list Q) :
  Z.of_nat (window_count t (a :: adm))
  = (if in_window t a then 1 else 0) + Z.of_nat (window_count t adm).
Proof.
  unfold window_count. simpl. destruct (in_window t a); simpl List.length; lia.
Qed.

Lemma admissions_room (clock : list Q) :
  1 <= cap ->
  forall self t,
    0 <= request_count self ->
    nondecreasing (last_request_time self) clock ->
    Z.of_nat (window_count t (admissions config self clock))
    <= room cap (request_count self) (last_request_time self) t.
Proof.
  intro Hcap.
  induction clock as [|now rest IH]; intros self t Hc Hs.
  - simpl. unfold room.
    destruct (Qle_bool (t + 3600) (last_request_time self)); [lia|].
    destruct (Qle_bool t (last_request_time self)); lia.
  - destruct Hs as [Hnow Hrest]. cbn [admissions].
    destruct (Z_lt_le_dec (request_count self) cap) as [Hlt|Hge].
    + rewrite (rate_limit_under_cap now self Hlt).
      rewrite window_count_cons.
      specialize (IH {| request_count := request_count self + 1;
                        last_request_time := now; driver := driver self |} t).
      cbn [request_count last_request_time] in IH.
      specialize (IH ltac:(lia) Hrest).
      revert IH. unfold room, in_window, Qltb. by_comparisons.
    + destruct (Qlt_le_dec (now - last_request_time self) 3600) as [He|He].
      * destruct (rate_limit_over_cap now self Hge He) as [e ->].
        specialize (IH {| request_count := request_count self + 1;
                          last_request_time := last_request_time self;
                          driver := driver self |} t).
        cbn [request_count last_request_time] in IH.
        specialize (IH ltac:(lia) (nondecreasing_from _ _ _ Hnow Hrest)).
        revert IH. unfold room. by_comparisons.
      * rewrite (rate_limit_over_cap_late now self Hge He).
        rewrite window_count_cons.
        specialize (IH {| request_count := 1;
                          last_request_time := now; driver := driver self |} t).
        cbn [request_count last_request_time] in IH.
        specialize (IH ltac:(lia) Hrest).
        revert IH. unfold room, in_window, Qltb. by_comparisons.
Qed.

Lemma increasing_from (p q : Q) (clock : list Q) :
  (p <= q)%Q -> increasing q clock -> increasing p clock.
Proof.
  destruct clock as [|now rest]; simpl; [auto|].
  intros Hpq [H1 H2]. split; [lra|exact H2].
Qed.

Lemma closed_window_count_cons (t a : Q) (adm : list Q) :
  Z.of_nat (closed_window_count t (a :: adm))
  = (if in_closed_window t a then 1 else 0) + Z.of_nat (closed_window_count t adm).
Proof.
  unfold closed_window_count. simpl.
  destruct (in_closed_window t a); simpl List.length; lia.
Qed.

Lemma admissions_closed_room (clock : list Q) :
  2 <= cap ->
  forall self t,
    0 <= request_count self ->
    increasing (last_request_time self) clock ->
    Z.of_nat (closed_window_count t (admissions config self clock))
    <= closed_room cap (request_count self) (last_request_time self) t.
Proof.
  intro Hcap.
  induction clock as [|now rest IH]; intros self t Hc Hs.
  - simpl. unfold closed_room.
    destruct (Qle_bool (t + 3600) (last_request_time self)); [lia|].
    destruct (Qltb t (last_request_time self)); [lia|].
    destruct (Qle_bool t (last_request_time self)); lia.
  - destruct Hs as [Hnow Hrest]. cbn [admissions].
    destruct (Z_lt_le_dec (request_count self) cap) as [Hlt|Hge].
    + rewrite (rate_limit_under_cap now self Hlt).
      rewrite closed_window_count_cons.
      specialize (IH {| request_count := request_count self + 1;
                        last_request_time := now; driver := driver self |} t).
      cbn [request_count last_request_time] in IH.
      specialize (IH ltac:(lia) Hrest).
      revert IH. unfold closed_room, in_closed_window, Qltb. by_comparisons.
    + destruct (Qlt_le_dec (now - last_request_time self) 3600) as [He|He].
      * destruct (rate_limit_over_cap now self Hge He) as [e ->].
        specialize (IH {| request_count := request_count self + 1;
                          last_request_time := last_request_time self;
                          driver := driver self |} t).
        cbn [request_count last_request_time] in IH.
        assert (Hinc : increasing (last_request_time self) rest)
          by (apply (increasing_from _ now); [lra|exact Hrest]).
        specialize (IH ltac:(lia) Hinc).
        revert IH. unfold closed_room, Qltb. by_comparisons.
      * rewrite (rate_limit_over_cap_late now self Hge He).
        rewrite closed_window_count_cons.
        specialize (IH {| request_count := 1;
                          last_request_time := now; driver := driver self |} t).
        cbn [request_count last_request_time] in IH.
        specialize (IH ltac:(lia) Hrest).
        revert IH. unfold closed_room, in_closed_window, Qltb. by_comparisons.
Qed.

(** With clock readings that increase and a cap of at least two, no closed
    window [t, t + 3600] holds more than the cap of returns either. *)
Lemma rate_limit_closed_window (t0 : Q) (clock : list Q) (t : Q) :
  2 <= cap ->
  increasing t0 clock ->
  Z.of_nat (closed_window_count t (admissions config (new_browser t0) clock)) <= cap.
Proof.
  intros Hcap Hclock.
  pose proof (admissions_closed_room clock Hcap (new_browser t0) t) as H.
  cbn [new_browser request_count last_request_time] in H.
  specialize (H ltac:(lia) Hclock).
  revert H. unfold closed_room.
  destruct (Qle_bool (t + 3600) t0); [lia|].
  destruct (Qltb t t0); [lia|].
  destruct (Qle_bool t t0); lia.
Qed.

End RateLimiter.

(** C3. For every sequence of calls of [rate_limit] on a manager, made at
    clock readings that do not decrease, with a cap of at least one request:
    no window of 3600 seconds, [t, t + 3600), holds more than
    requests_per_hour of the times at which calls returned. *)
Theorem rate_limit_window (config : ScraperConfig) (t0 : Q) (clock : list Q) (t : Q) :
  1 <= requests_per_hour config ->
  nondecreasing t0 clock ->
  Z.of_nat (window_count t (admissions config (new_browser t0) clock))
  <= requests_per_hour config.
Proof.
  intros Hcap Hclock.
  pose proof (admissions_room config clock Hcap (new_browser t0) t) as H.
  cbn [new_browser request_count last_request_time] in H.
  specialize (H ltac:(lia) Hclock).
  revert H. unfold room.
  destruct (Qle_bool (t + 3600) t0); [lia|].
  destruct (Qle_bool t t0); lia.
Qed.

Lemma rate_limit_window_witness :
  let clock := [1; 2; 3; 4; 5; 6; 7; 8; 9; 3700; 3701]%Q in
  1 <= requests_per_hour default_config /\
  nondecreasing 0 clock /\
  window_count 1 (admissions default_config (new_browser 0) clock) = 8%nat /\
  Z.of_nat (window_count 1 (admissions default_config (new_browser 0) clock))
  <= requests_per_hour default_config.
Proof.
  intro clock.
  assert (H1 : 1 <= requests_per_hour default_config) by (simpl; lia).
  assert (H2 : nondecreasing 0 clock).
  { unfold clock. simpl. repeat split; unfold Qle; simpl; lia. }
  split; [exact H1|]. split; [exact H2|]. split; [vm_compute; reflexivity|].
  exact (rate_limit_window default_config 0 clock 1 H1 H2).
Defined.

(** ** Worked runs *)

(** A document of three fare cards, (40000 points, $200, 08:00), a card without
    price or points, and a duplicate of the first, gives one persisted record,
    of value ratio 0.49 (the double nearest to it) and fallback flight number
    AA_1. *)
Example scenario_one_record :
  List.length (extract default_config scenario_buttons) = 2%nat /\
  exists f,
    dedupe (extract default_config scenario_buttons) = [f] /\
    flight_number f = "AA_1"%string /\
    points_required f = 40000 /\
    (cash_price_usd f == 200)%Q /\
    (cpp f == Py.binary64 (49 # 100))%Q /\
    best_value [f] = Some f.
Proof.
  split; [vm_compute; reflexivity|].
  eexists. split; [vm_compute; reflexivity|].
  repeat split; vm_compute; reflexivity.
Qed.

(** A page that says Access Denied gives no flights, whatever its nodes. *)
Example denied_page_gives_nothing :
  blocked (denied_page scenario_buttons) = true /\
  scrape_page default_config (denied_page scenario_buttons) = [].
Proof. vm_compute. split; reflexivity. Qed.

(** A blocked page, then a page of fares: SUCCESS at the second attempt, after
    one delay of 5 seconds. *)
Example run_success_second_attempt :
  let r := main_loop default_config
             (sample_world [Loaded (denied_page []);
                            Loaded (fares_page scenario_buttons);
                            Loaded (fares_page scenario_buttons)] []) 0 in
  attempts r = 2%nat /\ backoff r = [5] /\
  List.length (persisted r) = 1%nat /\
  exists flights, final r = SUCCESS flights.
Proof.
  vm_compute. repeat split; try reflexivity. eexists. reflexivity.
Qed.

(** Five attempts without flights, by block, timeout of the wait, and a caught
    exception: EXHAUSTED after five attempts and delays of 5, 10, 20 and 40
    seconds. *)
Example run_exhausted :
  let r := main_loop default_config
             (sample_world [Loaded (denied_page []);
                            NavRaises WebDriverException;
                            Loaded (fares_page []);
                            NavRaises TimeoutException;
                            Loaded (denied_page scenario_buttons)] []) 0 in
  final r = EXHAUSTED /\ attempts r = 5%nat /\ backoff r = [40; 20; 10; 5].
Proof. vm_compute. repeat split; reflexivity. Qed.

(** When the browser made after an attempt has no driver, the next attempt
    raises AttributeError, which the loop does not catch: the run ends there,
    as a fatal error. *)
Example run_fatal_without_driver :
  let r := main_loop default_config
             (sample_world [Loaded (denied_page []);
                            Loaded (fares_page scenario_buttons)] [false]) 0 in
  final r = FATAL AttributeError /\ attempts r = 2%nat /\ backoff r = [].
Proof. vm_compute. repeat split; reflexivity. Qed.

(** * Further properties of the code *)

(** ** Where a pattern cannot match *)

Section RegexFails.

Variable A : Type.

(** A continuation that fails on every rest of [s] makes the match fail. *)
Lemma run_none (r : Re.regex) :
  forall s (k : string -> option A),
    (forall m s', s = (m ++ s')%string -> k s' = None) ->
    Re.run r s k = None.
Proof.
  induction r as [|p|r1 IH1 r2 IH2|r1 IH1|r1 IH1|n r1 IH1|n r1 IH1]; intros s k Hk; simpl.
  - apply (Hk EmptyString). reflexivity.
  - destruct s as [|c s']; [reflexivity|].
    destruct (p c); [|reflexivity].
    apply (Hk (String c EmptyString)). reflexivity.
  - apply IH1. intros m s1 ->. apply IH2. intros m' s2 ->.
    apply (Hk (m ++ m')%string). now rewrite append_assoc.
  - rewrite (IH1 s k Hk). apply (Hk EmptyString). reflexivity.
  - generalize (String.length s) as fuel. intro fuel. revert s Hk.
    induction fuel as [|fuel IHf]; intros s Hk.
    + apply (Hk EmptyString). reflexivity.
    + rewrite IH1; [apply (Hk EmptyString); reflexivity|].
      intros m s1 ->.
      destruct (String.length s1 <? String.length (m ++ s1))%nat; [|reflexivity].
      apply IHf. intros m' s2 ->.
      apply (Hk (m ++ m')%string). now rewrite append_assoc.
  - revert s Hk. induction n as [|n IHn]; intros s Hk.
    + apply (Hk EmptyString). reflexivity.
    + rewrite IH1; [apply (Hk EmptyString); reflexivity|].
      intros m s1 ->. apply IHn. intros m' s2 ->.
      apply (Hk (m ++ m')%string). now rewrite append_assoc.
  - revert s Hk. induction n as [|n IHn]; intros s Hk.
    + apply (Hk EmptyString). reflexivity.
    + apply IH1. intros m s1 ->. apply IHn. intros m' s2 ->.
      apply (Hk (m ++ m')%string). now rewrite append_assoc.
Qed.

End RegexFails.

(** A group that starts with a character class finds nothing in a text without
    a character of that class. *)
Lemma search_no_start (p : ascii -> bool) (pre r2 r3 : Re.regex) (s : string) :
  all_chars (not_in p) s = true ->
  Re.search pre (Re.Seq (Re.Seq (Re.Cls p) r2) r3) s = None.
Proof.
  assert (Here : forall s, all_chars (not_in p) s = true ->
                           Re.match_here pre (Re.Seq (Re.Seq (Re.Cls p) r2) r3) s = None).
  { intros t Ht. unfold Re.match_here. apply run_none. intros m s1 ->.
    rewrite all_chars_app in Ht. apply andb_true_iff in Ht. destruct Ht as [_ Ht].
    cbn [Re.run]. destruct s1 as [|c s']; [reflexivity|].
    simpl in Ht. apply andb_true_iff in Ht. destruct Ht as [Hc _].
    unfold not_in in Hc. apply negb_true_iff in Hc. now rewrite Hc. }
  induction s as [|c s IH]; intro Hs; simpl.
  - now rewrite (Here EmptyString Hs).
  - rewrite (Here _ Hs). apply IH.
    simpl in Hs. apply andb_true_iff in Hs. tauto.
Qed.

(** The group of such a pattern starts with a character of the class. *)
Lemma match_here_first (P p : ascii -> bool) (pre r2 r3 : Re.regex) (s g : string) :
  classes_in P r2 -> classes_in P r3 ->
  Re.match_here pre (Re.Seq (Re.Seq (Re.Cls p) r2) r3) s = Some g ->
  exists c g', g = String c g' /\ p c = true /\ all_chars P g' = true.
Proof.
  intros H2 H3 H. unfold Re.match_here in H.
  apply (run_consumed (fun _ => true) string pre) in H.
  2:{ clear. induction pre; simpl; auto. }
  destruct H as (m0 & s1 & _ & _ & H).
  cbn [Re.run] in H.
  destruct s1 as [|c s']; [discriminate|].
  destruct (p c) eqn:Hp; [|discriminate].
  apply (run_consumed P string r2 H2) in H.
  destruct H as (m2 & t2 & -> & Hm2 & H).
  apply (run_consumed P string r3 H3) in H.
  destruct H as (m3 & t3 & -> & Hm3 & H).
  injection H as <-.
  exists c, (m2 ++ m3)%string. split; [|split; [exact Hp|]].
  - change (String.substring 0
              (String.length (String c (m2 ++ m3 ++ t3)) - String.length t3)
              (String c (m2 ++ m3 ++ t3)) = String c (m2 ++ m3)).
    replace (String.length (String c (m2 ++ m3 ++ t3)) - String.length t3)%nat
      with (S (String.length (m2 ++ m3)))
      by (cbn [String.length]; rewrite !length_append; lia).
    cbn [String.substring]. f_equal.
    rewrite <- append_assoc. apply substring_prefix.
  - rewrite all_chars_app, Hm2, Hm3. reflexivity.
Qed.

Lemma search_first (P p : ascii -> bool) (pre r2 r3 : Re.regex) (s g : string) :
  classes_in P r2 -> classes_in P r3 ->
  Re.search pre (Re.Seq (Re.Seq (Re.Cls p) r2) r3) s = Some g ->
  exists c g', g = String c g' /\ p c = true /\ all_chars P g' = true.
Proof.
  intros H2 H3. induction s as [|c s IH]; simpl.
  - destruct (Re.match_here _ _ EmptyString) eqn:E; [|discriminate].
    intro H. inversion H; subst. exact (match_here_first P p pre r2 r3 _ _ H2 H3 E).
  - destruct (Re.match_here _ _ (String c s)) eqn:E; [|exact IH].
    intro H. inversion H; subst. exact (match_here_first P p pre r2 r3 _ _ H2 H3 E).
Qed.

(** ** Texts of digits *)

Lemma all_chars_impl (P Q : ascii -> bool) (s : string) :
  (forall c, P c = true -> Q c = true) ->
  all_chars P s = true -> all_chars Q s = true.
Proof.
  intro H. induction s as [|c s IH]; simpl; [auto|].
  intro Hs. apply andb_true_iff in Hs. destruct Hs as [Hc Hs].
  now rewrite (H c Hc), (IH Hs).
Qed.

Lemma all_chars_lstrip (P : ascii -> bool) (s : string) :
  all_chars P s = true -> all_chars P (Py.lstrip s) = true.
Proof.
  induction s as [|c s IH]; simpl; [auto|].
  intro H. destruct (Py.is_space c); [|exact H].
  apply IH. apply andb_true_iff in H. tauto.
Qed.

Lemma all_chars_rstrip (P : ascii -> bool) (s : string) :
  all_chars P s = true -> all_chars P (Py.rstrip s) = true.
Proof.
  induction s as [|c s IH]; simpl; [auto|].
  intro H. apply andb_true_iff in H. destruct H as [Hc Hs]. specialize (IH Hs).
  destruct (Py.rstrip s) as [|d r].
  - destruct (Py.is_space c); simpl; [reflexivity|]. now rewrite Hc.
  - simpl in *. now rewrite Hc, IH.
Qed.

Lemma digit_not_space (c : ascii) : Py.is_digit c = true -> Py.is_space c = false.
Proof.
  unfold Py.is_digit, Py.is_space. intro H.
  apply andb_true_iff in H. destruct H as [H1 H2].
  apply Nat.leb_le in H1. apply Nat.leb_le in H2.
  apply orb_false_iff. split; apply andb_false_iff.
  - right. apply Nat.leb_gt. lia.
  - right. apply Nat.leb_gt. lia.
Qed.

Lemma strip_digit_first (c : ascii) (s : string) :
  Py.is_digit c = true -> all_chars Py.is_digit s = true ->
  Py.strip (String c s) = String c s.
Proof.
  intros Hc Hs. unfold Py.strip. cbn [Py.lstrip].
  rewrite (digit_not_space c Hc).
  assert (R : forall t, all_chars Py.is_digit t = true -> Py.rstrip t = t).
  { induction t as [|d t IH]; simpl; [auto|].
    intro H. apply andb_true_iff in H. destruct H as [Hd Ht].
    rewrite (IH Ht). destruct t; [|reflexivity].
    now rewrite (digit_not_space d Hd). }
  apply R. simpl. now rewrite Hc, Hs.
Qed.

(** A text of digits is read to its end. *)
Lemma digitpart_digits (s : string) :
  all_chars Py.is_digit s = true ->
  forall acc cnt,
    exists v, Py.digitpart s acc cnt = (v, (cnt + String.length s)%nat, EmptyString)
              /\ (0 <= acc -> 0 <= v).
Proof.
  induction s as [|c s IH]; intros Hs acc cnt; cbn [Py.digitpart].
  - exists acc. rewrite Nat.add_0_r. auto.
  - simpl in Hs. apply andb_true_iff in Hs. destruct Hs as [Hc Hs].
    rewrite Hc.
    destruct (IH Hs (10 * acc + Py.digit_value c) (S cnt)) as (v & E & Hv).
    exists v. rewrite E. cbn [String.length]. rewrite Nat.add_succ_r.
    split; [reflexivity|]. intro Ha. apply Hv.
    pose proof (digit_value_nonneg c Hc). lia.
Qed.

Lemma digit_not_sign (c : ascii) (s : string) :
  Py.is_digit c = true -> Py.sign (String c s) = (false, String c s).
Proof.
  intro H. unfold Py.sign.
  destruct c as [[] [] [] [] [] [] [] []]; try reflexivity; discriminate H.
Qed.

(** [int] of a text of at most 4300 digits is a number that is not negative. *)
Lemma int_of_digits (c : ascii) (s : string) :
  Py.is_digit c = true -> all_chars Py.is_digit s = true ->
  (String.length (String c s) <= 4300)%nat ->
  exists v, Py.int_of_str (String c s) = Ok v /\ 0 <= v.
Proof.
  intros Hc Hs Hl. unfold Py.int_of_str.
  rewrite (strip_digit_first c s Hc Hs), (digit_not_sign c s Hc).
  assert (Ha : all_chars Py.is_digit (String c s) = true) by (simpl; now rewrite Hc, Hs).
  destruct (digitpart_digits _ Ha 0 0%nat) as (v & E & Hv).
  rewrite E. cbn [String.length Nat.add]. cbn [String.length] in Hl.
  replace (4300 <? S (String.length s))%nat with false
    by (symmetry; apply Nat.ltb_ge; exact Hl).
  exists v. split; [reflexivity|]. apply Hv. lia.
Qed.

(** Lengths: a group is no longer than the text searched, and [replace],
    [strip] and [lower] do not lengthen a text. *)
Lemma match_here_length (pre grp : Re.regex) (s g : string) :
  Re.match_here pre grp s = Some g -> (String.length g <= String.length s)%nat.
Proof.
  assert (T : forall r, classes_in (fun _ => true) r)
    by (induction r; simpl; auto).
  intro H. unfold Re.match_here in H.
  apply (run_consumed (fun _ => true) string pre (T pre)) in H.
  destruct H as (m0 & s1 & -> & _ & H).
  apply (run_consumed (fun _ => true) string grp (T grp)) in H.
  destruct H as (m & s2 & -> & _ & H).
  injection H as <-.
  rewrite !length_append.
  replace (String.length m + String.length s2 - String.length s2)%nat
    with (String.length m) by lia.
  rewrite substring_prefix. lia.
Qed.

Lemma search_length (pre grp : Re.regex) (s g : string) :
  Re.search pre grp s = Some g -> (String.length g <= String.length s)%nat.
Proof.
  induction s as [|c s IH]; cbn [Re.search].
  - destruct (Re.match_here pre grp EmptyString) eqn:E; [|discriminate].
    intro H. injection H as <-. exact (match_here_length _ _ _ _ E).
  - destruct (Re.match_here pre grp (String c s)) eqn:E.
    + intro H. injection H as <-. exact (match_here_length _ _ _ _ E).
    + intro H. specialize (IH H). cbn [String.length]. lia.
Qed.

Lemma length_remove_char (c : ascii) (s : string) :
  (String.length (Py.remove_char c s) <= String.length s)%nat.
Proof.
  induction s as [|d s IH]; cbn [Py.remove_char String.length]; [lia|].
  destruct (Ascii.eqb c d); cbn [String.length]; lia.
Qed.

Lemma length_lower (s : string) : String.length (Py.lower s) = String.length s.
Proof. induction s as [|c s IH]; cbn [Py.lower String.length]; congruence. Qed.

Lemma length_strip (s : string) : (String.length (Py.strip s) <= String.length s)%nat.
Proof.
  unfold Py.strip.
  assert (L : (String.length (Py.lstrip s) <= String.length s)%nat).
  { induction s as [|c s IH]; cbn [Py.lstrip String.length]; [lia|].
    destruct (Py.is_space c); cbn [String.length]; lia. }
  assert (R : forall t, (String.length (Py.rstrip t) <= String.length t)%nat).
  { induction t as [|c t IH]; cbn [Py.rstrip String.length]; [lia|].
    destruct (Py.rstrip t); [destruct (Py.is_space c)|]; cbn [String.length] in *; lia. }
  specialize (R (Py.lstrip s)). lia.
Qed.

Lemma remove_comma_digits (s : string) :
  all_chars is_digit_or_comma s = true ->
  all_chars Py.is_digit (Py.remove_char "," s) = true.
Proof.
  induction s as [|c s IH]; cbn [all_chars Py.remove_char]; [auto|].
  intro H. apply andb_true_iff in H. destruct H as [Hc Hs].
  destruct (Ascii.eqb "," c) eqn:E; [exact (IH Hs)|].
  cbn [all_chars]. rewrite (IH Hs), andb_true_r.
  unfold is_digit_or_comma in Hc. apply orb_true_iff in Hc.
  destruct Hc as [Hc|Hc]; [exact Hc|].
  rewrite Ascii.eqb_sym in Hc. congruence.
Qed.

Lemma digit_not_comma (c : ascii) : Py.is_digit c = true -> Ascii.eqb "," c = false.
Proof.
  intro H. destruct (Ascii.eqb "," c) eqn:E; [|reflexivity].
  apply Ascii.eqb_eq in E. subst c. discriminate H.
Qed.

Lemma points_group_classes :
  classes_in is_digit_or_comma (Re.Upto 2 (Re.Cls Py.is_digit)) /\
  classes_in is_digit_or_comma
    (Re.Star (Re.Seq (Re.Cls (Ascii.eqb ",")) (Re.Times 3 (Re.Cls Py.is_digit)))).
Proof.
  cbn [classes_in]. unfold is_digit_or_comma.
  repeat split; intros c H; rewrite ?(Ascii.eqb_sym c ","), ?H, ?orb_true_r; reflexivity.
Qed.

Lemma lower_char_k (c : ascii) :
  Ascii.eqb "k" (Py.lower_char c) = Ascii.eqb "k" c || Ascii.eqb "K" c.
Proof. destruct c as [[] [] [] [] [] [] [] []]; reflexivity. Qed.

Lemma lower_char_digit (c : ascii) : Py.is_digit (Py.lower_char c) = Py.is_digit c.
Proof. destruct c as [[] [] [] [] [] [] [] []]; reflexivity. Qed.

Lemma has_char_k_lower (s : string) :
  Py.has_char "k" s = false -> Py.has_char "K" s = false ->
  Py.has_char "k" (Py.lower s) = false.
Proof.
  induction s as [|c s IH]; cbn [Py.has_char Py.lower]; [auto|].
  intros H1 H2. apply orb_false_iff in H1. apply orb_false_iff in H2.
  destruct H1 as [A1 B1], H2 as [A2 B2].
  now rewrite lower_char_k, A1, A2, (IH B1 B2).
Qed.

Lemma no_digit_lower (s : string) :
  all_chars (not_in Py.is_digit) s = true ->
  all_chars (not_in Py.is_digit) (Py.lower s) = true.
Proof.
  induction s as [|c s IH]; cbn [all_chars Py.lower]; [auto|].
  intro H. apply andb_true_iff in H. destruct H as [Hc Hs].
  unfold not_in in *. now rewrite lower_char_digit, Hc, (IH Hs).
Qed.

(** ** The parsers on texts without a token *)

(** X1. Whatever the text, a cash price that [parse_money] returns is never
    negative: the pattern admits no sign. *)
Theorem parse_money_never_negative (text : option string) (q : Q) :
  parse_money text = Ok q -> (0 <= q)%Q.
Proof. apply parse_money_nonneg. Qed.

Lemma parse_money_never_negative_witness :
  exists q, parse_money (Some "$1,234.50"%string) = Ok q /\ (0 <= q)%Q.
Proof.
  eexists. split; [vm_compute; reflexivity|].
  apply (parse_money_never_negative (Some "$1,234.50"%string)).
  vm_compute. reflexivity.
Defined.

(** X2. On a text without any digit or comma, [parse_money] returns 0.0 and
    does not raise. *)
Theorem parse_money_without_token (text : string) :
  all_chars (not_in is_digit_or_comma) text = true ->
  parse_money (Some text) = Ok 0%Q.
Proof.
  intro H. unfold parse_money. destruct text as [|c t]; [reflexivity|].
  unfold money_group, Re.Plus. now rewrite search_no_start.
Qed.

Lemma parse_money_without_token_witness :
  all_chars (not_in is_digit_or_comma) "Sold out - n/a" = true /\
  parse_money (Some "Sold out - n/a"%string) = Ok 0%Q.
Proof.
  split; [reflexivity|].
  apply parse_money_without_token. reflexivity.
Defined.

(** X3. On a text of at most 4300 characters without the letter k, in either
    case, [parse_points] does not raise and returns a number that is not
    negative; it returns 0 when the text has no digit. *)
Theorem parse_points_without_k (text : string) :
  (String.length text <= 4300)%nat ->
  Py.has_char "k" text = false ->
  Py.has_char "K" text = false ->
  exists n,
    parse_points (Some text) = Ok n /\
    0 <= n /\
    (all_chars (not_in Py.is_digit) text = true -> n = 0).
Proof.
  intros Hl Hk HK. unfold parse_points.
  destruct text as [|c0 t0]; [exists 0; repeat split; auto; lia|].
  set (text := String c0 t0) in *.
  set (t := Py.lower (Py.strip text)).
  assert (Ht : Py.has_char "k" t = false).
  { apply has_char_k_lower; apply has_char_rstrip, has_char_lstrip; assumption. }
  rewrite Ht.
  assert (Hnone : all_chars (not_in Py.is_digit) text = true ->
                  Re.search Re.Eps points_group t = None).
  { intro Hd. apply search_no_start. apply no_digit_lower.
    apply all_chars_rstrip, all_chars_lstrip. exact Hd. }
  destruct (Re.search Re.Eps points_group t) as [g|] eqn:E.
  - pose proof (search_length _ _ _ _ E) as Lg.
    unfold t in Lg. rewrite length_lower in Lg.
    pose proof (length_strip text) as Ls.
    destruct points_group_classes as [C2 C3].
    destruct (search_first is_digit_or_comma _ _ _ _ _ _ C2 C3 E)
      as (c & g' & -> & Hc & Hg').
    cbn [Py.remove_char]. rewrite (digit_not_comma c Hc).
    pose proof (length_remove_char "," g') as Lr.
    destruct (int_of_digits c (Py.remove_char "," g') Hc (remove_comma_digits g' Hg'))
      as (v & Ev & Hv).
    { cbn [String.length] in *. lia. }
    exists v. split; [exact Ev|]. split; [exact Hv|].
    intro Hd. discriminate (Hnone Hd).
  - exists 0. repeat split; auto; lia.
Qed.

Lemma parse_points_without_k_witness :
  exists n, parse_points (Some "from 12,345 pts"%string) = Ok n /\ 0 <= n.
Proof.
  destruct (parse_points_without_k "from 12,345 pts" ltac:(cbn; lia) eq_refl eq_refl)
    as (n & H1 & H2 & _).
  exists n. split; assumption.
Defined.

(** ** The rate limiter never sleeps *)

(** X4. [rate_limit] never delays a call: when it returns it has slept 0
    seconds and has set the time of the last request to the clock reading
    and the counter to one more, or to 1. It returns exactly when the counter
    was below the cap or an hour or more has passed since the last request,
    and raises otherwise; a call that raises leaves the time of the last
    request as it was and the counter one higher. *)
Theorem rate_limit_returns_at_once (config : ScraperConfig) (now : Q)
  (self : BrowserManager) :
  let after := fst (rate_limit config now self) in
  let outcome := snd (rate_limit config now self) in
  (forall secs, outcome = Ok secs ->
                secs = 0%Q /\ last_request_time after = now /\
                (request_count after = request_count self + 1
                 \/ request_count after = 1)) /\
  ((exists secs, outcome = Ok secs) <->
   (request_count self < requests_per_hour config
    \/ (3600 <= now - last_request_time self)%Q)) /\
  (forall e, outcome = Raise e ->
             last_request_time after = last_request_time self /\
             request_count after = request_count self + 1).
Proof.
  cbv zeta.
  destruct (Z_lt_le_dec (request_count self) (requests_per_hour config)) as [Hlt|Hge].
  - rewrite (rate_limit_under_cap config now self Hlt). cbn [fst snd].
    split; [|split].
    + intros secs H. injection H as <-. cbn. auto.
    + split; [auto|]. intros _. eexists. reflexivity.
    + intros e H. discriminate H.
  - destruct (Qlt_le_dec (now - last_request_time self) 3600) as [He|He].
    + destruct (rate_limit_over_cap config now self Hge He) as [e0 ->]. cbn [fst snd].
      split; [|split].
      * intros secs H. discriminate H.
      * split; [intros [secs H]; discriminate H|].
        intros [H|H]; [lia|]. exfalso. lra.
      * intros e _. cbn. auto.
    + rewrite (rate_limit_over_cap_late config now self Hge He). cbn [fst snd].
      split; [|split].
      * intros secs H. injection H as <-. cbn. auto.
      * split; [auto|]. intros _. eexists. reflexivity.
      * intros e H. discriminate H.
Qed.

(** ** The value ratio grows with the cash price *)

(** X5. For fixed points and taxes the value ratio does not decrease when the
    cash price grows, and it is not negative when the cash price covers the
    taxes. *)
Theorem calculate_cpp_monotone (cash1 cash2 taxes : Q) (points : Z) :
  (cash1 <= cash2)%Q ->
  (calculate_cpp cash1 points taxes <= calculate_cpp cash2 points taxes)%Q /\
  ((taxes <= cash1)%Q -> (0 <= calculate_cpp cash1 points taxes)%Q).
Proof.
  intro L. unfold calculate_cpp.
  destruct (0 <? points) eqn:P; [|split; intros; apply Qle_refl].
  apply Z.ltb_lt in P.
  split.
  - apply round2_mono, ratio_mono; assumption.
  - intro T. apply round2_nonneg, ratio_nonneg; assumption.
Qed.

Lemma calculate_cpp_monotone_witness :
  (100 <= 200)%Q /\
  (calculate_cpp 100 40000 (56 # 10) <= calculate_cpp 200 40000 (56 # 10))%Q.
Proof.
  assert (H : (100 <= 200)%Q) by (unfold Qle; simpl; lia).
  split; [exact H|].
  exact (proj1 (calculate_cpp_monotone 100 200 (56 # 10) 40000 H)).
Defined.

(** ** The best value *)

Lemma fold_pick_max (rest : list FlightData) :
  forall first,
    let best := fold_left (fun best x => if Qltb (cpp best) (cpp x) then x else best)
                          rest first in
    (cpp first <= cpp best)%Q /\ forall f, In f rest -> (cpp f <= cpp best)%Q.
Proof.
  induction rest as [|x rest IH]; intro first; cbn [fold_left].
  - split; [apply Qle_refl|intros f []].
  - cbv zeta.
    destruct (Qltb (cpp first) (cpp x)) eqn:E.
    + destruct (IH x) as [H1 H2]. apply Qltb_lt in E. split; [lra|].
      intros f [<-|Hf]; [exact H1|exact (H2 f Hf)].
    + destruct (IH first) as [H1 H2]. apply Qltb_ge in E. split; [exact H1|].
      intros f [<-|Hf]; [lra|exact (H2 f Hf)].
Qed.

(** X6. The best value is a flight of the list, its ratio is positive and no
    flight of the list has a greater ratio; there is none exactly when no
    flight has a positive ratio. *)
Theorem best_value_is_greatest (unique_flights : list FlightData) :
  (forall best, best_value unique_flights = Some best ->
                In best unique_flights /\ (0 < cpp best)%Q /\
                forall f, In f unique_flights -> (cpp f <= cpp best)%Q) /\
  (best_value unique_flights = None <->
   forall f, In f unique_flights -> (cpp f <= 0)%Q).
Proof.
  split.
  - intros best Hb.
    destruct (best_value_positive unique_flights best Hb) as [Hin Hpos].
    split; [exact Hin|]. split; [exact Hpos|].
    intros f Hf. unfold best_value in Hb.
    destruct (valid_flights unique_flights) as [|v rest] eqn:E; [discriminate|].
    injection Hb as Hb.
    destruct (fold_pick_max rest v) as [H1 H2]. cbv zeta in H1, H2. rewrite Hb in H1, H2.
    destruct (Qlt_le_dec 0 (cpp f)) as [Hp|Hn]; [|lra].
    assert (Hv : In f (valid_flights unique_flights)).
    { unfold valid_flights. apply filter_In. split; [exact Hf|]. apply Qltb_lt. exact Hp. }
    rewrite E in Hv. destruct Hv as [<-|Hv]; [exact H1|exact (H2 f Hv)].
  - unfold best_value. split.
    + destruct (valid_flights unique_flights) as [|v rest] eqn:E; [|discriminate].
      intros _ f Hf.
      destruct (Qlt_le_dec 0 (cpp f)) as [Hp|Hn]; [|exact Hn].
      assert (Hv : In f (valid_flights unique_flights)).
      { unfold valid_flights. apply filter_In. split; [exact Hf|]. apply Qltb_lt. exact Hp. }
      rewrite E in Hv. contradiction.
    + intro H. destruct (valid_flights unique_flights) as [|v rest] eqn:E; [reflexivity|].
      assert (Hv : In v (valid_flights unique_flights)) by (rewrite E; left; reflexivity).
      unfold valid_flights in Hv. apply filter_In in Hv. destruct Hv as [Hin Hp].
      apply Qltb_lt in Hp. specialize (H v Hin). lra.
Qed.

(** ** The extractor, node by node *)

Section ExtractorShape.

Variable config : ScraperConfig.

Lemma scrape_buttons_numbered (buttons : list button) :
  forall i,
    scrape_buttons config i buttons []
    = flat_map (fun ib => emitted config (fst ib) (snd ib)) (numbered i buttons).
Proof.
  induction buttons as [|b rest IH]; intro i; [reflexivity|].
  rewrite scrape_buttons_cons, IH. reflexivity.
Qed.

Lemma emitted_at_most_one (i : nat) (b : button) :
  (List.length (emitted config i b) <= if has_date b then 1 else 0)%nat.
Proof.
  unfold emitted, scrape_button, has_date.
  destruct (date_elem b); [|simpl; lia].
  destruct (parse_points _) as [pts|e]; [|simpl; lia].
  destruct (parse_money _) as [cash|e]; [|simpl; lia].
  cbn [bind]. destruct (calculate_cpp_call _ _ _) as [r|e]; [|simpl; lia].
  cbn [bind]. destruct (_ || _); simpl; lia.
Qed.

Lemma scrape_buttons_length (buttons : list button) :
  forall i,
    (List.length (scrape_buttons config i buttons [])
     <= List.length (filter has_date buttons))%nat.
Proof.
  induction buttons as [|b rest IH]; intro i; [simpl; lia|].
  rewrite scrape_buttons_cons, length_app.
  pose proof (emitted_at_most_one i b) as H. specialize (IH (S i)).
  cbn [filter]. destruct (has_date b); cbn [List.length]; lia.
Qed.

Lemma substring_length (n : nat) :
  forall s, (String.length (String.substring 0 n s) <= n)%nat.
Proof.
  induction n as [|n IH]; intro s.
  - destruct s; simpl; lia.
  - destruct s as [|c s]; simpl; [lia|]. specialize (IH s). lia.
Qed.

Lemma scrape_button_texts (i : nat) (b : button) (f : FlightData) :
  scrape_button config i b = Ok (Some f) ->
  raw_text f = Py.take 200 (button_text b) /\
  departure_time f = text_or EmptyString (dep_elem b) /\
  arrival_time f = text_or EmptyString (arr_elem b).
Proof.
  unfold scrape_button.
  destruct (date_elem b) as [d|]; [|discriminate].
  destruct (parse_points _) as [pts|e]; [|discriminate].
  destruct (parse_money _) as [cash|e]; [|discriminate].
  cbn [bind]. destruct (calculate_cpp_call _ _ _) as [r|e]; [|discriminate].
  cbn [bind].
  destruct (Py.truthy_float cash || Py.truthy_int pts); [|discriminate].
  intro H. injection H as <-. cbn. auto.
Qed.

End ExtractorShape.

(** X7. The extractor works node by node, in document order: its output is
    the concatenation, over the fare cards numbered from 1, of what each card
    adds, which is at most one record and none for a card without a date. So
    the output of a document in two parts is the output of the first part
    followed by that of the second, numbered on; and there are at most as many
    records as cards with a date. *)
Theorem extract_node_by_node (config : ScraperConfig) (pre post : list button) :
  extract config (pre ++ post)
  = extract config pre
    ++ flat_map (fun ib => emitted config (fst ib) (snd ib))
                (numbered (S (List.length pre)) post) /\
  extract config post
  = flat_map (fun ib => emitted config (fst ib) (snd ib)) (numbered 1 post) /\
  (forall i b, (List.length (emitted config i b) <= if has_date b then 1 else 0)%nat) /\
  (List.length (extract config post) <= List.length (filter has_date post))%nat.
Proof.
  split; [|split; [|split]].
  - unfold extract. rewrite scrape_buttons_app, (scrape_buttons_numbered config post).
    reflexivity.
  - apply scrape_buttons_numbered.
  - apply emitted_at_most_one.
  - apply scrape_buttons_length.
Qed.

(** X8. Every record of the extractor's output carries the configured taxes,
    a value ratio that is [calculate_cpp] of its own cash price, points and
    taxes, a cash price that is not negative, and a source snippet of at most
    200 characters; and its value ratio is positive only if its points are
    positive and its cash price is above the taxes. *)
Theorem extracted_record_invariant (config : ScraperConfig) (buttons : list button)
  (f : FlightData) :
  In f (extract config buttons) ->
  taxes_fees_usd f = default_taxes config /\
  cpp f = calculate_cpp (cash_price_usd f) (points_required f) (taxes_fees_usd f) /\
  (0 <= cash_price_usd f)%Q /\
  (String.length (raw_text f) <= 200)%nat /\
  ((0 < cpp f)%Q -> 0 < points_required f /\ (taxes_fees_usd f < cash_price_usd f)%Q).
Proof.
  intro H. apply in_extract in H. destruct H as (k & b & _ & H).
  pose proof (scrape_button_texts config _ _ _ H) as (Hraw & _ & _).
  apply scrape_button_some in H.
  destruct H as (_ & _ & Hm & _ & Ht & Hc & _).
  split; [exact Ht|]. rewrite Ht. split; [exact Hc|].
  split; [exact (parse_money_nonneg _ _ Hm)|].
  split; [rewrite Hraw; apply substring_length|].
  rewrite Hc. unfold calculate_cpp.
  destruct (0 <? points_required f) eqn:P; [|intro L; exfalso; revert L; apply Qlt_irrefl].
  apply Z.ltb_lt in P. intro L. split; [exact P|].
  apply Qnot_le_lt. intro G.
  pose proof (ratio_nonpos (cash_price_usd f) (default_taxes config)
                (points_required f) P G) as N.
  apply round2_nonpos_le in N. lra.
Qed.

Lemma extracted_record_invariant_witness :
  exists f,
    In f (extract default_config scenario_buttons) /\
    taxes_fees_usd f = default_taxes default_config /\
    (String.length (raw_text f) <= 200)%nat.
Proof.
  assert (H : exists f, In f (extract default_config scenario_buttons)).
  { eexists. vm_compute. left. reflexivity. }
  destruct H as [f H]. exists f. split; [exact H|].
  destruct (extracted_record_invariant default_config scenario_buttons f H)
    as (H1 & _ & _ & H4 & _).
  split; assumption.
Defined.

(** ** Block detection *)

Lemma lower_app (a b : string) : Py.lower (a ++ b) = (Py.lower a ++ Py.lower b)%string.
Proof. induction a as [|c a IH]; simpl; [reflexivity|]. now rewrite IH. Qed.

Lemma prefix_app (sub rest : string) : String.prefix sub (sub ++ rest) = true.
Proof.
  induction sub as [|c sub IH]; simpl; [destruct rest; reflexivity|].
  destruct (ascii_dec c c) as [_|N]; [exact IH|contradiction].
Qed.

Lemma contains_app (sub pre post : string) :
  Py.contains sub (pre ++ sub ++ post) = true.
Proof.
  induction pre as [|c pre IH].
  - cbn [String.append]. destruct (sub ++ post)%string eqn:E;
      cbn [Py.contains]; rewrite <- E, prefix_app; reflexivity.
  - cbn [String.append Py.contains]. rewrite IH. apply orb_true_r.
Qed.

(** X9. A page whose source holds the word blocked or the words access denied
    anywhere, in any mix of upper and lower case and also inside a longer word,
    gives no flights, whatever fare cards it shows. *)
Theorem marker_anywhere_blocks (config : ScraperConfig) (p : page)
  (pre marker post : string) :
  page_source p = (pre ++ marker ++ post)%string ->
  Py.lower marker = "blocked"%string \/ Py.lower marker = "access denied"%string ->
  blocked p = true /\ scrape_page config p = [].
Proof.
  intros Hs Hm.
  assert (B : blocked p = true).
  { unfold blocked. rewrite Hs, !lower_app.
    destruct Hm as [-> | ->]; rewrite contains_app; auto using orb_true_r. }
  split; [exact B|]. unfold scrape_page. rewrite B.
  destruct (wait_ok p); reflexivity.
Qed.

Lemma marker_anywhere_blocks_witness :
  scrape_page default_config
    {| wait_ok := true;
       page_source := "<p>Seats UNBLOCKED for sale</p>"%string;
       flight_buttons := scenario_buttons |} = [].
Proof.
  refine (proj2 (marker_anywhere_blocks default_config _
                   "<p>Seats UN"%string "BLOCKED"%string " for sale</p>"%string _ _)).
  - reflexivity.
  - left. reflexivity.
Defined.

(** ** The retry delays *)

Section Backoff.

Variable config : ScraperConfig.
Variable world : nat -> attempt_world.

Lemma retry_delay_succ (attempt : nat) :
  retry_delay (S attempt) = 2 * retry_delay attempt.
Proof.
  unfold retry_delay. rewrite Nat2Z.inj_succ, Z.pow_succ_r by lia. lia.
Qed.

Lemma retry_delay_pos (attempt : nat) : 0 < retry_delay attempt.
Proof.
  unfold retry_delay.
  assert (0 < 2 ^ Z.of_nat attempt) by (apply Z.pow_pos_nonneg; lia). lia.
Qed.

(** With [todo] iterations left of [max_retries], the loop sleeps after an
    attempt only when another follows, each time the delay of that attempt. *)
Lemma retry_loop_backoff (todo : nat) :
  forall attempt browser flights log slept,
    (attempt + todo)%nat = Z.to_nat (max_retries config) ->
    let r := retry_loop config world todo attempt browser flights log slept in
    (todo = 0%nat -> attempts r = attempt /\ backoff r = slept) /\
    (todo <> 0%nat ->
     (S attempt <= attempts r)%nat /\
     total (backoff r) + retry_delay attempt
     <= total slept + retry_delay (Nat.pred (attempts r)) /\
     (List.length (backoff r) + S attempt <= List.length slept + attempts r)%nat).
Proof.
  induction todo as [|todo IH]; intros attempt browser flights log slept Hn r.
  - split; [intros _; split; reflexivity | intro H; contradiction].
  - split; [discriminate|]. intros _.
    assert (Hmore : (Z.of_nat attempt <? max_retries config - 1) = true -> todo <> 0%nat).
    { intros Hm Hz. apply Z.ltb_lt in Hm. subst todo. lia. }
    assert (Step : forall browser' flights' log' slept',
               (slept' = slept \/
                (slept' = retry_delay attempt :: slept /\ todo <> 0%nat)) ->
               let r' := retry_loop config world todo (S attempt) browser' flights'
                           log' slept' in
               (S attempt <= attempts r')%nat /\
               total (backoff r') + retry_delay attempt
               <= total slept + retry_delay (Nat.pred (attempts r')) /\
               (List.length (backoff r') + S attempt
                <= List.length slept + attempts r')%nat).
    { intros browser' flights' log' slept' Hs r'.
      assert (Hn' : (S attempt + todo)%nat = Z.to_nat (max_retries config)) by lia.
      destruct (IH (S attempt) browser' flights' log' slept' Hn') as [I0 I1].
      fold r' in I0, I1.
      destruct todo as [|todo'].
      - destruct (I0 eq_refl) as [Ha Hb]. rewrite Ha, Hb. cbn [Nat.pred].
        destruct Hs as [-> | [_ Hz]]; [|contradiction].
        repeat split; lia.
      - destruct (I1 ltac:(discriminate)) as (Ha & Hb & Hc).
        rewrite retry_delay_succ in Hb.
        pose proof (retry_delay_pos attempt) as Hp.
        destruct Hs as [-> | [-> _]]; cbn [total fold_right List.length] in *;
          fold (total slept) in *; repeat split; lia. }
    subst r. cbn [retry_loop].
    destruct (scrape_choose_flights config browser (fetch (world attempt)))
      as [browser1 [flights1|e]].
    + destruct (nonempty flights1).
      * cbn [attempts backoff Nat.pred]. repeat split; lia.
      * destruct (Z.of_nat attempt <? max_retries config - 1) eqn:M.
        -- destruct (driver_created (world attempt)); apply Step; auto.
        -- apply Step; auto.
      + destruct (caught e).
        * destruct (Z.of_nat attempt <? max_retries config - 1) eqn:M;
            apply Step; auto.
        * cbn [attempts backoff Nat.pred]. repeat split; lia.
Qed.

(** The rate limiter lets every attempt through while the attempts to come
    fit under its cap: a fatal exception then comes from the browser. *)
Lemma retry_loop_limiter_inert (todo : nat) :
  forall attempt browser flights log slept,
    (todo <> 0%nat -> Z.of_nat (attempt + todo) <= requests_per_hour config) ->
    0 <= request_count browser <= Z.of_nat attempt ->
    let r := retry_loop config world todo attempt browser flights log slept in
    forall e,
      final r = FATAL e ->
      e = AttributeError \/
      exists k, (attempt <= k < attempts r)%nat
                /\ nav (fetch (world k)) = NavRaises e.
Proof.
  induction todo as [|todo IH]; intros attempt browser flights log slept Hcap Hcount r e.
  - subst r. cbn. destruct (nonempty flights); discriminate.
  - specialize (Hcap ltac:(discriminate)).
    assert (Step : forall browser' flights' log' slept',
               0 <= request_count browser' <= Z.of_nat (S attempt) ->
               final (retry_loop config world todo (S attempt) browser' flights'
                        log' slept') = FATAL e ->
               e = AttributeError \/
               exists k, (attempt <= k < attempts (retry_loop config world todo (S attempt)
                                                    browser' flights' log' slept'))%nat
                         /\ nav (fetch (world k)) = NavRaises e).
    { intros browser' flights' log' slept' Hc Hf.
      destruct (IH (S attempt) browser' flights' log' slept'
                  ltac:(intros _; lia) Hc e Hf) as [H|(k & Hk & Hnav)];
        [left; exact H|right].
      exists k. split; [lia|exact Hnav]. }
    subst r. cbn [retry_loop]. unfold scrape_choose_flights.
    rewrite (rate_limit_under_cap config _ browser ltac:(lia)).
    cbn [driver].
    destruct (negb (driver browser)).
    + cbn [caught final]. intro H. injection H as <-. left. reflexivity.
    + destruct (nav (fetch (world attempt))) as [e'|p] eqn:N.
      * destruct (caught e').
        -- apply Step. cbn [request_count]. lia.
        -- cbn [final attempts]. intro H. injection H as <-.
           right. exists attempt. split; [lia|exact N].
      * destruct (nonempty (scrape_page config p)); [discriminate|].
        destruct (Z.of_nat attempt <? max_retries config - 1);
          [destruct (driver_created (world attempt))|];
          apply Step; cbn [request_count]; lia.
Qed.

End Backoff.

(** X10. In every run of [main]'s retry loop the delays slept between attempts
    add up to at most 5 (2 ^ (a - 1) - 1) seconds, where a is the number of
    attempts made, and there are at most a - 1 of them: no delay follows the
    last attempt. With the default of five attempts this is at most 75
    seconds. *)
Theorem backoff_is_bounded (config : ScraperConfig) (world : nat -> attempt_world)
  (t0 : Q) :
  let r := main_loop config world t0 in
  total (backoff r) <= 5 * (2 ^ Z.of_nat (Nat.pred (attempts r)) - 1) /\
  (List.length (backoff r) <= Nat.pred (attempts r))%nat /\
  (max_retries config = 5 -> total (backoff r) <= 75).
Proof.
  intro r.
  pose proof (retry_loop_backoff config world (Z.to_nat (max_retries config)) 0%nat
                {| request_count := 0; last_request_time := t0; driver := true |}
                [] [] [] eq_refl) as H.
  cbv zeta in H. change (retry_loop config world _ 0 _ [] [] []) with r in H.
  destruct H as [H0 H1].
  assert (B : total (backoff r) <= 5 * (2 ^ Z.of_nat (Nat.pred (attempts r)) - 1)
              /\ (List.length (backoff r) <= Nat.pred (attempts r))%nat).
  { destruct (Z.to_nat (max_retries config)) as [|n] eqn:E.
    - destruct (H0 eq_refl) as [Ha Hb]. rewrite Ha, Hb. cbn. split; lia.
    - destruct (H1 ltac:(discriminate)) as (Ha & Hb & Hc).
      unfold retry_delay in Hb. cbn [total fold_right List.length] in *.
      change (2 ^ Z.of_nat 0) with 1 in Hb. split; lia. }
  destruct B as [B1 B2]. split; [exact B1|]. split; [exact B2|].
  intro M5.
  pose proof (retry_loop_sound config world (Z.to_nat (max_retries config)) 0
                {| request_count := 0; last_request_time := t0; driver := true |}
                [] [] eq_refl eq_refl) as S.
  change (retry_loop config world _ 0 _ [] [] []) with r in S.
  destruct S as (_ & [_ S] & _). rewrite M5 in S. simpl in S.
  assert (P : 2 ^ Z.of_nat (Nat.pred (attempts r)) <= 2 ^ 4).
  { apply Z.pow_le_mono_r; lia. }
  change (2 ^ 4) with 16 in P. lia.
Qed.

(** X11. When max_retries is at most requests_per_hour, the rate limiter never
    ends a run of [main]'s retry loop: a fatal exception is the AttributeError
    of a missing driver or was raised by a browser or file call of one of the
    attempts made. *)
Theorem limiter_never_ends_a_run (config : ScraperConfig) (world : nat -> attempt_world)
  (t0 : Q) (e : exn) :
  max_retries config <= requests_per_hour config ->
  final (main_loop config world t0) = FATAL e ->
  e = AttributeError \/
  exists k, (k < attempts (main_loop config world t0))%nat
            /\ nav (fetch (world k)) = NavRaises e.
Proof.
  intros Hcap Hf.
  destruct (retry_loop_limiter_inert config world (Z.to_nat (max_retries config)) 0%nat
              {| request_count := 0; last_request_time := t0; driver := true |}
              [] [] []
              ltac:(intro; cbn [Nat.add]; lia)
              ltac:(cbn [request_count]; lia) e Hf) as [H|(k & Hk & Hnav)];
    [left; exact H|right].
  exists k. split; [exact (proj2 Hk)|exact Hnav].
Qed.

Lemma limiter_never_ends_a_run_witness :
  let world := sample_world [Loaded (denied_page []); NavRaises OSError] [] in
  max_retries default_config <= requests_per_hour default_config /\
  final (main_loop default_config world 0) = FATAL OSError /\
  (OSError = AttributeError \/
   exists k, (k < attempts (main_loop default_config world 0))%nat
             /\ nav (fetch (world k)) = NavRaises OSError).
Proof.
  intro world.
  assert (H1 : max_retries default_config <= requests_per_hour default_config)
    by (simpl; lia).
  assert (H2 : final (main_loop default_config world 0) = FATAL OSError)
    by (vm_compute; reflexivity).
  split; [exact H1|]. split; [exact H2|].
  exact (limiter_never_ends_a_run default_config world 0 OSError H1 H2).
Defined.

(** ** Sessions: what create_driver tries and what quit releases *)

Section Sessions.

Variable rel : releases.
Variable launches : nat -> launch.

(** With enough fuel [create_driver] returns; it tries the launches from [n]
    on, at most three less the retry count and one when that is two or more;
    all but the last fail, and a driver is returned exactly when the last
    succeeds. *)
Lemma create_driver_fuel_tries (fuel : nat) :
  forall retry_count m s n,
    (1 <= fuel)%nat -> (3 <= fuel + retry_count)%nat ->
    exists m' s' n' r,
      create_driver_fuel fuel rel launches retry_count m s n = Some (m', s', n', r) /\
      (n < n' <= n + (3 - Nat.min retry_count 2))%nat /\
      (forall k, (n <= k)%nat -> (S k < n')%nat -> launch_succeeds launches k = false) /\
      launch_succeeds launches (Nat.pred n') = is_some r /\
      (forall d, r = Some d -> session_driver s' = Some d /\ In d (browsers m')) /\
      (use_proxy s = false \/ (2 <= retry_count)%nat ->
       n' = S n /\ use_proxy s' = false /\ temp_dirs m' = temp_dirs m
       /\ temp_dir s' = temp_dir s).
Proof.
  induction fuel as [|fuel IH]; intros retry_count m s n H1 H3; [lia|].
  cbn [create_driver_fuel].
  set (s1 := if (2 <=? retry_count)%nat then _ else s).
  assert (Hs1 : use_proxy s = false \/ (2 <= retry_count)%nat -> use_proxy s1 = false).
  { unfold s1. destruct (2 <=? retry_count)%nat eqn:E; [reflexivity|].
    apply Nat.leb_gt in E. intros [H|H]; [exact H|lia]. }
  assert (Hs1t : temp_dir s1 = temp_dir s)
    by (unfold s1; destruct (2 <=? retry_count)%nat; reflexivity).
  (* the end of a call that does not retry *)
  assert (Stop : forall m3 s3 (r : option nat),
             launch_succeeds launches n = is_some r ->
             (forall d, r = Some d -> session_driver s3 = Some d /\ In d (browsers m3)) ->
             (use_proxy s = false \/ (2 <= retry_count)%nat ->
              use_proxy s3 = false /\ temp_dirs m3 = temp_dirs m
              /\ temp_dir s3 = temp_dir s) ->
             exists m' s' n' r',
               Some (m3, s3, S n, r) = Some (m', s', n', r') /\
               (n < n' <= n + (3 - Nat.min retry_count 2))%nat /\
               (forall k, (n <= k)%nat -> (S k < n')%nat -> launch_succeeds launches k = false) /\
               launch_succeeds launches (Nat.pred n') = is_some r' /\
               (forall d, r' = Some d ->
                          session_driver s' = Some d /\ In d (browsers m')) /\
               (use_proxy s = false \/ (2 <= retry_count)%nat ->
                n' = S n /\ use_proxy s' = false /\ temp_dirs m' = temp_dirs m
                /\ temp_dir s' = temp_dir s)).
  { intros m3 s3 r Hr Hd Hp. exists m3, s3, (S n), r.
    split; [reflexivity|]. split; [lia|]. split; [intros; lia|].
    split; [exact Hr|]. split; [exact Hd|]. intro H. split; [reflexivity|]. exact (Hp H). }
  (* a launch that failed *)
  assert (Failed : forall m3 s3,
             launch_succeeds launches n = false ->
             (use_proxy s1 = false ->
              use_proxy s3 = false /\ temp_dirs m3 = temp_dirs m
              /\ temp_dir s3 = temp_dir s) ->
             exists m' s' n' r',
               (if use_proxy s3 && (retry_count <? 2)%nat
                then create_driver_fuel fuel rel launches (S retry_count)
                       (quit rel m3 s3) s3 (S n)
                else Some (m3, s3, S n, None)) = Some (m', s', n', r') /\
               (n < n' <= n + (3 - Nat.min retry_count 2))%nat /\
               (forall k, (n <= k)%nat -> (S k < n')%nat -> launch_succeeds launches k = false) /\
               launch_succeeds launches (Nat.pred n') = is_some r' /\
               (forall d, r' = Some d ->
                          session_driver s' = Some d /\ In d (browsers m')) /\
               (use_proxy s = false \/ (2 <= retry_count)%nat ->
                n' = S n /\ use_proxy s' = false /\ temp_dirs m' = temp_dirs m
                /\ temp_dir s' = temp_dir s)).
  { intros m3 s3 Hf Hp.
    destruct (use_proxy s3 && (retry_count <? 2)%nat) eqn:E.
    - apply andb_true_iff in E. destruct E as [Eu Er]. apply Nat.ltb_lt in Er.
      destruct (IH (S retry_count) (quit rel m3 s3) s3 (S n) ltac:(lia) ltac:(lia))
        as (m' & s' & n' & r' & E & Hn & Hk & Hr & Hd & _).
      exists m', s', n', r'. split; [exact E|].
      split; [lia|]. split.
      + intros k K1 K2. destruct (Nat.eq_dec k n) as [->|N]; [exact Hf|].
        apply Hk; lia.
      + split; [exact Hr|]. split; [exact Hd|].
        intro H. specialize (Hs1 H). destruct (Hp Hs1) as [U _]. congruence.
    - apply Stop.
      + simpl. exact Hf.
      + intros d H. discriminate H.
      + intro H. exact (Hp (Hs1 H)). }
  destruct (use_proxy s1) eqn:U.
  - (* a temporary directory is made *)
    destruct (zip_ok (launches n)); cbv zeta;
      (destruct (chrome_ok (launches n)) eqn:C;
       [destruct (setup_ok (launches n)) eqn:T|]).
    all: try (apply Stop;
              [unfold launch_succeeds; rewrite C, T; reflexivity
              |intros d H; injection H as <-; cbn; auto
              |intro H; specialize (Hs1 H); congruence]).
    all: apply Failed;
      [unfold launch_succeeds; rewrite C, ?T; reflexivity
      |intro H; discriminate H].
  - cbv zeta.
    destruct (chrome_ok (launches n)) eqn:C;
      [destruct (setup_ok (launches n)) eqn:T|].
    + apply Stop;
        [unfold launch_succeeds; rewrite C, T; reflexivity
        |intros d H; injection H as <-; cbn; auto
        |intros _; cbn; auto].
    + apply Failed;
        [unfold launch_succeeds; rewrite C, T; reflexivity
        |intros _; cbn; auto].
    + apply Failed;
        [unfold launch_succeeds; rewrite C; reflexivity
        |intros _; cbn; auto].
Qed.

Lemma create_driver_enough_fuel (retry_count : nat) (m : Machine) (s : Session) (n : nat) :
  create_driver_fuel 3 rel launches retry_count m s n
  = Some (create_driver rel launches retry_count m s n).
Proof.
  unfold create_driver.
  destruct (create_driver_fuel_tries 3 retry_count m s n ltac:(lia) ltac:(lia))
    as (m' & s' & n' & r & E & _).
  now rewrite E.
Qed.

End Sessions.

Section Ownership.

Variable rel : releases.
Variable launches : nat -> launch.
Variable m0 : Machine.

Hypothesis released : all_released rel.
Hypothesis base_well_formed : well_formed m0.

Lemma remove_foreign (l : list nat) (bound x : nat) :
  Forall (fun i => (i < bound)%nat) l -> (bound <= x)%nat ->
  remove Nat.eq_dec x l = l.
Proof.
  intros Hl Hx. apply notin_remove. intro Hin.
  rewrite Forall_forall in Hl. specialize (Hl x Hin). lia.
Qed.

Lemma mem_foreign (l : list nat) (bound x : nat) :
  Forall (fun i => (i < bound)%nat) l -> (bound <= x)%nat -> mem x l = false.
Proof.
  intros Hl Hx. unfold mem. destruct (existsb (Nat.eqb x) l) eqn:E; [|reflexivity].
  apply existsb_exists in E. destruct E as (y & Hin & Hy).
  apply Nat.eqb_eq in Hy. subst y.
  rewrite Forall_forall in Hl. specialize (Hl x Hin). lia.
Qed.

Lemma remove_head (l : list nat) (bound x : nat) :
  Forall (fun i => (i < bound)%nat) l -> (bound <= x)%nat ->
  remove Nat.eq_dec x (x :: l) = l.
Proof.
  intros Hl Hx. cbn [remove].
  destruct (Nat.eq_dec x x) as [_|N]; [|contradiction].
  exact (remove_foreign l bound x Hl Hx).
Qed.

(** [quit] gives back what the session owns. *)
Lemma quit_releases (m : Machine) (s : Session) :
  owns m0 m s ->
  temp_dirs (quit rel m s) = temp_dirs m0 /\
  browsers (quit rel m s) = browsers m0 /\
  fresh (quit rel m s) = fresh m.
Proof.
  intros (Hf & Hd & Hb & Rt & Rd).
  destruct base_well_formed as [Wd Wb].
  unfold quit.
  set (m1 := match session_driver s with Some d => _ | None => m end).
  assert (M1 : temp_dirs m1 = temp_dirs m /\ browsers m1 = browsers m0
               /\ fresh m1 = fresh m).
  { unfold m1. destruct (session_driver s) as [d|] eqn:E.
    - rewrite (proj1 (released d)). cbn. repeat split.
      destruct Hb as [Hb|(d' & Hd' & Hb)]; rewrite Hb.
      + apply (remove_foreign _ (fresh m0)); [exact Wb|]. exact (proj1 (Rd d eq_refl)).
      + injection Hd' as <-.
        apply (remove_head _ (fresh m0)); [exact Wb|]. exact (proj1 (Rd d eq_refl)).
    - repeat split. destruct Hb as [Hb|(d' & Hd' & _)]; [exact Hb|discriminate]. }
  destruct M1 as (M1d & M1b & M1f).
  destruct (temp_dir s) as [t|] eqn:E.
  - rewrite (proj2 (released t)), andb_true_r, M1d.
    destruct Hd as [Hd|(t' & Ht' & Hd)]; rewrite Hd.
    + rewrite (mem_foreign _ (fresh m0) t Wd (proj1 (Rt t eq_refl))).
      rewrite M1d, Hd. auto.
    + injection Ht' as <-. unfold mem. cbn [existsb]. rewrite Nat.eqb_refl.
      cbn [orb temp_dirs browsers fresh].
      rewrite (remove_head _ (fresh m0)); [auto|exact Wd|exact (proj1 (Rt t eq_refl))].
  - rewrite M1d. destruct Hd as [Hd|(t' & Ht' & _)]; [auto|discriminate].
Qed.

Lemma clean_owns (m : Machine) (s : Session) : clean m0 m s -> owns m0 m s.
Proof.
  intros (H1 & H2 & H3 & H4 & H5).
  split; [exact H3|]. split; [left; exact H1|]. split; [left; exact H2|].
  split; assumption.
Qed.

Lemma quit_clean (m : Machine) (s : Session) : owns m0 m s -> clean m0 (quit rel m s) s.
Proof.
  intro H. destruct (quit_releases m s H) as (Q1 & Q2 & Q3).
  destruct H as (Hf & _ & _ & Rt & Rd).
  unfold clean. rewrite Q1, Q2, Q3. auto.
Qed.

Lemma create_driver_fuel_owns (fuel : nat) :
  forall retry_count m s n m' s' n' r,
    clean m0 m s ->
    create_driver_fuel fuel rel launches retry_count m s n = Some (m', s', n', r) ->
    owns m0 m' s'.
Proof.
  induction fuel as [|fuel IH]; intros retry_count m s n m' s' n' r Hc H; [discriminate|].
  cbn [create_driver_fuel] in H.
  destruct Hc as (Cd & Cb & Cf & Rt & Rd).
  set (s1 := if (2 <=? retry_count)%nat then _ else s) in H.
  assert (S1t : temp_dir s1 = temp_dir s)
    by (unfold s1; destruct (2 <=? retry_count)%nat; reflexivity).
  assert (S1d : session_driver s1 = session_driver s)
    by (unfold s1; destruct (2 <=? retry_count)%nat; reflexivity).
  assert (Fin : forall m3 s3,
             owns m0 m3 s3 ->
             (if use_proxy s3 && (retry_count <? 2)%nat
              then create_driver_fuel fuel rel launches (S retry_count)
                     (quit rel m3 s3) s3 (S n)
              else Some (m3, s3, S n, None)) = Some (m', s', n', r) ->
             owns m0 m' s').
  { intros m3 s3 Ho Hr. destruct (use_proxy s3 && (retry_count <? 2)%nat).
    - exact (IH _ _ _ _ _ _ _ _ (quit_clean m3 s3 Ho) Hr).
    - injection Hr as <- <- _ _. exact Ho. }
  assert (Done : forall m3 s3 d,
             owns m0 m3 s3 -> Some (m3, s3, S n, Some d) = Some (m', s', n', r) ->
             owns m0 m' s').
  { intros m3 s3 d Ho Hr. injection Hr as <- <- _ _. exact Ho. }
  (* the states the call can build *)
  assert (Plain : owns m0 m s1).
  { split; [exact Cf|]. split; [left; exact Cd|]. split; [left; exact Cb|].
    split; [rewrite S1t; exact Rt | rewrite S1d; exact Rd]. }
  assert (Brow : forall u x,
             owns m0 {| temp_dirs := temp_dirs m; browsers := fresh m :: browsers m;
                        fresh := S (fresh m) |}
                  {| use_proxy := u; temp_dir := temp_dir s1; has_extension := x;
                     session_driver := Some (fresh m) |}).
  { intros u x. split; [cbn; lia|]. split; [left; exact Cd|].
    split; [right; exists (fresh m); cbn; rewrite Cb; auto|].
    split; cbn.
    - intros t Ht. rewrite S1t in Ht. specialize (Rt t Ht). lia.
    - intros d Hd. injection Hd as <-. lia. }
  assert (Dir : forall u x,
             owns m0 {| temp_dirs := fresh m :: temp_dirs m; browsers := browsers m;
                        fresh := S (fresh m) |}
                  {| use_proxy := u; temp_dir := Some (fresh m); has_extension := x;
                     session_driver := session_driver s1 |}).
  { intros u x. split; [cbn; lia|].
    split; [right; exists (fresh m); cbn; rewrite Cd; auto|].
    split; [left; exact Cb|].
    split; cbn.
    - intros t Ht. injection Ht as <-. lia.
    - intros d Hd. rewrite S1d in Hd. specialize (Rd d Hd). lia. }
  assert (Both : forall u x,
             owns m0 {| temp_dirs := fresh m :: temp_dirs m;
                        browsers := S (fresh m) :: browsers m;
                        fresh := S (S (fresh m)) |}
                  {| use_proxy := u; temp_dir := Some (fresh m); has_extension := x;
                     session_driver := Some (S (fresh m)) |}).
  { intros u x. split; [cbn; lia|].
    split; [right; exists (fresh m); cbn; rewrite Cd; auto|].
    split; [right; exists (S (fresh m)); cbn; rewrite Cb; auto|].
    split; cbn.
    - intros t Ht. injection Ht as <-. lia.
    - intros d Hd. injection Hd as <-. lia. }
  destruct (use_proxy s1) eqn:U.
  - destruct (zip_ok (launches n)); cbv zeta in H;
      cbn [fresh temp_dirs browsers use_proxy temp_dir has_extension session_driver] in H;
      (destruct (chrome_ok (launches n));
       [destruct (setup_ok (launches n))|]).
    all: first [ exact (Done _ _ _ (Both true true) H)
               | exact (Done _ _ _ (Both false false) H)
               | exact (Fin _ _ (Both true true) H)
               | exact (Fin _ _ (Both false false) H)
               | exact (Fin _ _ (Dir true true) H)
               | exact (Fin _ _ (Dir false false) H) ].
  - cbv zeta in H.
    destruct (chrome_ok (launches n)); [destruct (setup_ok (launches n))|].
    + exact (Done _ _ _ (Brow (use_proxy s1) (has_extension s1)) H).
    + exact (Fin _ _ (Brow (use_proxy s1) (has_extension s1)) H).
    + exact (Fin _ _ Plain H).
Qed.

Lemma create_driver_owns (retry_count : nat) (m : Machine) (s : Session) (n : nat) :
  clean m0 m s ->
  owns m0 (fst (fst (fst (create_driver rel launches retry_count m s n))))
          (snd (fst (fst (create_driver rel launches retry_count m s n)))).
Proof.
  intro Hc.
  pose proof (create_driver_enough_fuel rel launches retry_count m s n) as E.
  destruct (create_driver rel launches retry_count m s n) as [[[m' s'] n'] r].
  exact (create_driver_fuel_owns 3 _ _ _ _ _ _ _ _ Hc E).
Qed.

Variable config : ScraperConfig.
Variable world : nat -> attempt_world.

(** Along the retry loop the session of the current browser owns all that the
    run holds beyond the machine it started on. *)
Lemma session_loop_owns (todo : nat) :
  forall attempt browser s m n flights,
    owns m0 m s ->
    let '(m', s', _, _) :=
      session_loop config world rel launches todo attempt browser s m n flights in
    owns m0 m' s'.
Proof.
  induction todo as [|todo IH]; intros attempt browser s m n flights Ho.
  - exact Ho.
  - cbn [session_loop].
    destruct (scrape_choose_flights config browser (fetch (world attempt)))
      as [browser1 [flights1|e]].
    + destruct (nonempty flights1); [exact Ho|].
      destruct (Z.of_nat attempt <? max_retries config - 1); [|apply IH; exact Ho].
      assert (Hc : clean m0 (quit rel m s) new_session).
      { destruct (quit_clean m s Ho) as (C1 & C2 & C3 & _).
        split; [exact C1|]. split; [exact C2|]. split; [exact C3|].
        split; intros x Hx; discriminate Hx. }
      pose proof (create_driver_owns attempt (quit rel m s) new_session n Hc) as Ho'.
      destruct (create_driver rel launches attempt (quit rel m s) new_session n)
        as [[[m2 s2] n2] r].
      apply IH. exact Ho'.
    + destruct (caught e); [apply IH; exact Ho|exact Ho].
Qed.

End Ownership.

(** X12. [create_driver] always returns, after at most three launches of the
    browser less the retry count it is given, and after one launch when that
    count is two or more or the proxy is already off. Every launch but the
    last one failed, and the call returns a driver exactly when the last launch
    succeeded: the driver is then the session's and runs. With a retry count of
    two or more, or the proxy off, the proxy stays off and no temporary
    directory is made. *)
Theorem create_driver_tries (rel : releases) (launches : nat -> launch)
  (retry_count : nat) (m : Machine) (s : Session) (n : nat) :
  create_driver_fuel 3 rel launches retry_count m s n
  = Some (create_driver rel launches retry_count m s n) /\
  let '(m', s', n', r) := create_driver rel launches retry_count m s n in
  (n < n' <= n + (3 - Nat.min retry_count 2))%nat /\
  (forall k, (n <= k)%nat -> (S k < n')%nat -> launch_succeeds launches k = false) /\
  launch_succeeds launches (Nat.pred n') = is_some r /\
  (forall d, r = Some d -> session_driver s' = Some d /\ In d (browsers m')) /\
  (use_proxy s = false \/ (2 <= retry_count)%nat ->
   n' = S n /\ use_proxy s' = false /\ temp_dirs m' = temp_dirs m
   /\ temp_dir s' = temp_dir s).
Proof.
  split; [apply create_driver_enough_fuel|].
  unfold create_driver.
  destruct (create_driver_fuel_tries rel launches 3 retry_count m s n
              ltac:(lia) ltac:(lia))
    as (m' & s' & n' & r & E & H).
  rewrite E. exact H.
Qed.

(** X13. When the releases go through, [quit] after [create_driver] on a new
    session leaves the machine with the temporary directories and browsers it
    had before, however the launches went; and before the [quit] the session
    holds at most one directory and one browser beyond them. *)
Theorem quit_releases_the_session (rel : releases) (launches : nat -> launch)
  (retry_count : nat) (m : Machine) (n : nat) :
  all_released rel ->
  well_formed m ->
  let '(m', s', _, _) := create_driver rel launches retry_count m new_session n in
  temp_dirs (quit rel m' s') = temp_dirs m /\
  browsers (quit rel m' s') = browsers m /\
  owns m m' s'.
Proof.
  intros Hr Hw.
  assert (Hc : clean m m new_session).
  { split; [reflexivity|]. split; [reflexivity|]. split; [lia|].
    split; intros x Hx; discriminate Hx. }
  pose proof (create_driver_owns rel launches m Hr Hw retry_count m new_session n Hc)
    as Ho.
  destruct (create_driver rel launches retry_count m new_session n) as [[[m' s'] n'] r].
  cbn [fst snd] in Ho.
  destruct (quit_releases rel m Hr Hw m' s' Ho) as (Q1 & Q2 & _).
  auto.
Qed.

Lemma quit_releases_the_session_witness :
  let '(m', s', _, _) :=
    create_driver releases_ok (launches_until 1) 0 busy_machine new_session 0 in
  temp_dirs m' = [4%nat; 0%nat] /\
  temp_dirs (quit releases_ok m' s') = temp_dirs busy_machine /\
  browsers (quit releases_ok m' s') = browsers busy_machine.
Proof.
  assert (Hr : all_released releases_ok) by (intro i; split; reflexivity).
  assert (Hw : well_formed busy_machine).
  { split; repeat constructor. }
  pose proof (quit_releases_the_session releases_ok (launches_until 1) 0 busy_machine 0
                Hr Hw) as H.
  assert (E : temp_dirs (fst (fst (fst (create_driver releases_ok (launches_until 1) 0
                                          busy_machine new_session 0))))
              = [4%nat; 0%nat]) by (vm_compute; reflexivity).
  destruct (create_driver releases_ok (launches_until 1) 0 busy_machine new_session 0)
    as [[[m' s'] n'] r].
  cbn [fst] in E. destruct H as (H1 & H2 & _). auto.
Defined.

(** X14. When the releases go through, [main] leaves the machine with the
    temporary directories and browsers it had at the start, however it ends:
    without a browser, in success, exhausted, or by an exception the loop does
    not catch. *)
Theorem main_releases_everything (config : ScraperConfig) (world : nat -> attempt_world)
  (rel : releases) (launches : nat -> launch) (t0 : Q) (m : Machine) :
  all_released rel ->
  well_formed m ->
  temp_dirs (fst (main_sessions config world rel launches t0 m)) = temp_dirs m /\
  browsers (fst (main_sessions config world rel launches t0 m)) = browsers m.
Proof.
  intros Hr Hw. unfold main_sessions.
  assert (Hc : clean m m new_session).
  { split; [reflexivity|]. split; [reflexivity|]. split; [lia|].
    split; intros x Hx; discriminate Hx. }
  pose proof (create_driver_owns rel launches m Hr Hw 0 m new_session 0 Hc) as Ho.
  destruct (create_driver rel launches 0 m new_session 0) as [[[m1 s1] n1] r].
  cbn [fst snd] in Ho.
  destruct r as [d|].
  - pose proof (session_loop_owns rel launches m Hr Hw config world
                  (Z.to_nat (max_retries config)) 0
                  {| request_count := 0; last_request_time := t0; driver := true |}
                  s1 m1 n1 [] Ho) as Ho2.
    destruct (session_loop config world rel launches _ 0 _ s1 m1 n1 [])
      as [[[m2 s2] o] a].
    cbn [fst]. destruct (quit_releases rel m Hr Hw m2 s2 Ho2) as (Q1 & Q2 & _). auto.
  - cbn [fst]. destruct (quit_releases rel m Hr Hw m1 s1 Ho) as (Q1 & Q2 & _). auto.
Qed.

Lemma main_releases_everything_witness :
  let world :=
    sample_world [Loaded (denied_page []); Loaded (fares_page scenario_buttons)] [] in
  let m' := fst (main_sessions default_config world releases_ok (launches_until 1) 0
                   busy_machine) in
  fresh m' = 8%nat /\
  temp_dirs m' = temp_dirs busy_machine /\ browsers m' = browsers busy_machine.
Proof.
  intros world m'.
  assert (Hr : all_released releases_ok) by (intro i; split; reflexivity).
  assert (Hw : well_formed busy_machine).
  { split; repeat constructor. }
  split; [vm_compute; reflexivity|].
  exact (main_releases_everything default_config world releases_ok (launches_until 1) 0
           busy_machine Hr Hw).
Defined.

(** ** Pauses *)

Lemma uniform_between (a b u : Q) :
  (a <= b)%Q -> (0 <= u <= 1)%Q -> (a <= uniform a b u <= b)%Q.
Proof.
  unfold uniform. intros Hab [H0 H1].
  assert (0 <= (b - a) * u)%Q by (apply Qmult_le_0_compat; lra).
  assert (0 <= (b - a) * (1 - u))%Q by (apply Qmult_le_0_compat; lra).
  split; lra.
Qed.

Lemma uniform_between_rev (a b u : Q) :
  (b <= a)%Q -> (0 <= u <= 1)%Q -> (b <= uniform a b u <= a)%Q.
Proof.
  unfold uniform. intros Hab [H0 H1].
  assert (0 <= (a - b) * u)%Q by (apply Qmult_le_0_compat; lra).
  assert (0 <= (a - b) * (1 - u))%Q by (apply Qmult_le_0_compat; lra).
  split; lra.
Qed.

Lemma truthy_float_nonzero (x : Q) : ~ (x == 0)%Q -> Py.truthy_float x = true.
Proof.
  intro H. unfold Py.truthy_float. apply negb_true_iff.
  destruct (Qeq_bool x 0) eqn:E; [|reflexivity].
  apply Qeq_bool_iff in E. contradiction.
Qed.

Lemma truthy_float_zero (x : Q) : (x == 0)%Q -> Py.truthy_float x = false.
Proof.
  intro H. unfold Py.truthy_float. apply negb_false_iff. now apply Qeq_bool_iff.
Qed.

Lemma time_sleep_ok (t : Q) : (0 <= t)%Q -> time_sleep t = Ok t.
Proof.
  intro H. unfold time_sleep.
  destruct (Qltb t 0) eqn:E; [|reflexivity].
  apply Qltb_lt in E. lra.
Qed.

Lemma rand_sleep_fixed (a b : Q) (config : option Pacing) (u : Q) :
  (0 < a)%Q -> (a <= b)%Q -> (0 <= u <= 1)%Q ->
  exists t, rand_sleep (Some a) (Some b) config u = Ok t /\ (a <= t <= b)%Q.
Proof.
  intros Ha Hab Hu. exists (uniform a b u).
  pose proof (uniform_between a b u Hab Hu) as Hb.
  unfold rand_sleep, or_default.
  rewrite !truthy_float_nonzero by lra.
  split; [apply time_sleep_ok; lra | exact Hb].
Qed.

(** X15. With two positive bounds, [rand_sleep] does not raise and sleeps a
    time between them, in whichever order they are given, whatever the
    configuration. *)
Theorem rand_sleep_between (a b : Q) (config : option Pacing) (u : Q) :
  (0 < a)%Q -> (0 < b)%Q -> (0 <= u <= 1)%Q ->
  exists t, rand_sleep (Some a) (Some b) config u = Ok t /\
    ((a <= b)%Q -> (a <= t <= b)%Q) /\ ((b <= a)%Q -> (b <= t <= a)%Q).
Proof.
  intros Ha Hb Hu. exists (uniform a b u).
  unfold rand_sleep, or_default.
  rewrite !truthy_float_nonzero by lra.
  assert (H : (0 <= uniform a b u)%Q).
  { destruct (Qlt_le_dec a b) as [L|L].
    - pose proof (uniform_between a b u (Qlt_le_weak _ _ L) Hu). lra.
    - pose proof (uniform_between_rev a b u L Hu). lra. }
  split; [apply time_sleep_ok; exact H|].
  split; intro L; [apply uniform_between | apply uniform_between_rev]; assumption.
Qed.

Lemma rand_sleep_between_witness :
  exists t, rand_sleep (Some 8%Q) (Some 3%Q) None (1 # 4) = Ok t /\ (3 <= t <= 8)%Q.
Proof.
  destruct (rand_sleep_between 8 3 None (1 # 4)) as (t & E & _ & H);
    [reflexivity | reflexivity | split; discriminate |].
  exists t. split; [exact E | apply H; discriminate].
Defined.

(** X16. A bound of zero counts as no bound: [rand_sleep] takes the
    configuration's in its place. Asked for a sleep between 0 and [b] seconds
    with [b] at most [min_sleep], it sleeps at least [b] seconds, and up to
    [min_sleep]. *)
Theorem rand_sleep_zero_bound (b : Q) (config : Pacing) (u : Q) :
  (0 < b)%Q -> (b <= min_sleep config)%Q -> (0 <= u <= 1)%Q ->
  rand_sleep (Some 0%Q) (Some b) (Some config) u
  = rand_sleep None (Some b) (Some config) u /\
  exists t, rand_sleep (Some 0%Q) (Some b) (Some config) u = Ok t /\
    (b <= t <= min_sleep config)%Q.
Proof.
  intros Hb Hm Hu. split; [reflexivity|].
  exists (uniform (min_sleep config) b u).
  pose proof (uniform_between_rev (min_sleep config) b u Hm Hu) as H.
  unfold rand_sleep, or_default.
  rewrite (truthy_float_zero 0) by reflexivity.
  rewrite truthy_float_nonzero by lra.
  split; [apply time_sleep_ok; lra | exact H].
Qed.

Lemma rand_sleep_zero_bound_witness :
  exists t, rand_sleep (Some 0%Q) (Some 1%Q) (Some default_pacing) (1 # 2) = Ok t /\
    (1 <= t <= 15 # 10)%Q.
Proof.
  destruct (rand_sleep_zero_bound 1 default_pacing (1 # 2)) as (_ & t & E & H);
    [reflexivity | discriminate | split; discriminate |].
  exists t. split; [exact E | exact H].
Defined.

Lemma append_nothing (a : string) : (a ++ EmptyString)%string = a.
Proof.
  induction a as [|c a IH]; [reflexivity|]. cbn [String.append]. now rewrite IH.
Qed.

(** X17. [human_typing] sends the characters of the text in order and one at
    a time: whenever it stops, the element has received a prefix of the text,
    and the whole text exactly when no [send_keys] raised. With typing bounds
    in order and not negative, it has slept between [typing_min] and
    [typing_max] seconds for each character sent. *)
Theorem human_typing_keys (config : Pacing) (keys_ok : nat -> bool) (draws : nat -> Q) :
  unit_draws draws ->
  (0 <= typing_min config)%Q -> (typing_min config <= typing_max config)%Q ->
  forall text k element slept,
    let '(element', slept', res) :=
      human_typing config keys_ok draws k element text slept in
    exists sent rest,
      text = (sent ++ rest)%string /\
      element' = (element ++ sent)%string /\
      (forall j, (k <= j < k + String.length sent)%nat -> keys_ok j = true) /\
      (res = Ok tt /\ rest = EmptyString \/
       res = Raise WebDriverException /\ rest <> EmptyString /\
       keys_ok (k + String.length sent)%nat = false) /\
      (slept + inject_Z (Z.of_nat (String.length sent)) * typing_min config <= slept')%Q /\
      (slept' <= slept + inject_Z (Z.of_nat (String.length sent)) * typing_max config)%Q.
Proof.
  intros Hd Hmin Hle.
  induction text as [|c text IH]; intros k element slept.
  - cbn [human_typing]. exists EmptyString, EmptyString.
    split; [reflexivity|]. split; [now rewrite append_nothing|].
    split; [cbn [String.length]; intros j Hj; lia|].
    split; [left; split; reflexivity|].
    cbn [String.length Z.of_nat]. unfold inject_Z. split; lra.
  - cbn [human_typing]. destruct (keys_ok k) eqn:Ek.
    + pose proof (uniform_between _ _ (draws k) Hle (Hd k)) as Hu.
      rewrite time_sleep_ok by lra.
      specialize (IH (S k) (element ++ String c EmptyString)%string
                     (slept + uniform (typing_min config) (typing_max config) (draws k))%Q).
      destruct (human_typing config keys_ok draws (S k) _ text _) as [[element' slept'] res].
      destruct IH as (sent & rest & Ht & He & Hk & Hr & Hlo & Hhi).
      exists (String c sent), rest.
      split; [cbn [String.append]; now rewrite Ht|].
      split; [rewrite He, append_assoc; reflexivity|].
      split.
      { cbn [String.length]. intros j Hj.
        destruct (Nat.eq_dec j k) as [->|N]; [exact Ek | apply Hk; lia]. }
      split.
      { cbn [String.length]. replace (k + S (String.length sent))%nat
          with (S k + String.length sent)%nat by lia. exact Hr. }
      cbn [String.length]. rewrite Nat2Z.inj_succ. unfold Z.succ. rewrite inject_Z_plus.
      generalize dependent (inject_Z (Z.of_nat (String.length sent))). intros n Hlo Hhi.
      change (inject_Z 1) with 1%Q. split; lra.
    + exists EmptyString, (String c text).
      split; [reflexivity|]. split; [now rewrite append_nothing|].
      split; [cbn [String.length]; intros j Hj; lia|].
      split.
      { right. split; [reflexivity|]. split; [discriminate|].
        cbn [String.length]. now rewrite Nat.add_0_r. }
      cbn [String.length Z.of_nat]. unfold inject_Z. split; lra.
Qed.

Lemma human_typing_keys_witness :
  let '(element', slept', res) :=
    human_typing default_pacing (fun k => (k <? 3)%nat) half_draws 0 "to "%string
      "JFK-LAX"%string 0 in
  element' = "to JFK"%string /\ res = Raise WebDriverException /\
  (3 * (5 # 100) <= slept' <= 3 * (2 # 10))%Q.
Proof.
  pose proof (human_typing_keys default_pacing (fun k => (k <? 3)%nat) half_draws) as H.
  assert (Hd : unit_draws half_draws) by (intro k; split; discriminate).
  specialize (H Hd ltac:(discriminate) ltac:(discriminate) "JFK-LAX"%string 0%nat
                "to "%string 0%Q).
  assert (E : fst (fst (human_typing default_pacing (fun k => (k <? 3)%nat) half_draws 0
                          "to "%string "JFK-LAX"%string 0))
              = "to JFK"%string) by (vm_compute; reflexivity).
  destruct (human_typing default_pacing (fun k => (k <? 3)%nat) half_draws 0
              "to "%string "JFK-LAX"%string 0) as [[element' slept'] res].
  destruct H as (sent & rest & Ht & He & Hk & Hr & Hlo & Hhi).
  cbn [fst] in E. subst element'.
  assert (Hs : sent = "JFK"%string).
  { clear - E.
    destruct sent as [|c1 [|c2 [|c3 [|c4 s]]]]; cbn in E; try discriminate E.
    congruence. }
  subst sent. split; [reflexivity|].
  split.
  { destruct Hr as [[_ Hr]|[Hr _]]; [|exact Hr].
    subst rest. discriminate Ht. }
  cbn [String.length Z.of_nat Pos.of_succ_nat Pos.succ] in Hlo, Hhi.
  cbn [typing_min typing_max default_pacing] in Hlo, Hhi.
  change (inject_Z 3) with 3%Q in Hlo, Hhi. split; lra.
Defined.

Section Pauses.

Variable pacing : Pacing.
Variable draws : nat -> Q.
Hypothesis draws_unit : unit_draws draws.

(** What [simulate_human_behavior] sleeps, whatever it draws and meets. *)
Lemma simulate_human_behavior_slept (driver : bool) (g : gesture) (k : nat) :
  (0 <= slept_in (fst (simulate_human_behavior driver pacing g draws k)) <= 47 # 10)%Q.
Proof.
  unfold simulate_human_behavior.
  destruct (rand_sleep_fixed (7 # 10) 2 (Some pacing) (draws k))
    as (t1 & E1 & B1); [reflexivity | discriminate | apply draws_unit |].
  destruct (rand_sleep_fixed (5 # 10) (15 # 10) (Some pacing) (draws (S k)))
    as (t2 & E2 & B2); [reflexivity | discriminate | apply draws_unit |].
  destruct (rand_sleep_fixed (3 # 10) (12 # 10) (Some pacing) (draws (S (S k))))
    as (t3 & E3 & B3); [reflexivity | discriminate | apply draws_unit |].
  rewrite E1, E2, E3.
  destruct driver; cbn [negb fst slept_in]; [|lra].
  destruct (scroll_down_ok g); cbn [negb fst slept_in]; [|lra].
  destruct (scroll_up_ok g); cbn [negb fst slept_in app]; [|lra].
  destruct (elements g) as [found|]; cbn [fst slept_in app]; [|lra].
  destruct (firstn 15 found) as [|e some]; cbn [fst slept_in app]; [lra|].
  destruct (move_ok g); cbn [negb fst slept_in app]; [|lra].
  destruct (Qltb (6 # 10) (click_draw g)); [destruct (click_ok g)|];
    cbn [fst slept_in app]; lra.
Qed.

(** The paced loop gives the flights of [scrape_buttons] and sleeps once for
    each flight it adds. *)
Lemma scrape_buttons_paced_spec (config : ScraperConfig) (buttons : list button) :
  forall k i flights slept,
    fst (scrape_buttons_paced config pacing draws k i buttons flights slept)
    = scrape_buttons config i buttons flights /\
    exists added,
      List.length (scrape_buttons config i buttons flights)
      = (List.length flights + added)%nat /\
      (slept + (7 # 10) * inject_Z (Z.of_nat added)
       <= snd (scrape_buttons_paced config pacing draws k i buttons flights slept))%Q /\
      (snd (scrape_buttons_paced config pacing draws k i buttons flights slept)
       <= slept + 2 * inject_Z (Z.of_nat added))%Q.
Proof.
  induction buttons as [|b rest IH]; intros k i flights slept.
  - cbn [scrape_buttons_paced scrape_buttons fst snd]. split; [reflexivity|].
    exists 0%nat. split; [lia|]. cbn [Z.of_nat]. unfold inject_Z. split; lra.
  - cbn [scrape_buttons_paced scrape_buttons].
    destruct (scrape_button config i b) as [[f|]|e].
    + destruct (rand_sleep_fixed (7 # 10) 2 (Some pacing) (draws k))
        as (t & E & B); [reflexivity | discriminate | apply draws_unit |].
      rewrite E.
      destruct (IH (S k) (S i) (flights ++ [f])%list (slept + t)%Q)
        as (F & added & L & Lo & Hi).
      split; [exact F|]. exists (S added).
      split; [rewrite L, length_app; cbn [List.length]; lia|].
      rewrite Nat2Z.inj_succ. unfold Z.succ. rewrite inject_Z_plus.
      change (inject_Z 1) with 1%Q. split; lra.
    + apply IH.
    + apply IH.
Qed.

End Pauses.

(** X18. [simulate_human_behavior] is bounded whatever the browser does: it
    sleeps at most 4.7 seconds in all; with [scroll_y] drawn between 100 and
    700 the page ends between 0 and 700 pixels below where it was, never
    above; the pointer moves only to one of the first 15 elements found, and
    a click is on the element it has just moved to. Without a driver it does
    nothing. *)
Theorem simulate_human_behavior_bounded (driver : bool) (pacing : Pacing) (g : gesture)
  (draws : nat -> Q) (k : nat) :
  unit_draws draws ->
  100 <= scroll_y g <= 700 ->
  let acts := fst (simulate_human_behavior driver pacing g draws k) in
  (0 <= slept_in acts <= 47 # 10)%Q /\
  0 <= scrolled acts <= 700 /\
  (forall e, In (MoveTo e) acts ->
             exists found, elements g = Some found /\ In e (firstn 15 found)) /\
  (forall e, In (Click e) acts ->
             exists before after, acts = (before ++ MoveTo e :: Click e :: after)%list) /\
  (driver = false -> acts = []).
Proof.
  intros Hd Hy acts.
  split; [apply simulate_human_behavior_slept; exact Hd|].
  subst acts. unfold simulate_human_behavior.
  destruct (rand_sleep_fixed (7 # 10) 2 (Some pacing) (draws k))
    as (t1 & E1 & B1); [reflexivity | discriminate | apply Hd |].
  destruct (rand_sleep_fixed (5 # 10) (15 # 10) (Some pacing) (draws (S k)))
    as (t2 & E2 & B2); [reflexivity | discriminate | apply Hd |].
  destruct (rand_sleep_fixed (3 # 10) (12 # 10) (Some pacing) (draws (S (S k))))
    as (t3 & E3 & B3); [reflexivity | discriminate | apply Hd |].
  rewrite E1, E2, E3.
  assert (Hhalf : 2 * (scroll_y g / 2) <= scroll_y g).
  { apply Z.mul_div_le. lia. }
  assert (Hpos : 0 <= scroll_y g / 2).
  { apply Z.div_pos; lia. }
  assert (Nothing : forall acts' : list action,
             (forall e, ~ In (MoveTo e) acts') -> (forall e, ~ In (Click e) acts') ->
             0 <= scrolled acts' <= 700 -> (driver = false -> acts' = []) ->
             0 <= scrolled acts' <= 700 /\
             (forall e, In (MoveTo e) acts' ->
                        exists found, elements g = Some found /\ In e (firstn 15 found)) /\
             (forall e, In (Click e) acts' ->
                        exists before after,
                          acts' = (before ++ MoveTo e :: Click e :: after)%list) /\
             (driver = false -> acts' = [])).
  { intros acts' Hm Hc Hs Hn. split; [exact Hs|].
    split; [intros e He; destruct (Hm e He)|].
    split; [intros e He; destruct (Hc e He)|exact Hn]. }
  assert (Plain : forall l : list action,
             (forall a, In a l -> (exists dy, a = ScrollBy dy) \/ (exists t, a = Sleep t)) ->
             (forall e, ~ In (MoveTo e) l) /\ (forall e, ~ In (Click e) l)).
  { intros l Hl. split; intros e He; destruct (Hl _ He) as [[? ?]|[? ?]]; discriminate. }
  destruct driver; cbn [negb fst].
  2:{ apply Nothing; [intros e [] | intros e [] | cbn [scrolled]; lia | reflexivity]. }
  destruct (scroll_down_ok g); cbn [negb fst].
  2:{ apply Nothing; [intros e [] | intros e [] | cbn [scrolled]; lia | discriminate]. }
  destruct (scroll_up_ok g); cbn [negb fst app].
  2:{ apply Nothing; [| | cbn [scrolled]; lia | discriminate];
      intros e He; cbn [In] in He; intuition discriminate. }
  assert (Base : forall e,
             ~ In (MoveTo e) [ScrollBy (scroll_y g); Sleep t1;
                              ScrollBy (- (scroll_y g / 2)); Sleep t2] /\
             ~ In (Click e) [ScrollBy (scroll_y g); Sleep t1;
                             ScrollBy (- (scroll_y g / 2)); Sleep t2]).
  { intro e. split; intro He; cbn [In] in He; intuition discriminate. }
  destruct (elements g) as [found|] eqn:Ef; cbn [fst app].
  2:{ apply Nothing; [intro e; apply Base | intro e; apply Base
                      | cbn [scrolled]; lia | discriminate]. }
  destruct (firstn 15 found) as [|e0 some] eqn:Efirst; cbn [fst app].
  1:{ apply Nothing; [intro e; apply Base | intro e; apply Base
                      | cbn [scrolled]; lia | discriminate]. }
  destruct (move_ok g); cbn [negb fst app].
  2:{ apply Nothing; [intro e; apply Base | intro e; apply Base
                      | cbn [scrolled]; lia | discriminate]. }
  set (target := nth (choice g mod List.length (e0 :: some)) (e0 :: some) e0).
  assert (Ht : In target (e0 :: some)).
  { apply nth_In. apply Nat.mod_upper_bound. cbn [List.length]. lia. }
  assert (Moves : forall e l,
             In (MoveTo e) ([ScrollBy (scroll_y g); Sleep t1;
                             ScrollBy (- (scroll_y g / 2)); Sleep t2; MoveTo target] ++ l) ->
             (forall a, In a l -> a = Click target \/ exists t, a = Sleep t) ->
             exists found0, Some found = Some found0 /\ In e (firstn 15 found0)).
  { intros e l He Hl. exists found. split; [reflexivity|]. rewrite Efirst.
    apply in_app_or in He. destruct He as [He|He].
    - cbn [In] in He.
      destruct He as [He|[He|[He|[He|[He|[]]]]]]; try discriminate He.
      injection He as <-. exact Ht.
    - destruct (Hl _ He) as [H|[t H]]; discriminate H. }
  destruct (Qltb (6 # 10) (click_draw g)); [destruct (click_ok g)|]; cbn [fst app].
  - split; [cbn [scrolled]; lia|].
    split.
    { intros e He. apply (Moves e [Click target; Sleep t3]); [exact He|].
      intros a Ha. cbn [In] in Ha. destruct Ha as [<-|[<-|[]]]; [left | right; eexists];
        reflexivity. }
    split; [|discriminate].
    intros e He. cbn [In] in He.
    destruct He as [He|[He|[He|[He|[He|[He|[He|[]]]]]]]]; try discriminate He.
    injection He as <-.
    exists [ScrollBy (scroll_y g); Sleep t1; ScrollBy (- (scroll_y g / 2)); Sleep t2],
      [Sleep t3]. reflexivity.
  - split; [cbn [scrolled]; lia|].
    split.
    { intros e He. apply (Moves e []); [rewrite app_nil_r; exact He|]. intros a []. }
    split; [|discriminate].
    intros e He. cbn [In] in He.
    destruct He as [He|[He|[He|[He|[He|[]]]]]]; discriminate He.
  - split; [cbn [scrolled]; lia|].
    split.
    { intros e He. apply (Moves e [Sleep t3]); [exact He|].
      intros a Ha. cbn [In] in Ha. destruct Ha as [<-|[]]. right; eexists; reflexivity. }
    split; [|discriminate].
    intros e He. cbn [In] in He.
    destruct He as [He|[He|[He|[He|[He|[He|[]]]]]]]; discriminate He.
Qed.

Lemma simulate_human_behavior_bounded_witness :
  let acts := fst (simulate_human_behavior true default_pacing sample_gesture
                     half_draws 0) in
  scrolled acts = 151 /\ In (Click 7%nat) acts /\ (slept_in acts <= 47 # 10)%Q.
Proof.
  intro acts.
  assert (Hd : unit_draws half_draws) by (intro k; split; discriminate).
  pose proof (simulate_human_behavior_bounded true default_pacing sample_gesture
                half_draws 0 Hd ltac:(cbn; lia)) as H.
  split; [vm_compute; reflexivity|].
  split; [vm_compute; tauto|].
  exact (proj2 (proj1 H)).
Defined.

(** X19. On a page whose flight buttons appear, [scrape_choose_flights]
    returns the flights of the extractor and does not raise in its pauses; it
    has then slept at least 3 seconds and 0.7 seconds for each flight it
    returns, and at most 12.7 seconds and 2 seconds for each flight. When the
    buttons do not appear in time it does not sleep. *)
Theorem scrape_pauses (config : ScraperConfig) (pacing : Pacing) (p : page)
  (g : gesture) (draws : nat -> Q) :
  unit_draws draws ->
  exists slept,
    scrape_page_paced config pacing p g draws = (slept, Ok (scrape_page config p)) /\
    let flights := inject_Z (Z.of_nat (List.length (scrape_page config p))) in
    (wait_ok p = false -> slept = 0%Q) /\
    (wait_ok p = true ->
     (3 + (7 # 10) * flights <= slept)%Q /\ (slept <= (127 # 10) + 2 * flights)%Q).
Proof.
  intro Hd. unfold scrape_page_paced, scrape_page.
  destruct (wait_ok p); cbn [negb].
  2:{ exists 0%Q. split; [reflexivity|]. split; [reflexivity | discriminate]. }
  destruct (rand_sleep_fixed 3 8 (Some pacing) (draws 0%nat))
    as (t0 & E0 & B0); [reflexivity | discriminate | apply Hd |].
  rewrite E0.
  pose proof (simulate_human_behavior_slept pacing draws Hd true g 1) as Hs.
  destruct (simulate_human_behavior true pacing g draws 1) as [acts k].
  cbn [fst] in Hs.
  destruct (blocked p).
  - exists (t0 + slept_in acts)%Q. split; [reflexivity|].
    split; [discriminate|]. intros _. cbn [List.length Z.of_nat]. unfold inject_Z.
    split; lra.
  - unfold extract.
    destruct (scrape_buttons_paced_spec pacing draws Hd config (flight_buttons p) k 1 []
                (t0 + slept_in acts)%Q) as (F & added & L & Lo & Hi).
    destruct (scrape_buttons_paced config pacing draws k 1 (flight_buttons p) []
                (t0 + slept_in acts)%Q) as [flights slept'].
    cbn [fst snd] in F, Lo, Hi. subst flights.
    exists slept'. split; [reflexivity|].
    split; [discriminate|]. intros _.
    rewrite L. cbn [List.length Nat.add]. split; lra.
Qed.

Lemma scrape_pauses_witness :
  exists slept,
    scrape_page_paced default_config default_pacing (fares_page scenario_buttons)
      sample_gesture half_draws
    = (slept, Ok (scrape_page default_config (fares_page scenario_buttons))) /\
    (3 + (7 # 10) * 2 <= slept)%Q /\ (slept <= (127 # 10) + 2 * 2)%Q.
Proof.
  assert (Hd : unit_draws half_draws) by (intro k; split; discriminate).
  destruct (scrape_pauses default_config default_pacing (fares_page scenario_buttons)
              sample_gesture half_draws Hd) as (slept & E & _ & H).
  exists slept. split; [exact E|]. exact (H eq_refl).
Defined.

(** ** Grouped numbers *)

Local Open Scope string_scope.

Lemma digitpart_decimal (s : string) :
  all_chars Py.is_digit s = true ->
  forall acc cnt,
    Py.digitpart s acc cnt
    = (decimal_from acc s, (cnt + String.length s)%nat, EmptyString).
Proof.
  induction s as [|c s IH]; intros Hs acc cnt; cbn [Py.digitpart decimal_from].
  - now rewrite Nat.add_0_r.
  - simpl in Hs. apply andb_true_iff in Hs. destruct Hs as [Hc Hs].
    rewrite Hc, (IH Hs). cbn [String.length]. now rewrite Nat.add_succ_r.
Qed.

(** [int] of a text of at most 4300 digits is the number it writes. *)
Lemma int_of_str_decimal (c : ascii) (s : string) :
  Py.is_digit c = true -> all_chars Py.is_digit s = true ->
  (String.length (String c s) <= 4300)%nat ->
  Py.int_of_str (String c s) = Ok (decimal (String c s)).
Proof.
  intros Hc Hs Hl. unfold Py.int_of_str.
  rewrite (strip_digit_first c s Hc Hs), (digit_not_sign c s Hc).
  assert (Ha : all_chars Py.is_digit (String c s) = true) by (simpl; now rewrite Hc, Hs).
  rewrite (digitpart_decimal _ Ha 0 0%nat).
  cbn [String.length Nat.add]. cbn [String.length] in Hl.
  replace (4300 <? S (String.length s))%nat with false
    by (symmetry; apply Nat.ltb_ge; exact Hl).
  reflexivity.
Qed.

Lemma remove_char_app (c : ascii) (a b : string) :
  Py.remove_char c (a ++ b) = (Py.remove_char c a ++ Py.remove_char c b)%string.
Proof.
  induction a as [|d a IH]; cbn [String.append Py.remove_char]; [reflexivity|].
  destruct (Ascii.eqb c d); [exact IH|]. cbn [String.append]. now rewrite IH.
Qed.

Lemma remove_comma_of_digits (s : string) :
  all_chars Py.is_digit s = true -> Py.remove_char "," s = s.
Proof.
  induction s as [|c s IH]; cbn [all_chars Py.remove_char]; [reflexivity|].
  intro H. apply andb_true_iff in H. destruct H as [Hc Hs].
  now rewrite (digit_not_comma c Hc), (IH Hs).
Qed.

Lemma three_digits_spec (b : string) :
  three_digits b = true ->
  exists c1 c2 c3,
    b = String c1 (String c2 (String c3 EmptyString)) /\
    Py.is_digit c1 = true /\ Py.is_digit c2 = true /\ Py.is_digit c3 = true.
Proof.
  unfold three_digits. intro H. apply andb_true_iff in H. destruct H as [Hl Hd].
  destruct b as [|c1 [|c2 [|c3 [|c4 b]]]]; try discriminate Hl.
  cbn [all_chars] in Hd. rewrite !andb_true_iff in Hd.
  exists c1, c2, c3. tauto.
Qed.

Lemma blocks_digits_all (blocks : list string) :
  forallb three_digits blocks = true ->
  all_chars Py.is_digit (blocks_digits blocks) = true.
Proof.
  induction blocks as [|b blocks IH]; cbn [forallb blocks_digits]; [reflexivity|].
  intro H. apply andb_true_iff in H. destruct H as [Hb Hr].
  rewrite all_chars_app, (IH Hr), andb_true_r.
  unfold three_digits in Hb. apply andb_true_iff in Hb. tauto.
Qed.

Lemma blocks_text_chars (blocks : list string) :
  forallb three_digits blocks = true ->
  all_chars is_digit_or_comma (blocks_text blocks) = true.
Proof.
  induction blocks as [|b blocks IH]; cbn [forallb blocks_text]; [reflexivity|].
  intro H. apply andb_true_iff in H. destruct H as [Hb Hr].
  cbn [all_chars]. rewrite all_chars_app, (IH Hr), andb_true_r.
  unfold three_digits in Hb. apply andb_true_iff in Hb. destruct Hb as [_ Hb].
  change (is_digit_or_comma ",") with true. cbn [andb].
  apply (all_chars_impl Py.is_digit); [|exact Hb].
  intros c Hc. unfold is_digit_or_comma. now rewrite Hc.
Qed.

Lemma remove_comma_blocks (blocks : list string) :
  forallb three_digits blocks = true ->
  Py.remove_char "," (blocks_text blocks) = blocks_digits blocks.
Proof.
  induction blocks as [|b blocks IH]; cbn [forallb blocks_text blocks_digits]; [reflexivity|].
  intro H. apply andb_true_iff in H. destruct H as [Hb Hr].
  cbn [Py.remove_char]. change (Ascii.eqb "," ",") with true. cbv iota.
  rewrite remove_char_app, (IH Hr). f_equal.
  apply remove_comma_of_digits.
  unfold three_digits in Hb. apply andb_true_iff in Hb. tauto.
Qed.

Section Greedy.

Variable A : Type.

(** With a continuation that accepts the rest, a bounded run of digits is
    taken whole. *)
Lemma run_upto_digits (n : nat) :
  forall (h X : string) (k : string -> option A),
    all_chars Py.is_digit h = true -> (String.length h <= n)%nat ->
    (String.length h = n \/ starts_digit X = false) ->
    k X <> None ->
    Re.run (Re.Upto n (Re.Cls Py.is_digit)) (h ++ X) k = k X.
Proof.
  intros h X k. cbn [Re.run]. revert h.
  induction n as [|n IH]; intros h Hd Hl Hm Hk.
  - destruct h; [reflexivity | cbn [String.length] in Hl; lia].
  - destruct h as [|c h].
    + cbn [String.append].
      assert (Hx : starts_digit X = false).
      { destruct Hm as [Hm|Hm]; [discriminate Hm | exact Hm]. }
      destruct X as [|x X]; [reflexivity|].
      cbn [starts_digit] in Hx. now rewrite Hx.
    + cbn [String.append]. cbn [all_chars] in Hd.
      apply andb_true_iff in Hd. destruct Hd as [Hc Hd]. rewrite Hc.
      cbn [String.length] in Hl, Hm.
      rewrite (IH h Hd); [| lia | destruct Hm as [Hm|Hm]; [left; lia | right; exact Hm]
                          | exact Hk].
      destruct (k X); [reflexivity | contradiction].
Qed.

Lemma run_block_none (X : string) (k : string -> option A) :
  starts_block X = false ->
  Re.run (Re.Seq (Re.Cls (Ascii.eqb ",")) (Re.Times 3 (Re.Cls Py.is_digit))) X k = None.
Proof.
  intro H. cbn [Re.run].
  destruct X as [|c0 X]; [reflexivity|].
  rewrite Ascii.eqb_sym.
  destruct (Ascii.eqb c0 ",") eqn:E0; [|reflexivity].
  destruct X as [|c1 X]; [reflexivity|].
  destruct (Py.is_digit c1) eqn:E1; [|reflexivity].
  destruct X as [|c2 X]; [reflexivity|].
  destruct (Py.is_digit c2) eqn:E2; [|reflexivity].
  destruct X as [|c3 X]; [reflexivity|].
  destruct (Py.is_digit c3) eqn:E3; [|reflexivity].
  cbn [starts_block] in H. rewrite E0, E1, E2, E3 in H. discriminate H.
Qed.

Lemma run_block_ok (c1 c2 c3 : ascii) (X : string) (k : string -> option A) :
  Py.is_digit c1 = true -> Py.is_digit c2 = true -> Py.is_digit c3 = true ->
  Re.run (Re.Seq (Re.Cls (Ascii.eqb ",")) (Re.Times 3 (Re.Cls Py.is_digit)))
    (String "," (String c1 (String c2 (String c3 X)))) k = k X.
Proof.
  intros H1 H2 H3. cbn [Re.run]. change (Ascii.eqb "," ",") with true. cbv iota.
  now rewrite H1, H2, H3.
Qed.

(** With a continuation that accepts the rest, the blocks are all taken. *)
Lemma run_star_blocks (blocks : list string) (X : string) (k : string -> option A) :
  forallb three_digits blocks = true ->
  starts_block X = false ->
  k X <> None ->
  Re.run (Re.Star (Re.Seq (Re.Cls (Ascii.eqb ",")) (Re.Times 3 (Re.Cls Py.is_digit))))
    (blocks_text blocks ++ X) k = k X.
Proof.
  intros Hb Hx Hk.
  change (Re.run (Re.Star (Re.Seq (Re.Cls (Ascii.eqb ",")) (Re.Times 3 (Re.Cls Py.is_digit))))
            (blocks_text blocks ++ X) k)
    with ((fix loop (fuel : nat) (s : string) {struct fuel} : option A :=
             match fuel with
             | O => k s
             | S fuel' =>
                 match Re.run (Re.Seq (Re.Cls (Ascii.eqb ","))
                                 (Re.Times 3 (Re.Cls Py.is_digit))) s
                         (fun s1 => if (String.length s1 <? String.length s)%nat
                                    then loop fuel' s1 else None) with
                 | Some a => Some a
                 | None => k s
                 end
             end) (String.length (blocks_text blocks ++ X)) (blocks_text blocks ++ X)).
  assert (Hf : (List.length blocks <= String.length (blocks_text blocks ++ X))%nat).
  { clear. induction blocks as [|b blocks IH]; cbn [List.length]; [lia|].
    cbn [blocks_text String.append String.length].
    rewrite !length_append in *. lia. }
  revert Hf. generalize (String.length (blocks_text blocks ++ X)) as fuel.
  intro fuel. revert blocks Hb.
  induction fuel as [|fuel IH]; intros blocks Hb Hf.
  - destruct blocks; [reflexivity | cbn [List.length] in Hf; lia].
  - destruct blocks as [|b blocks].
    + cbn [blocks_text String.append].
      rewrite run_block_none by exact Hx. reflexivity.
    + cbn [forallb] in Hb. apply andb_true_iff in Hb. destruct Hb as [Hb Hbs].
      destruct (three_digits_spec b Hb) as (c1 & c2 & c3 & -> & H1 & H2 & H3).
      cbn [blocks_text String.append].
      cbn [List.length] in Hf.
      rewrite run_block_ok by assumption. cbv beta.
      replace (String.length (blocks_text blocks ++ X)
               <? String.length
                    (String "," (String c1 (String c2 (String c3 (blocks_text blocks ++ X))))))%nat
        with true by (symmetry; apply Nat.ltb_lt; cbn [String.length]; lia).
      rewrite (IH blocks Hbs) by lia.
      destruct (k X); [reflexivity | contradiction].
Qed.

(** The pattern of [parse_points] takes a grouped number whole. *)
Lemma run_points_group (c : ascii) (h : string) (blocks : list string) (X : string)
  (k : string -> option A) :
  Py.is_digit c = true -> all_chars Py.is_digit h = true -> (String.length h <= 2)%nat ->
  forallb three_digits blocks = true ->
  (String.length h = 2%nat \/ blocks <> [] \/ starts_digit X = false) ->
  starts_block X = false ->
  k X <> None ->
  Re.run points_group (String c (h ++ blocks_text blocks ++ X)) k = k X.
Proof.
  intros Hc Hh Hl Hb Hm Hx Hk.
  change (Re.run points_group (String c (h ++ blocks_text blocks ++ X)) k)
    with (if Py.is_digit c
          then Re.run (Re.Upto 2 (Re.Cls Py.is_digit)) (h ++ blocks_text blocks ++ X)
                 (fun s1 =>
                    Re.run (Re.Star (Re.Seq (Re.Cls (Ascii.eqb ","))
                                       (Re.Times 3 (Re.Cls Py.is_digit)))) s1 k)
          else None).
  rewrite Hc.
  rewrite run_upto_digits; [apply run_star_blocks; assumption | exact Hh | exact Hl | |].
  - destruct Hm as [Hm|[Hm|Hm]]; [left; exact Hm | right | right].
    + destruct blocks as [|b blocks]; [contradiction|]. reflexivity.
    + destruct blocks as [|b blocks]; [exact Hm | reflexivity].
  - rewrite run_star_blocks by assumption. exact Hk.
Qed.

End Greedy.

Lemma lower_char_comma (c : ascii) : Ascii.eqb (Py.lower_char c) "," = Ascii.eqb c ",".
Proof. destruct c as [[] [] [] [] [] [] [] []]; reflexivity. Qed.

Lemma digit_or_comma_plain (c : ascii) :
  is_digit_or_comma c = true ->
  Py.is_space c = false /\ Py.lower_char c = c /\ Ascii.eqb "k" c = false.
Proof. destruct c as [[] [] [] [] [] [] [] []]; intro H; try discriminate H; auto. Qed.

Lemma rstrip_cons (c : ascii) (s : string) :
  Py.rstrip (String c s) = EmptyString \/ Py.rstrip (String c s) = String c (Py.rstrip s).
Proof.
  cbn [Py.rstrip]. destruct (Py.rstrip s); [|right; reflexivity].
  destruct (Py.is_space c); [left | right]; reflexivity.
Qed.

(** A token of digits and commas stays as it is under [strip] and [lower]. *)
Lemma rstrip_token (a b : string) :
  all_chars is_digit_or_comma a = true ->
  Py.rstrip (a ++ b) = a ++ Py.rstrip b.
Proof.
  induction a as [|c a IH]; cbn [all_chars String.append]; [reflexivity|].
  intro H. apply andb_true_iff in H. destruct H as [Hc Ha].
  cbn [Py.rstrip]. rewrite (IH Ha).
  destruct (digit_or_comma_plain c Hc) as (Hs & _ & _). rewrite Hs.
  destruct (a ++ Py.rstrip b); reflexivity.
Qed.

Lemma lower_token (a : string) :
  all_chars is_digit_or_comma a = true -> Py.lower a = a.
Proof.
  induction a as [|c a IH]; cbn [all_chars Py.lower]; [reflexivity|].
  intro H. apply andb_true_iff in H. destruct H as [Hc Ha].
  destruct (digit_or_comma_plain c Hc) as (_ & Hl & _). now rewrite Hl, (IH Ha).
Qed.

Lemma has_char_k_token (a b : string) :
  all_chars is_digit_or_comma a = true ->
  Py.has_char "k" (a ++ b) = Py.has_char "k" b.
Proof.
  induction a as [|c a IH]; cbn [all_chars String.append Py.has_char]; [reflexivity|].
  intro H. apply andb_true_iff in H. destruct H as [Hc Ha].
  destruct (digit_or_comma_plain c Hc) as (_ & _ & Hk). now rewrite Hk, (IH Ha).
Qed.

Lemma starts_digit_normal (s : string) :
  starts_digit s = false -> starts_digit (Py.lower (Py.rstrip s)) = false.
Proof.
  destruct s as [|c s]; [reflexivity|]. cbn [starts_digit]. intro H.
  destruct (rstrip_cons c s) as [E|E]; rewrite E; [reflexivity|].
  cbn [Py.lower starts_digit]. now rewrite lower_char_digit.
Qed.

Lemma starts_block_normal (s : string) :
  starts_block s = false -> starts_block (Py.lower (Py.rstrip s)) = false.
Proof.
  intro H.
  destruct s as [|c0 s]; [reflexivity|].
  destruct (rstrip_cons c0 s) as [E|E]; rewrite E; [reflexivity|].
  destruct s as [|c1 s]; [reflexivity|].
  destruct (rstrip_cons c1 s) as [E1|E1]; rewrite E1; [reflexivity|].
  destruct s as [|c2 s]; [reflexivity|].
  destruct (rstrip_cons c2 s) as [E2|E2]; rewrite E2; [reflexivity|].
  destruct s as [|c3 s]; [reflexivity|].
  destruct (rstrip_cons c3 s) as [E3|E3]; rewrite E3; [reflexivity|].
  cbn [Py.lower starts_block]. cbn [starts_block] in H.
  now rewrite lower_char_comma, !lower_char_digit.
Qed.

(** X20. [parse_points] reads a grouped number at the start of a text whole
    and ignores its commas: for one to three digits followed by any number of
    blocks of a comma and three digits, of at most 4300 digits in all, it
    returns the number that the digits write, whatever follows that is
    neither another block nor, after fewer than three digits alone, a further
    digit, and holds no letter k. After three digits without a comma the
    further digits are not read. *)
Theorem parse_points_grouped (head : string) (blocks : list string) (rest : string) :
  (1 <= String.length head <= 3)%nat ->
  all_chars Py.is_digit head = true ->
  forallb three_digits blocks = true ->
  (String.length (head ++ blocks_digits blocks) <= 4300)%nat ->
  (String.length head = 3%nat \/ blocks <> [] \/ starts_digit rest = false) ->
  starts_block rest = false ->
  Py.has_char "k" rest = false ->
  Py.has_char "K" rest = false ->
  parse_points (Some (head ++ blocks_text blocks ++ rest))
  = Ok (decimal (head ++ blocks_digits blocks)).
Proof.
  intros Hl Hh Hb Hmax Hm Hx Hk HK.
  destruct head as [|c h]; [cbn [String.length] in Hl; lia|].
  cbn [all_chars] in Hh. apply andb_true_iff in Hh. destruct Hh as [Hc Hh].
  cbn [String.length] in Hl, Hm.
  set (rest' := Py.lower (Py.rstrip rest)).
  assert (Htok : all_chars is_digit_or_comma (String c h ++ blocks_text blocks) = true).
  { rewrite all_chars_app, (blocks_text_chars blocks Hb), andb_true_r.
    apply (all_chars_impl Py.is_digit).
    - intros d Hd. unfold is_digit_or_comma. now rewrite Hd.
    - cbn [all_chars]. now rewrite Hc, Hh. }
  assert (Ht : Py.lower (Py.strip (String c h ++ blocks_text blocks ++ rest))
               = String c (h ++ blocks_text blocks ++ rest')).
  { unfold Py.strip. cbn [String.append Py.lstrip].
    rewrite (digit_not_space c Hc).
    change (String c (h ++ blocks_text blocks ++ rest))
      with (String c h ++ blocks_text blocks ++ rest).
    rewrite <- append_assoc, (rstrip_token _ rest Htok), lower_app, (lower_token _ Htok).
    rewrite append_assoc. reflexivity. }
  unfold parse_points. cbn [String.append]. cbn [String.append] in Ht. rewrite Ht.
  assert (Hnok : Py.has_char "k" (String c (h ++ blocks_text blocks ++ rest')) = false).
  { change (String c (h ++ blocks_text blocks ++ rest'))
      with (String c h ++ blocks_text blocks ++ rest').
    rewrite <- append_assoc, (has_char_k_token _ rest' Htok).
    apply has_char_k_lower; apply has_char_rstrip; assumption. }
  rewrite Hnok.
  assert (Hs : Re.search Re.Eps points_group (String c (h ++ blocks_text blocks ++ rest'))
               = Some (String c h ++ blocks_text blocks)).
  { cbn [Re.search].
    change (Re.match_here Re.Eps points_group (String c (h ++ blocks_text blocks ++ rest')))
      with (Re.run points_group (String c (h ++ blocks_text blocks ++ rest'))
              (fun s2 =>
                 Some (String.substring 0
                         (String.length (String c (h ++ blocks_text blocks ++ rest'))
                          - String.length s2)
                         (String c (h ++ blocks_text blocks ++ rest'))))).
    rewrite (run_points_group string c h blocks rest');
      [ | exact Hc | exact Hh | lia | exact Hb | | apply starts_block_normal; exact Hx
        | discriminate ].
    - f_equal.
      change (String c (h ++ blocks_text blocks ++ rest'))
        with (String c h ++ blocks_text blocks ++ rest').
      rewrite <- append_assoc, length_append, Nat.add_sub.
      apply substring_prefix.
    - destruct Hm as [Hm|[Hm|Hm]]; [left; lia | right; left; exact Hm |].
      right; right. apply starts_digit_normal. exact Hm. }
  rewrite Hs, remove_char_app, (remove_comma_blocks blocks Hb).
  rewrite remove_comma_of_digits by (cbn [all_chars]; now rewrite Hc, Hh).
  cbn [String.append]. apply int_of_str_decimal; [exact Hc| |exact Hmax].
  now rewrite all_chars_app, Hh, (blocks_digits_all blocks Hb).
Qed.

Lemma parse_points_grouped_witness :
  parse_points (Some "1,234,567 pts") = Ok 1234567 /\
  parse_points (Some "1234567") = Ok 123.
Proof.
  split.
  - apply (parse_points_grouped "1" ["234"; "567"] " pts");
      [cbn; lia | reflexivity | reflexivity | cbn; lia | right; left; discriminate
       | reflexivity | reflexivity | reflexivity].
  - apply (parse_points_grouped "123" [] "4567");
      [cbn; lia | reflexivity | reflexivity | cbn; lia | left; reflexivity
       | reflexivity | reflexivity | reflexivity].
Defined.

(** ** Prices *)

Section GreedyClass.

Variable A : Type.

(** With a continuation that accepts the rest, a run of a class is taken
    whole. *)
Lemma run_star_class (p : ascii -> bool) (a X : string) (k : string -> option A) :
  all_chars p a = true ->
  starts_with p X = false ->
  k X <> None ->
  Re.run (Re.Star (Re.Cls p)) (a ++ X) k = k X.
Proof.
  intros Ha Hx Hk. cbn [Re.run].
  assert (Hf : (String.length a <= String.length (a ++ X))%nat)
    by (rewrite length_append; lia).
  revert Hf. generalize (String.length (a ++ X)) as fuel.
  intro fuel. revert a Ha.
  induction fuel as [|fuel IH]; intros a Ha Hf.
  - destruct a; [reflexivity | cbn [String.length] in Hf; lia].
  - destruct a as [|c a].
    + cbn [String.append].
      destruct X as [|x X]; [reflexivity|].
      cbn [starts_with] in Hx. now rewrite Hx.
    + cbn [all_chars] in Ha. apply andb_true_iff in Ha. destruct Ha as [Hc Ha].
      cbn [String.append]. rewrite Hc.
      replace (String.length (a ++ X) <? String.length (String c (a ++ X)))%nat
        with true by (symmetry; apply Nat.ltb_lt; cbn [String.length]; lia).
      cbn [String.length] in Hf.
      rewrite (IH a Ha) by lia.
      destruct (k X); [reflexivity | contradiction].
Qed.

Lemma run_fraction_none (X : string) (k : string -> option A) :
  starts_fraction X = false ->
  Re.run (Re.Seq (Re.Cls (Ascii.eqb "."))
            (Re.Seq (Re.Cls Py.is_digit) (Re.Upto 1 (Re.Cls Py.is_digit)))) X k = None.
Proof.
  intro H. cbn [Re.run].
  destruct X as [|c0 X]; [reflexivity|].
  rewrite Ascii.eqb_sym.
  destruct (Ascii.eqb c0 ".") eqn:E0; [|reflexivity].
  destruct X as [|c1 X]; [reflexivity|].
  cbn [starts_fraction] in H. rewrite E0 in H. cbn [andb] in H. now rewrite H.
Qed.

(** The group of [parse_money] takes the number of a price whole. *)
Lemma run_money_group (c : ascii) (w f X : string) (k : string -> option A) :
  is_digit_or_comma c = true -> all_chars is_digit_or_comma w = true ->
  all_chars Py.is_digit f = true -> (String.length f <= 2)%nat ->
  price_ends f X = true ->
  k X <> None ->
  Re.run money_group (String c (w ++ fraction_text f ++ X)) k = k X.
Proof.
  intros Hc Hw Hf Hl He Hk.
  set (frac := Re.Seq (Re.Cls (Ascii.eqb "."))
                 (Re.Seq (Re.Cls Py.is_digit) (Re.Upto 1 (Re.Cls Py.is_digit)))).
  change (Re.run money_group (String c (w ++ fraction_text f ++ X)) k)
    with (if is_digit_or_comma c
          then Re.run (Re.Star (Re.Cls is_digit_or_comma)) (w ++ fraction_text f ++ X)
                 (fun s1 => Re.run (Re.Opt frac) s1 k)
          else None).
  rewrite Hc.
  assert (Hopt : Re.run (Re.Opt frac) (fraction_text f ++ X) k = k X).
  { change (Re.run (Re.Opt frac) (fraction_text f ++ X) k)
      with (match Re.run frac (fraction_text f ++ X) k with
            | Some a => Some a
            | None => k (fraction_text f ++ X)
            end).
    destruct f as [|d1 f].
    - cbn [fraction_text String.append].
      unfold price_ends in He. cbn [String.length] in He.
      apply andb_true_iff in He. destruct He as [_ He]. apply negb_true_iff in He.
      unfold frac. now rewrite run_fraction_none.
    - cbn [all_chars] in Hf. apply andb_true_iff in Hf. destruct Hf as [H1 Hf].
      cbn [fraction_text String.append].
      change (Re.run frac (String "." (String d1 (f ++ X))) k)
        with (if Py.is_digit d1
              then Re.run (Re.Upto 1 (Re.Cls Py.is_digit)) (f ++ X) k else None).
      rewrite H1. cbn [String.length] in Hl.
      rewrite run_upto_digits; [ | exact Hf | lia | | exact Hk].
      + destruct (k X); [reflexivity | contradiction].
      + destruct f as [|d2 f]; [right | left].
        * unfold price_ends in He. cbn [String.length] in He.
          now apply negb_true_iff in He.
        * cbn [String.length] in *. lia. }
  rewrite run_star_class; [exact Hopt | exact Hw | | rewrite Hopt; exact Hk].
  destruct f as [|d1 f]; [|reflexivity].
  cbn [fraction_text String.append].
  unfold price_ends in He. cbn [String.length] in He.
  apply andb_true_iff in He. destruct He as [He _]. now apply negb_true_iff in He.
Qed.

End GreedyClass.

Lemma digit_or_comma_no_prefix (c : ascii) :
  is_digit_or_comma c = true -> Ascii.eqb "$" c = false /\ Py.is_space c = false.
Proof. destruct c as [[] [] [] [] [] [] [] []]; intro H; try discriminate H; auto. Qed.

Lemma money_char_plain (c : ascii) :
  money_char c = true -> Py.is_space c = false /\ Ascii.eqb c "_" = false.
Proof. destruct c as [[] [] [] [] [] [] [] []]; intro H; try discriminate H; auto. Qed.

Lemma money_prefix_classes :
  classes_in (fun c => Ascii.eqb "$" c || Py.is_space c) money_prefix.
Proof.
  unfold money_prefix. cbn [classes_in].
  split; intros c H; rewrite H; [reflexivity | apply orb_true_r].
Qed.

(** Two ways of cutting a text before a character of [Q] agree when the one
    cuts off characters outside [Q] and the other characters of [P], no
    character being of both. *)
Lemma cut_unique (P Q : ascii -> bool) :
  (forall x, P x = true -> Q x = false) ->
  forall a b c d : string,
    a ++ b = c ++ d ->
    all_chars (not_in Q) a = true -> all_chars P c = true ->
    starts_with Q b = true -> starts_with Q d = true ->
    a = c /\ b = d.
Proof.
  intros HPQ. induction a as [|x a IH]; intros b c d E Ha Hc Hb Hd.
  - destruct c as [|y c]; [split; [reflexivity | exact E]|].
    cbn [String.append] in E. subst b. cbn [starts_with] in Hb.
    cbn [all_chars] in Hc. apply andb_true_iff in Hc. destruct Hc as [Hy _].
    rewrite (HPQ y Hy) in Hb. discriminate Hb.
  - cbn [all_chars] in Ha. apply andb_true_iff in Ha. destruct Ha as [Hx Ha].
    unfold not_in in Hx. apply negb_true_iff in Hx.
    destruct c as [|y c].
    + cbn [String.append] in E. subst d. cbn [starts_with] in Hd. congruence.
    + cbn [String.append] in E. injection E as -> E.
      cbn [all_chars] in Hc. apply andb_true_iff in Hc. destruct Hc as [_ Hc].
      destruct (IH b c d E Ha Hc Hb Hd) as [-> ->]. split; reflexivity.
Qed.

Section PriceSearch.

Variables (c : ascii) (w f X : string).
Hypothesis c_ok : is_digit_or_comma c = true.
Hypothesis w_ok : all_chars is_digit_or_comma w = true.
Hypothesis f_ok : all_chars Py.is_digit f = true.
Hypothesis f_short : (String.length f <= 2)%nat.
Hypothesis ends : price_ends f X = true.

Let number : string := String c (w ++ fraction_text f ++ X).

Lemma group_at_number :
  Re.run money_group number
    (fun s2 => Some (String.substring 0 (String.length number - String.length s2) number))
  = Some (String c w ++ fraction_text f).
Proof.
  unfold number.
  rewrite (run_money_group string c w f X) by (assumption || discriminate).
  f_equal.
  change (String c (w ++ fraction_text f ++ X)) with (String c w ++ fraction_text f ++ X).
  rewrite <- append_assoc, length_append, Nat.add_sub.
  apply substring_prefix.
Qed.

Lemma match_here_number :
  Re.match_here money_prefix money_group number = Some (String c w ++ fraction_text f).
Proof.
  destruct (digit_or_comma_no_prefix c c_ok) as [Hd Hs].
  unfold Re.match_here, money_prefix.
  change (Re.run (Re.Seq (Re.Opt (Re.Cls (Ascii.eqb "$"))) (Re.Star (Re.Cls Py.is_space)))
            number ?k)
    with (match (if Ascii.eqb "$" c
                 then Re.run (Re.Star (Re.Cls Py.is_space))
                        (w ++ fraction_text f ++ X) k
                 else None) with
          | Some a => Some a
          | None => Re.run (Re.Star (Re.Cls Py.is_space)) (EmptyString ++ number) k
          end).
  rewrite Hd.
  rewrite run_star_class;
    [apply group_at_number | reflexivity | exact Hs | rewrite group_at_number; discriminate].
Qed.

Lemma match_here_before (a g : string) :
  all_chars (not_in is_digit_or_comma) a = true ->
  Re.match_here money_prefix money_group (a ++ number) = Some g ->
  g = String c w ++ fraction_text f.
Proof.
  intros Ha H. unfold Re.match_here in H.
  apply (run_consumed _ string money_prefix money_prefix_classes) in H.
  destruct H as (m0 & s1 & E & Hm & H).
  assert (Hs1 : starts_with is_digit_or_comma s1 = true).
  { unfold money_group, Re.Plus in H. cbn [Re.run] in H.
    destruct s1 as [|x s1]; [discriminate H|].
    cbn [starts_with]. destruct (is_digit_or_comma x); [reflexivity | discriminate H]. }
  destruct (cut_unique (fun x => Ascii.eqb "$" x || Py.is_space x) is_digit_or_comma)
    with (a := a) (b := number) (c := m0) (d := s1) as [_ <-];
    [ | exact E | exact Ha | exact Hm | exact c_ok | exact Hs1 | ].
  - intros x Hx. destruct (is_digit_or_comma x) eqn:Ex; [|reflexivity].
    destruct (digit_or_comma_no_prefix x Ex) as [H1 H2]. rewrite H1, H2 in Hx.
    discriminate Hx.
  - rewrite group_at_number in H. now injection H as <-.
Qed.

Lemma search_number (a : string) :
  all_chars (not_in is_digit_or_comma) a = true ->
  Re.search money_prefix money_group (a ++ number) = Some (String c w ++ fraction_text f).
Proof.
  induction a as [|x a IH]; intro Ha.
  - cbn [String.append]. unfold number at 1. cbn [Re.search]. fold number.
    now rewrite match_here_number.
  - cbn [String.append Re.search].
    destruct (Re.match_here money_prefix money_group (String x (a ++ number))) as [g|] eqn:E.
    + f_equal. apply (match_here_before (String x a) g Ha E).
    + apply IH. cbn [all_chars] in Ha. apply andb_true_iff in Ha. tauto.
Qed.

End PriceSearch.

Lemma digitpart_then (a X : string) :
  all_chars Py.is_digit a = true ->
  starts_with (fun c => Py.is_digit c || Ascii.eqb c "_") X = false ->
  forall acc cnt,
    Py.digitpart (a ++ X) acc cnt = (decimal_from acc a, (cnt + String.length a)%nat, X).
Proof.
  intros Ha Hx. induction a as [|c a IH]; intros acc cnt.
  - cbn [String.append decimal_from String.length]. rewrite Nat.add_0_r.
    destruct X as [|x X]; [reflexivity|].
    cbn [starts_with] in Hx. apply orb_false_iff in Hx. destruct Hx as [H1 H2].
    cbn [Py.digitpart]. now rewrite H1, H2.
  - cbn [all_chars] in Ha. apply andb_true_iff in Ha. destruct Ha as [Hc Ha].
    cbn [String.append Py.digitpart decimal_from String.length].
    rewrite Hc, (IH Ha). now rewrite Nat.add_succ_r.
Qed.

Lemma strip_no_space (s : string) :
  all_chars (not_in Py.is_space) s = true -> Py.strip s = s.
Proof.
  intro H. unfold Py.strip.
  assert (L : Py.lstrip s = s).
  { destruct s as [|c s]; [reflexivity|]. cbn [all_chars] in H.
    apply andb_true_iff in H. destruct H as [Hc _].
    unfold not_in in Hc. apply negb_true_iff in Hc. cbn [Py.lstrip]. now rewrite Hc. }
  rewrite L. clear L.
  induction s as [|c s IH]; [reflexivity|].
  cbn [all_chars] in H. apply andb_true_iff in H. destruct H as [Hc Hs].
  unfold not_in in Hc. apply negb_true_iff in Hc.
  cbn [Py.rstrip]. rewrite (IH Hs), Hc. destruct s; reflexivity.
Qed.

Lemma power_of_ten (n : nat) :
  (Qpower (10 # 1) (0 - Z.of_nat n) == / inject_Z (10 ^ Z.of_nat n))%Q.
Proof.
  replace (0 - Z.of_nat n) with (- Z.of_nat n) by lia.
  rewrite Qpower_opp. apply Qinv_comp.
  rewrite Zpower_Qpower by lia. reflexivity.
Qed.

Lemma digit_first_no_literal (d : ascii) (s : string) :
  Py.is_digit d = true ->
  String.eqb (Py.lower (String d s)) "inf" || String.eqb (Py.lower (String d s)) "infinity"
  = false.
Proof.
  intro H. cbn [Py.lower String.eqb].
  replace (Ascii.eqb (Py.lower_char d) "i") with false; [reflexivity|].
  destruct d as [[] [] [] [] [] [] [] []]; try reflexivity; discriminate H.
Qed.

(** [float] of digits with a fraction is the double nearest to the price they
    write. *)
Lemma float_price (d : ascii) (ds f : string) :
  Py.is_digit d = true -> all_chars Py.is_digit ds = true ->
  all_chars Py.is_digit f = true ->
  exists q, Py.float (String d ds ++ fraction_text f) = Ok q /\
            (q == Py.binary64 (price_value (String d ds) f))%Q.
Proof.
  intros Hd Hds Hf.
  assert (Hall : all_chars Py.is_digit (String d ds) = true)
    by (cbn [all_chars]; now rewrite Hd, Hds).
  assert (Hm : all_chars money_char (String d ds ++ fraction_text f) = true).
  { rewrite all_chars_app. apply andb_true_iff. split.
    - apply (all_chars_impl Py.is_digit); [|exact Hall].
      intros x Hx. unfold money_char, is_digit_or_comma. now rewrite Hx.
    - destruct f as [|x f]; [reflexivity|].
      change (all_chars money_char (fraction_text (String x f)))
        with (true && all_chars money_char (String x f)).
      cbn [andb].
      apply (all_chars_impl Py.is_digit); [|exact Hf].
      intros y Hy. unfold money_char, is_digit_or_comma. now rewrite Hy. }
  unfold Py.float.
  rewrite strip_no_space.
  2:{ apply (all_chars_impl money_char); [|exact Hm].
      intros x Hx. unfold not_in. now rewrite (proj1 (money_char_plain x Hx)). }
  cbn [String.append]. rewrite (digit_not_sign d _ Hd).
  rewrite (digit_first_no_literal d _ Hd).
  change (String d (ds ++ fraction_text f)) with (String d ds ++ fraction_text f).
  rewrite (digitpart_then (String d ds) (fraction_text f) Hall)
    by (destruct f; reflexivity).
  cbn [String.length Nat.add].
  destruct f as [|x f].
  - cbn [fraction_text Py.exponent Nat.add].
    eexists. split; [reflexivity|]. apply binary64_comp.
    unfold price_value, decimal. cbn [decimal_from String.length Z.of_nat].
    change (10 ^ 0) with 1. rewrite Z.mul_1_r, Z.add_0_r.
    change (0 - 0) with 0. cbn [Qpower].
    change (inject_Z 0) with 0%Q. change (inject_Z 1) with 1%Q.
    generalize (inject_Z (decimal_from (10 * 0 + Py.digit_value d) ds)). intro v.
    field.
  - cbn [fraction_text].
    rewrite (digitpart_decimal (String x f) Hf).
    cbn [Py.exponent Nat.add String.length].
    eexists. split; [reflexivity|]. apply binary64_comp.
    unfold price_value, decimal. cbn [String.length].
    rewrite power_of_ten, inject_Z_plus, inject_Z_mult.
    assert (Hp : ~ (inject_Z (10 ^ Z.of_nat (S (String.length f))) == 0)%Q).
    { assert (0 < 10 ^ Z.of_nat (S (String.length f))) by (apply Z.pow_pos_nonneg; lia).
      intro E. unfold Qeq in E. cbn in E. lia. }
    field. exact Hp.
Qed.

(** A text of digits writes a number below the power of ten of its length. *)
Lemma decimal_from_bound (s : string) :
  all_chars Py.is_digit s = true ->
  forall acc, 0 <= acc ->
    0 <= decimal_from acc s < (acc + 1) * 10 ^ Z.of_nat (String.length s).
Proof.
  induction s as [|c s IH]; intros H acc Ha.
  - cbn [decimal_from String.length Z.of_nat]. change (10 ^ 0) with 1. lia.
  - cbn [all_chars] in H. apply andb_true_iff in H. destruct H as [Hc Hs].
    assert (Hv : 0 <= Py.digit_value c <= 9).
    { unfold Py.is_digit in Hc. unfold Py.digit_value.
      apply andb_true_iff in Hc. destruct Hc as [H1 H2].
      apply Nat.leb_le in H1. apply Nat.leb_le in H2. lia. }
    cbn [decimal_from String.length]. rewrite Nat2Z.inj_succ, Z.pow_succ_r by lia.
    specialize (IH Hs (10 * acc + Py.digit_value c) ltac:(lia)).
    assert (0 < 10 ^ Z.of_nat (String.length s)) by (apply Z.pow_pos_nonneg; lia).
    nia.
Qed.

(** A price of at most 308 digits before the point is within the doubles. *)
Lemma price_finite (digits f : string) :
  all_chars Py.is_digit digits = true -> all_chars Py.is_digit f = true ->
  (String.length digits <= 308)%nat ->
  (0 <= price_value digits f)%Q /\
  Py.finite (Py.binary64 (price_value digits f)) = true.
Proof.
  intros Hd Hf Hl.
  destruct (decimal_from_bound digits Hd 0 ltac:(lia)) as [D0 D1].
  destruct (decimal_from_bound f Hf 0 ltac:(lia)) as [F0 F1].
  fold (decimal digits) in D0, D1. fold (decimal f) in F0, F1.
  rewrite Z.add_0_l, Z.mul_1_l in D1, F1.
  set (n := Z.of_nat (String.length f)) in *.
  assert (Pn : 0 < 10 ^ n) by (apply Z.pow_pos_nonneg; lia).
  assert (Dmax : decimal digits + 1 <= 10 ^ 308).
  { assert (10 ^ Z.of_nat (String.length digits) <= 10 ^ 308)
      by (apply Z.pow_le_mono_r; lia).
    lia. }
  assert (Q0 : (0 <= inject_Z (decimal f) / inject_Z (10 ^ n))%Q).
  { apply Qle_shift_div_l; [rewrite <- (Zlt_Qlt 0); exact Pn|].
    rewrite Qmult_0_l, <- (Zle_Qle 0). exact F0. }
  assert (Q1 : (inject_Z (decimal f) / inject_Z (10 ^ n) <= 1)%Q).
  { apply Qle_shift_div_r; [rewrite <- (Zlt_Qlt 0); exact Pn|].
    rewrite Qmult_1_l, <- Zle_Qle. lia. }
  assert (P0 : (0 <= price_value digits f)%Q).
  { unfold price_value. fold n.
    assert (H : (0 <= inject_Z (decimal digits))%Q)
      by (rewrite <- (Zle_Qle 0); exact D0).
    revert Q0 H. generalize (inject_Z (decimal f) / inject_Z (10 ^ n))%Q.
    generalize (inject_Z (decimal digits)). intros a b Hb Ha.
    rewrite <- (Qplus_0_l 0). apply Qplus_le_compat; assumption. }
  assert (P1 : (price_value digits f <= inject_Z (10 ^ 308))%Q).
  { unfold price_value. fold n.
    assert (H : (inject_Z (decimal digits) + 1 <= inject_Z (10 ^ 308))%Q).
    { change 1%Q with (inject_Z 1). rewrite <- inject_Z_plus, <- Zle_Qle. exact Dmax. }
    revert Q1 H. generalize (inject_Z (decimal f) / inject_Z (10 ^ n))%Q.
    generalize (inject_Z (decimal digits)). generalize (inject_Z (10 ^ 308)).
    intros c a b Hb Ha.
    apply Qle_trans with (a + 1)%Q; [|exact Ha].
    apply Qplus_le_compat; [apply Qle_refl | exact Hb]. }
  split; [exact P0|].
  pose proof (binary64_mono _ _ P1) as M.
  pose proof (binary64_nonneg _ P0) as N.
  assert (B : (Py.binary64 (inject_Z (10 ^ 308)) < Py.pow2 1024)%Q)
    by (vm_compute; reflexivity).
  unfold Py.finite.
  destruct (Qle_bool (Py.pow2 1024) (Qabs (Py.binary64 (price_value digits f)))) eqn:E;
    [|reflexivity].
  apply Qle_bool_iff in E. rewrite Qabs_pos in E by exact N.
  exfalso. apply (Qlt_irrefl (Py.pow2 1024)).
  apply Qle_lt_trans with (Py.binary64 (inject_Z (10 ^ 308))); [|exact B].
  apply Qle_trans with (Py.binary64 (price_value digits f)); assumption.
Qed.

(** X21. [parse_money] reads the first number of a text: after any text
    without a digit or a comma (a dollar sign, words, white space), for digits
    and commas with at least one and at most 308 digits, then nothing or a
    point and one or two digits, it returns the double nearest to the price
    that the digits write, the commas ignored, which is a finite one and the
    price itself when that is a whole number of at most 2 ** 53; provided the
    number ends there: what follows does not begin with a digit, a comma or a
    further fraction, or the fraction has its two digits. *)
Theorem parse_money_price (pre whole f rest : string) :
  all_chars (not_in is_digit_or_comma) pre = true ->
  all_chars is_digit_or_comma whole = true ->
  Py.remove_char "," whole <> EmptyString ->
  (String.length (Py.remove_char "," whole) <= 308)%nat ->
  all_chars Py.is_digit f = true ->
  (String.length f <= 2)%nat ->
  price_ends f rest = true ->
  exists q,
    parse_money (Some (pre ++ whole ++ fraction_text f ++ rest)) = Ok q /\
    (q == Py.binary64 (price_value (Py.remove_char "," whole) f))%Q /\
    Py.finite (Py.binary64 (price_value (Py.remove_char "," whole) f)) = true /\
    (f = EmptyString -> decimal (Py.remove_char "," whole) <= 2 ^ 53 ->
     (q == inject_Z (decimal (Py.remove_char "," whole)))%Q).
Proof.
  intros Hpre Hw Hne Hmax Hf Hl He.
  destruct whole as [|c w]; [contradiction Hne; reflexivity|].
  pose proof (remove_comma_digits _ Hw) as Hdigits.
  cbn [all_chars] in Hw. apply andb_true_iff in Hw. destruct Hw as [Hc Hw].
  pose proof (search_number c w f rest Hc Hw Hf Hl He pre Hpre) as Hs.
  cbn [String.append] in Hs |- *.
  unfold parse_money.
  destruct (pre ++ String c (w ++ fraction_text f ++ rest)) as [|x t] eqn:Et.
  { destruct pre; discriminate Et. }
  rewrite Hs.
  change (String c (w ++ fraction_text f)) with (String c w ++ fraction_text f).
  rewrite remove_char_app.
  replace (Py.remove_char "," (fraction_text f)) with (fraction_text f).
  2:{ destruct f as [|y f]; [reflexivity|].
      change (Py.remove_char "," (fraction_text (String y f)))
        with (String "." (Py.remove_char "," (String y f))).
      now rewrite (remove_comma_of_digits _ Hf). }
  destruct (price_finite _ f Hdigits Hf Hmax) as [_ Hfin].
  destruct (Py.remove_char "," (String c w)) as [|d ds] eqn:Ed;
    [contradiction Hne; reflexivity|].
  pose proof (decimal_from_bound _ Hdigits 0 ltac:(lia)) as [D0 _].
  cbn [all_chars] in Hdigits. apply andb_true_iff in Hdigits.
  destruct Hdigits as [Hd Hds].
  destruct (float_price d ds f Hd Hds Hf) as (q & Eq & Hq).
  exists q. split; [exact Eq|]. split; [exact Hq|]. split; [exact Hfin|].
  intros -> Hz. rewrite Hq.
  assert (Ev : (price_value (String d ds) EmptyString == inject_Z (decimal (String d ds)))%Q).
  { unfold price_value. change (decimal EmptyString) with 0.
    cbn [String.length Z.of_nat]. change (10 ^ 0) with 1.
    change (inject_Z 0) with 0%Q. change (inject_Z 1) with 1%Q. field. }
  rewrite Ev. apply binary64_int. fold (decimal (String d ds)) in D0. lia.
Qed.

Lemma parse_money_price_witness :
  exists q, parse_money (Some "from $ 1,234.5 each") = Ok q /\ (q == 12345 # 10)%Q.
Proof.
  destruct (parse_money_price "from $ " "1,234" "5" " each") as (q & E & H & _);
    [reflexivity | reflexivity | discriminate | cbn; lia | reflexivity | cbn; lia
     | reflexivity |].
  exists q. split; [exact E|]. rewrite H. vm_compute. reflexivity.
Defined.

(** ** Points in thousands *)

(** [int] of a float depends on its value only. *)
Lemma int_comp (x y : Q) : (x == y)%Q -> Py.int x = Py.int y.
Proof.
  unfold Py.int, Qeq. destruct x as [a b], y as [c d]. cbn [Qnum Qden]. intro E.
  rewrite <- (Z.quot_mul_cancel_r a (Z.pos b) (Z.pos d)) by lia.
  rewrite <- (Z.quot_mul_cancel_r c (Z.pos d) (Z.pos b)) by lia.
  rewrite E. f_equal. lia.
Qed.

Lemma rstrip_spaces (s : string) :
  all_chars Py.is_space s = true -> Py.rstrip s = EmptyString.
Proof.
  induction s as [|c s IH]; cbn [all_chars Py.rstrip]; [reflexivity|].
  intro H. apply andb_true_iff in H. destruct H as [Hc Hs].
  now rewrite (IH Hs), Hc.
Qed.

Lemma remove_k_token (a : string) :
  all_chars is_digit_or_comma a = true -> Py.remove_char "k" a = a.
Proof.
  induction a as [|c a IH]; cbn [all_chars Py.remove_char]; [reflexivity|].
  intro H. apply andb_true_iff in H. destruct H as [Hc Ha].
  destruct (digit_or_comma_plain c Hc) as (_ & _ & Hk). now rewrite Hk, (IH Ha).
Qed.

(** X22. [parse_points] reads whole thousands: digits and commas with at
    least one digit, followed by the letter k in either case and then white
    space only, give a thousand times the number that the digits write, as
    long as that product is at most 2 ** 53, where every whole number is a
    double. *)
Theorem parse_points_thousands (whole : string) (k : ascii) (spaces : string) :
  all_chars is_digit_or_comma whole = true ->
  Py.remove_char "," whole <> EmptyString ->
  decimal (Py.remove_char "," whole) * 1000 <= 2 ^ 53 ->
  k = "k"%char \/ k = "K"%char ->
  all_chars Py.is_space spaces = true ->
  parse_points (Some (whole ++ String k spaces))
  = Ok (decimal (Py.remove_char "," whole) * 1000).
Proof.
  intros Hw Hne Hmax Hk Hsp.
  pose proof (remove_comma_digits _ Hw) as Hdigits.
  assert (Ht : Py.lower (Py.strip (whole ++ String k spaces)) = whole ++ "k").
  { unfold Py.strip.
    assert (L : Py.lstrip (whole ++ String k spaces) = whole ++ String k spaces).
    { destruct whole as [|c w]; [contradiction Hne; reflexivity|].
      cbn [all_chars] in Hw. apply andb_true_iff in Hw. destruct Hw as [Hc _].
      destruct (digit_or_comma_plain c Hc) as (Hs & _ & _).
      cbn [String.append Py.lstrip]. now rewrite Hs. }
    rewrite L, (rstrip_token whole _ Hw).
    cbn [Py.rstrip]. rewrite (rstrip_spaces spaces Hsp).
    rewrite lower_app, (lower_token whole Hw).
    destruct Hk as [-> | ->]; reflexivity. }
  unfold parse_points.
  destruct (whole ++ String k spaces) as [|x t] eqn:Et.
  { destruct whole; discriminate Et. }
  rewrite Ht, (has_char_k_token whole "k" Hw).
  cbn [Py.has_char]. change (Ascii.eqb "k" "k") with true. cbn [orb].
  rewrite remove_char_app, (remove_k_token whole Hw).
  change (Py.remove_char "k" "k") with EmptyString. rewrite append_nothing.
  destruct (Py.remove_char "," whole) as [|d ds] eqn:Ed; [contradiction Hne; reflexivity|].
  pose proof (decimal_from_bound _ Hdigits 0 ltac:(lia)) as [D0 _].
  fold (decimal (String d ds)) in D0.
  cbn [all_chars] in Hdigits. apply andb_true_iff in Hdigits. destruct Hdigits as [Hd Hds].
  destruct (float_price d ds EmptyString Hd Hds eq_refl) as (q & Eq & Hq).
  cbn [fraction_text] in Eq. rewrite append_nothing in Eq. rewrite Eq. cbn [bind].
  set (n := decimal (String d ds)) in *.
  assert (Ev : (price_value (String d ds) EmptyString == inject_Z n)%Q).
  { unfold price_value. fold n. change (decimal EmptyString) with 0.
    cbn [String.length Z.of_nat]. change (10 ^ 0) with 1.
    change (inject_Z 0) with 0%Q. change (inject_Z 1) with 1%Q. field. }
  assert (Ex : (Py.binary64 (q * 1000) == inject_Z (n * 1000))%Q).
  { rewrite <- (binary64_int (n * 1000)) by lia.
    apply binary64_comp. rewrite Hq, Ev, binary64_int by lia.
    rewrite inject_Z_mult. reflexivity. }
  unfold Py.int_of_float, Py.finite.
  destruct (Qle_bool (Py.pow2 1024) (Qabs (Py.binary64 (q * 1000)))) eqn:E.
  - exfalso. apply Qle_bool_iff in E. rewrite Ex in E.
    rewrite Qabs_pos in E by (rewrite <- (Zle_Qle 0); lia).
    apply (Qlt_irrefl (Py.pow2 1024)).
    apply Qle_lt_trans with (inject_Z (2 ^ 53)).
    + apply Qle_trans with (inject_Z (n * 1000)); [exact E|].
      rewrite <- Zle_Qle. exact Hmax.
    + rewrite <- pow2_Z by lia. apply pow2_lt. lia.
  - cbn [negb]. f_equal. rewrite (int_comp _ _ Ex).
    unfold Py.int, inject_Z. cbn [Qnum Qden]. apply Z.quot_1_r.
Qed.

Lemma parse_points_thousands_witness :
  parse_points (Some "1,250K  ") = Ok 1250000.
Proof.
  apply (parse_points_thousands "1,250" "K" "  ");
    [reflexivity | discriminate | vm_compute; discriminate | right; reflexivity
     | reflexivity].
Defined.
